(** * Google Workspace MCP server: content extraction, rendering and
      error classification

    A shallow embedding of the pure parts of the server (the error
    classifier of [services/google-auth.ts], the text extractors and
    renderers of the docs, sheets, gmail and drive tool modules) together
    with the properties stated for them.

    Conventions.
    - A JavaScript string is the list of its UTF-16 code units, each a [Z].
      [lit] turns an ASCII literal into such a string; a line feed is [nl]
      and a double quote is [dq].
    - A [Buffer] is the list of its bytes, each a [Z] in [0, 256).
    - A value that may be [undefined] or [null] is an [option], and a
      [Nullable] where the text of a tool tells the two apart.
    - A number is a double, [Js.Number].
    - A call that may throw, and a promise, is given by its [Outcome]. *)

From Stdlib Require Import ZArith Lia Ascii String.
From stdpp Require Import base list sorting.

Local Open Scope Z_scope.

(** ** JavaScript strings *)

Module Js.

Definition jsstring : Type := list Z.

Definition lit (s : String.string) : jsstring :=
  map (fun a => Z.of_N (N_of_ascii a)) (list_ascii_of_string s).

Definition nl : jsstring := [10].
Definition dq : jsstring := [34].

(** [s.length] *)
Definition jslength (s : jsstring) : Z := Z.of_nat (length s).

(** Truthiness of a string: only the empty string is falsy. *)
Definition truthy (s : jsstring) : bool :=
  match s with [] => false | _ :: _ => true end.

(** [a === b] on strings. *)
Fixpoint streq (a b : jsstring) : bool :=
  match a, b with
  | [], [] => true
  | x :: a', y :: b' => (x =? y) && streq a' b'
  | _, _ => false
  end.

(** [s.startsWith(p)] *)
Fixpoint startsWith (s p : jsstring) : bool :=
  match p, s with
  | [], _ => true
  | x :: p', y :: s' => (x =? y) && startsWith s' p'
  | _ :: _, [] => false
  end.

(** [s.includes(p)]: [p] occurs at some position of [s]. *)
Fixpoint includes (s p : jsstring) : bool :=
  startsWith s p ||
  match s with
  | [] => false
  | _ :: s' => includes s' p
  end.

(** [s.substring(0, n)] for [0 <= n]. *)
Definition substring0 (s : jsstring) (n : Z) : jsstring :=
  take (Z.to_nat n) s.

(** [parts.join(sep)] *)
Fixpoint join (sep : jsstring) (parts : list jsstring) : jsstring :=
  match parts with
  | [] => []
  | [p] => p
  | p :: rest => p ++ sep ++ join sep rest
  end.

(** [s.replace(/c/g, r)] for a pattern that is the single code unit [c]. *)
Fixpoint replaceAll (c : Z) (r : jsstring) (s : jsstring) : jsstring :=
  match s with
  | [] => []
  | x :: s' => (if x =? c then r else [x]) ++ replaceAll c r s'
  end.

(** The code units matched by [\s] in a regular expression, which are also
    the ones [trim] removes: white space and line terminators. *)
Definition is_space (c : Z) : bool :=
  (9 <=? c) && (c <=? 13) || (c =? 32) || (c =? 0xA0) || (c =? 0x1680)
  || (0x2000 <=? c) && (c <=? 0x200A) || (c =? 0x2028) || (c =? 0x2029)
  || (c =? 0x202F) || (c =? 0x205F) || (c =? 0x3000) || (c =? 0xFEFF).

Fixpoint trimStart (s : jsstring) : jsstring :=
  match s with
  | [] => []
  | c :: s' => if is_space c then trimStart s' else s
  end.

(** [s.trim()] *)
Definition trim (s : jsstring) : jsstring :=
  rev (trimStart (rev (trimStart s))).

(** Position of the first occurrence of the code unit [c]. *)
Fixpoint indexOf (c : Z) (s : jsstring) : option nat :=
  match s with
  | [] => None
  | x :: s' => if x =? c then Some O else S <$> indexOf c s'
  end.

(** [s.replace(/<[^>]*>/g, "")]: a ['<'] with a ['>'] somewhere after it
    is removed together with everything up to the first such ['>'];
    [skip] counts the code units of the current match still to drop. *)
Fixpoint removeTags (skip : nat) (s : jsstring) : jsstring :=
  match s with
  | [] => []
  | c :: s' =>
      match skip with
      | S k => removeTags k s'
      | O =>
          if c =? 60 then
            match indexOf 62 s' with
            | Some n => removeTags (S n) s'
            | None => c :: removeTags O s'
            end
          else c :: removeTags O s'
      end
  end.

(** [s.replace(/\s+/g, " ")]: every maximal run of white space becomes one
    space; [in_run] tells that the previous code unit was white space. *)
Fixpoint collapseSpaces (in_run : bool) (s : jsstring) : jsstring :=
  match s with
  | [] => []
  | c :: s' =>
      if is_space c
      then (if in_run then [] else [32]) ++ collapseSpaces true s'
      else c :: collapseSpaces false s'
  end.

(** Two spaces side by side somewhere in the text. *)
Fixpoint has_double_space (s : jsstring) : bool :=
  match s with
  | a :: s' =>
      (a =? 32) && match s' with b :: _ => b =? 32 | [] => false end
      || has_double_space s'
  | [] => false
  end.

(** Decimal digits of a non-negative integer, most significant first;
    [fuel] bounds the number of digits. *)
Fixpoint digits (fuel : nat) (n : Z) (acc : jsstring) : jsstring :=
  match fuel with
  | O => acc
  | S fuel' =>
      let acc' := (48 + n mod 10) :: acc in
      if n <? 10 then acc' else digits fuel' (n / 10) acc'
  end.

(** [String(n)] for an integer [n]. *)
Definition String_int (n : Z) : jsstring :=
  if n <? 0 then 45 :: digits (S (Z.to_nat (Z.log2 (- n)))) (- n) []
  else digits (S (Z.to_nat (Z.log2 n))) n [].

(** The number that a string of decimal digits denotes. *)
Definition decimal_value (s : jsstring) : Z :=
  foldl (fun acc d => acc * 10 + (d - 48)) 0 s.

(** *** Numbers

    A number is a double. [Finite negative mantissa exponent] is plus or
    minus [mantissa * 2^exponent], written with an odd mantissa; a double
    has a mantissa below [2^53] and an exponent that leaves the mantissa as
    the format stores it within [-1074] and [971]. *)
Inductive Number : Type :=
  | NaN
  | Infinity (negative : bool)
  | Zero (negative : bool)
  | Finite (negative : bool) (mantissa : positive) (exponent : Z).

(** [m * 2^e] with the factors of two of [m] moved to the exponent. *)
Fixpoint odd_mantissa (fuel : nat) (m e : Z) : Z * Z :=
  match fuel with
  | O => (m, e)
  | S fuel' => if Z.even m then odd_mantissa fuel' (m / 2) (e + 1) else (m, e)
  end.

(** The number of an integer; it is a double for every integer up to
    [2^53] in size. *)
Definition integer (n : Z) : Number :=
  if n =? 0 then Zero false
  else
    let '(m, e) := odd_mantissa (Z.to_nat (Z.log2 (Z.abs n))) (Z.abs n) 0 in
    Finite (n <? 0) (Z.to_pos m) e.

(** Truthiness of a number: zero and [NaN] are falsy. *)
Definition Number_truthy (x : Number) : bool :=
  match x with
  | NaN | Zero _ => false
  | _ => true
  end.

(** [b ^ e] for [0 <= e], and [1] otherwise. *)
Definition pow_part (b e : Z) : Z := b ^ Z.max e 0.

(** The mantissa and exponent of the double as the format stores them:
    the mantissa has 53 bits unless the exponent is the least one. *)
Definition stored (m e : Z) : Z * Z :=
  let shift := Z.max 0 (Z.min (52 - Z.log2 m) (e + 1074)) in
  (m * 2 ^ shift, e - shift).

(** The numbers that round to the double [M * 2^E] lie between the
    midpoints to its neighbours, and the midpoints are among them when [M]
    is even. In units of [2^(E-2)] the double is [4 * M]; its lower
    neighbour is half as far away when [M] is a power of two. *)
Definition lower (M E : Z) : Z :=
  4 * M - (if (M =? 2 ^ 52) && (-1074 <? E) then 1 else 2).
Definition upper (M : Z) : Z := 4 * M + 2.

(** The decimal [s * 10^q] of [k] digits that rounds to the double
    [M * 2^E] and is nearest to it, where [10^(n-1) <= M * 2^E < 10^n] and
    [q = n - k]; of two that are as near, the even one. Both sides of a
    comparison are multiplied by the powers that make them integers. *)
Definition nearest_decimal (M E n k : Z) : option (Z * Z) :=
  let q := n - k in
  let decimal c := c * pow_part 10 q * pow_part 2 (2 - E) in
  let binary x := x * pow_part 2 (E - 2) * pow_part 10 (- q) in
  let v := binary (4 * M) in
  let lo := binary (lower M E) in
  let hi := binary (upper M) in
  let rounds_here d :=
    if Z.even M then (lo <=? d) && (d <=? hi) else (lo <? d) && (d <? hi) in
  let c := v / decimal 1 in
  let below := rounds_here (decimal c) in
  let above := rounds_here (decimal (c + 1)) in
  let middle := decimal (2 * c + 1) in
  if below && (negb above || (2 * v <? middle) || (2 * v =? middle) && Z.even c)
  then Some (c, q)
  else if above then Some (c + 1, q)
  else None.

(** The least [n] from [n] on with [M * 2^E < 10^n]. *)
Fixpoint magnitude (fuel : nat) (M E n : Z) : Z :=
  match fuel with
  | O => n
  | S fuel' =>
      if M * pow_part 2 E * pow_part 10 (- n) <? pow_part 10 n * pow_part 2 (- E)
      then n else magnitude fuel' M E (n + 1)
  end.

(** The shortest decimal that rounds to the double: the first number of
    digits, from [k] on, at which there is one. Seventeen digits always
    tell a double from its neighbours. *)
Fixpoint shortest (fuel : nat) (M E n k : Z) : Z * Z :=
  match fuel with
  | O => (0, 0)
  | S fuel' =>
      match nearest_decimal M E n k with
      | Some decimal => decimal
      | None => shortest fuel' M E n (k + 1)
      end
  end.

Fixpoint strip_zeros (fuel : nat) (s q : Z) : Z * Z :=
  match fuel with
  | O => (s, q)
  | S fuel' =>
      if (s mod 10 =? 0) && (0 <? s) then strip_zeros fuel' (s / 10) (q + 1)
      else (s, q)
  end.

Definition zeros (n : Z) : jsstring := replicate (Z.to_nat n) 48.

(** [Number::toString] of the positive finite number [m * 2^e]: the digits
    of the shortest decimal [s * 10^q], laid out by the position [n] of the
    decimal point: as an integer, with a point, with leading zeros, or with
    an exponent from [1e21] on and below [1e-6]. *)
Definition positive_toString (m e : Z) : jsstring :=
  let '(M, E) := stored m e in
  let n0 := magnitude 4 M E ((Z.log2 M + E) * 30103 / 100000 - 1) in
  let '(s, q) := shortest 17 M E n0 1 in
  let '(s, q) := strip_zeros 20 s q in
  let ds := String_int s in
  let k := Z.of_nat (length ds) in
  let n := k + q in
  if (k <=? n) && (n <=? 21) then ds ++ zeros (n - k)
  else if (0 <? n) && (n <=? 21)
  then take (Z.to_nat n) ds ++ lit "." ++ drop (Z.to_nat n) ds
  else if (-6 <? n) && (n <=? 0) then lit "0." ++ zeros (- n) ++ ds
  else
    let e := n - 1 in
    let exponent :=
      (if e <? 0 then lit "-" else lit "+") ++ String_int (Z.abs e) in
    match ds with
    | [] => []
    | [d] => d :: lit "e" ++ exponent
    | d :: rest => d :: lit "." ++ rest ++ lit "e" ++ exponent
    end.

(** [String(x)] for a number [x]. *)
Definition Number_toString (x : Number) : jsstring :=
  match x with
  | NaN => lit "NaN"
  | Infinity false => lit "Infinity"
  | Infinity true => lit "-Infinity"
  | Zero _ => lit "0"
  | Finite negative m e =>
      (if negative then lit "-" else []) ++ positive_toString (Z.pos m) e
  end.

(** *** Values *)

(** The values that have a conversion to a string. An [Error] instance
    carries its [message], a string; every other value is kept with what
    [String(v)] needs. *)
Inductive JsValue : Type :=
  | VError (message : jsstring)
  | VUndefined
  | VNull
  | VBool (b : bool)
  | VNumber (x : Number)
  | VString (s : jsstring)
  | VObject (toString : jsstring).

(** [String(v)] *)
Definition String_value (v : JsValue) : jsstring :=
  match v with
  | VError message =>
      match message with
      | [] => lit "Error"
      | _ => lit "Error: " ++ message
      end
  | VUndefined => lit "undefined"
  | VNull => lit "null"
  | VBool true => lit "true"
  | VBool false => lit "false"
  | VNumber x => Number_toString x
  | VString s => s
  | VObject toString => toString
  end.

(** A property that may be absent, [null], or set. *)
Inductive Nullable (A : Type) : Type :=
  | undefined
  | null
  | defined (a : A).
Arguments undefined {A}.
Arguments null {A}.
Arguments defined {A} a.

(** [`${x}`] for a property that may be absent or [null]. *)
Definition String_nullable {A : Type} (render : A -> jsstring) (x : Nullable A)
    : jsstring :=
  match x with
  | undefined => lit "undefined"
  | null => lit "null"
  | defined a => render a
  end.

(** *** What is thrown

    A [throw] may carry any value. Besides the values above there are
    the ones the conversions fail on:
    - [NoString raised], a value that is not an [Error] and has no
      conversion to a string: [String(v)] throws [raised]. For an object
      without a prototype, [Object.create(null)], that is a [TypeError];
      an object with a [toString] of its own may throw anything.
    - [ErrorWith message], an [Error] whose [message] property has been set
      to something that need not be a string. *)
Inductive Thrown : Type :=
  | Value (v : JsValue)
  | NoString (raised : Thrown)
  | ErrorWith (message : JsValue).

Coercion Value : JsValue >-> Thrown.

(** The [TypeError] of the conversion of [Object.create(null)]. *)
Definition no_primitive : JsValue :=
  VError (lit "Cannot convert object to primitive value").

(** *** Calls that may throw

    The outcome of a call that returns or throws, and of a promise that
    fulfils or rejects. *)
Inductive Outcome (A : Type) : Type :=
  | Fulfilled (value : A)
  | Rejected (error : Thrown).
Arguments Fulfilled {A} value.
Arguments Rejected {A} error.

Definition bind {A B : Type} (m : Outcome A) (k : A -> Outcome B) : Outcome B :=
  match m with
  | Fulfilled a => k a
  | Rejected e => Rejected e
  end.

Notation "'do' x <- m ;; k" := (bind m (fun x => k))
  (at level 10, x name, m at level 99, k at level 200, only parsing).

End Js.

Import Js.

(** ** services/google-auth.ts *)

Module GoogleAuth.

Definition msg_auth : jsstring :=
  lit "Error: Authentication failed. Please check your Google OAuth credentials and refresh token.".
Definition msg_permission : jsstring :=
  lit "Error: Permission denied. Ensure the OAuth token has the required scopes (documents, drive).".
Definition msg_not_found : jsstring :=
  lit "Error: Resource not found. Please check the document or comment ID.".
Definition msg_rate_limit : jsstring :=
  lit "Error: Rate limit exceeded. Please wait before making more requests.".

Definition handleGoogleError (error : JsValue) : jsstring :=
  match error with
  | VError message =>
      if includes message (lit "401") || includes message (lit "invalid_grant")
      then msg_auth
      else if includes message (lit "403") then msg_permission
      else if includes message (lit "404") then msg_not_found
      else if includes message (lit "429") then msg_rate_limit
      else if includes message (lit "400")
      then lit "Error: Invalid request. " ++ message
      else lit "Error: " ++ message
  | _ => lit "Error: Unexpected error occurred: " ++ String_value error
  end.

(** [message.includes(...)] on a [message] that is not a string throws a
    [TypeError]; the texts are those of V8. *)
Definition includes_failure (message : JsValue) : JsValue :=
  match message with
  | VUndefined =>
      VError (lit "Cannot read properties of undefined (reading 'includes')")
  | VNull => VError (lit "Cannot read properties of null (reading 'includes')")
  | _ => VError (lit "message.includes is not a function")
  end.

(** The call [handleGoogleError(error)] on whatever was thrown. On a value
    with a conversion to a string it returns the message above. On the
    others it throws: on a value without a conversion, what [String(error)]
    throws; on an [Error] whose [message] is not a string, the [TypeError]
    of [message.includes]. *)
Definition handleGoogleError_call (error : Thrown) : Outcome jsstring :=
  match error with
  | Value v => Fulfilled (handleGoogleError v)
  | NoString raised => Rejected raised
  | ErrorWith (VString message) => Fulfilled (handleGoogleError (VError message))
  | ErrorWith message => Rejected (includes_failure message)
  end.

(** The classification as the specification words it: a table of
    (substrings, message) rows read top to bottom, the first row with a
    substring occurring in the text wins, no row gives the generic
    message. *)
Definition priority_table : list (list jsstring * (jsstring -> jsstring)) :=
  [ ([lit "401"; lit "invalid_grant"], fun _ => msg_auth);
    ([lit "403"], fun _ => msg_permission);
    ([lit "404"], fun _ => msg_not_found);
    ([lit "429"], fun _ => msg_rate_limit);
    ([lit "400"], fun text => lit "Error: Invalid request. " ++ text) ].

Fixpoint first_match (table : list (list jsstring * (jsstring -> jsstring)))
    (text : jsstring) : option (jsstring -> jsstring) :=
  match table with
  | [] => None
  | (patterns, render) :: rest =>
      if existsb (includes text) patterns then Some render
      else first_match rest text
  end.

Definition classify_by_priority (failure : JsValue) : jsstring :=
  match failure with
  | VError text =>
      match first_match priority_table text with
      | Some render => render text
      | None => lit "Error: " ++ text
      end
  | other => lit "Error: Unexpected error occurred: " ++ String_value other
  end.

End GoogleAuth.

(** ** Node's [Buffer]: base64 and UTF-8

    [decodeBase64] and [drive_get_file] go through [Buffer.from(s, "base64")],
    [buf.toString("utf-8")] and [buf.toString("base64")]. They are runtime
    primitives; this module gives them as functions on byte lists. *)

Module Buffer.

Definition is_byte (b : Z) : Prop := 0 <= b < 256.

(** The character of a 6-bit value in the standard alphabet. *)
Definition b64_char (v : Z) : Z :=
  if v <? 26 then v + 65
  else if v <? 52 then v + 71
  else if v <? 62 then v - 4
  else if v =? 62 then 43
  else 47.

(** The 6-bit value of a character; the decoder takes the standard and the
    URL-safe alphabet alike. *)
Definition b64_value (c : Z) : option Z :=
  if (65 <=? c) && (c <=? 90) then Some (c - 65)
  else if (97 <=? c) && (c <=? 122) then Some (c - 71)
  else if (48 <=? c) && (c <=? 57) then Some (c + 4)
  else if (c =? 43) || (c =? 45) then Some 62
  else if (c =? 47) || (c =? 95) then Some 63
  else None.

(** The decoder reads a code unit by its low byte, skips characters
    outside the alphabet and stops at the first padding character. *)
Fixpoint b64_sextets (s : jsstring) : list Z :=
  match s with
  | [] => []
  | c :: s' =>
      let c := c mod 256 in
      if c =? 61 then []
      else match b64_value c with
           | Some v => v :: b64_sextets s'
           | None => b64_sextets s'
           end
  end.

Fixpoint b64_bytes (vs : list Z) : list Z :=
  match vs with
  | v0 :: v1 :: v2 :: v3 :: rest =>
      (v0 * 4 + v1 / 16) :: (v1 mod 16 * 16 + v2 / 4) :: (v2 mod 4 * 64 + v3)
      :: b64_bytes rest
  | [v0; v1; v2] => [v0 * 4 + v1 / 16; v1 mod 16 * 16 + v2 / 4]
  | [v0; v1] => [v0 * 4 + v1 / 16]
  | _ => []
  end.

(** [Buffer.from(s, "base64")] *)
Definition from_base64 (s : jsstring) : list Z := b64_bytes (b64_sextets s).

(** [buf.toString("base64")]: standard alphabet with padding. *)
Fixpoint toString_base64 (bs : list Z) : jsstring :=
  match bs with
  | b0 :: b1 :: b2 :: rest =>
      b64_char (b0 / 4) :: b64_char (b0 mod 4 * 16 + b1 / 16)
      :: b64_char (b1 mod 16 * 4 + b2 / 64) :: b64_char (b2 mod 64)
      :: toString_base64 rest
  | [b0; b1] =>
      [b64_char (b0 / 4); b64_char (b0 mod 4 * 16 + b1 / 16);
       b64_char (b1 mod 16 * 4); 61]
  | [b0] => [b64_char (b0 / 4); b64_char (b0 mod 4 * 16); 61; 61]
  | [] => []
  end.

(** The code points that have a UTF-8 encoding. *)
Definition scalar_value (cp : Z) : Prop :=
  0 <= cp < 0xD800 \/ 0xE000 <= cp < 0x110000.

(** The code units of a code point. *)
Definition utf16_units (cp : Z) : jsstring :=
  if cp <? 0x10000 then [cp]
  else [0xD800 + (cp - 0x10000) / 0x400; 0xDC00 + (cp - 0x10000) mod 0x400].

Definition replacement : Z := 0xFFFD.

Definition between (lo hi b : Z) : bool := (lo <=? b) && (b <=? hi).

(** [buf.toString("utf-8")]: every ill-formed sequence is replaced by
    U+FFFD, one per maximal ill-formed prefix, and decoding resumes at the
    byte that broke the sequence. *)
Fixpoint toString_utf8 (bs : list Z) : jsstring :=
  match bs with
  | [] => []
  | b0 :: r0 =>
      if b0 <? 0x80 then b0 :: toString_utf8 r0
      else if between 0xC2 0xDF b0 then
        match r0 with
        | [] => [replacement]
        | b1 :: r1 =>
            if between 0x80 0xBF b1
            then ((b0 - 0xC0) * 64 + (b1 - 0x80)) :: toString_utf8 r1
            else replacement :: toString_utf8 r0
        end
      else if between 0xE0 0xEF b0 then
        match r0 with
        | [] => [replacement]
        | b1 :: r1 =>
            if between (if b0 =? 0xE0 then 0xA0 else 0x80)
                       (if b0 =? 0xED then 0x9F else 0xBF) b1
            then match r1 with
                 | [] => [replacement]
                 | b2 :: r2 =>
                     if between 0x80 0xBF b2
                     then ((b0 - 0xE0) * 4096 + (b1 - 0x80) * 64 + (b2 - 0x80))
                          :: toString_utf8 r2
                     else replacement :: toString_utf8 r1
                 end
            else replacement :: toString_utf8 r0
        end
      else if between 0xF0 0xF4 b0 then
        match r0 with
        | [] => [replacement]
        | b1 :: r1 =>
            if between (if b0 =? 0xF0 then 0x90 else 0x80)
                       (if b0 =? 0xF4 then 0x8F else 0xBF) b1
            then match r1 with
                 | [] => [replacement]
                 | b2 :: r2 =>
                     if between 0x80 0xBF b2
                     then match r2 with
                          | [] => [replacement]
                          | b3 :: r3 =>
                              if between 0x80 0xBF b3
                              then utf16_units
                                     ((b0 - 0xF0) * 262144 + (b1 - 0x80) * 4096
                                      + (b2 - 0x80) * 64 + (b3 - 0x80))
                                   ++ toString_utf8 r3
                              else replacement :: toString_utf8 r2
                          end
                     else replacement :: toString_utf8 r1
                 end
            else replacement :: toString_utf8 r0
        end
      else replacement :: toString_utf8 r0
  end.

(** The UTF-8 bytes of a code point. *)
Definition utf8_bytes (cp : Z) : list Z :=
  if cp <? 0x80 then [cp]
  else if cp <? 0x800 then [0xC0 + cp / 64; 0x80 + cp mod 64]
  else if cp <? 0x10000
  then [0xE0 + cp / 4096; 0x80 + cp / 64 mod 64; 0x80 + cp mod 64]
  else [0xF0 + cp / 262144; 0x80 + cp / 4096 mod 64; 0x80 + cp / 64 mod 64;
        0x80 + cp mod 64].

(** [Buffer.from(s, "utf-8")]: a surrogate pair is one code point, a lone
    surrogate is written as U+FFFD. *)
Fixpoint from_utf8 (s : jsstring) : list Z :=
  match s with
  | [] => []
  | u :: s' =>
      if between 0xD800 0xDBFF u then
        match s' with
        | [] => utf8_bytes replacement
        | v :: s'' =>
            if between 0xDC00 0xDFFF v
            then utf8_bytes (0x10000 + (u - 0xD800) * 0x400 + (v - 0xDC00))
                 ++ from_utf8 s''
            else utf8_bytes replacement ++ from_utf8 s'
        end
      else if between 0xDC00 0xDFFF u then utf8_bytes replacement ++ from_utf8 s'
      else utf8_bytes u ++ from_utf8 s'
  end.

(** A string is well formed when its code units are in range and its
    surrogates come in (high, low) pairs: the strings that have a UTF-8
    encoding, printable ASCII among them. *)
Fixpoint well_formed (s : jsstring) : bool :=
  match s with
  | [] => true
  | u :: s' =>
      if between 0xD800 0xDBFF u then
        match s' with
        | [] => false
        | v :: s'' => between 0xDC00 0xDFFF v && well_formed s''
        end
      else between 0 0xFFFF u && negb (between 0xDC00 0xDFFF u) && well_formed s'
  end.

End Buffer.

(** ** Tool invocations

    A handler is an [async] function whose body sits in one [try] block and
    whose [catch] clause answers with the classified error. A step that may
    throw (a client getter, an awaited remote call) is given to the model as
    its [Outcome]; the body is written in the error monad and
    [try_catch] closes it. The result is the [Outcome] of the promise that
    the handler returns. *)

Module Tool.

Definition CHARACTER_LIMIT : Z := 25000.

Inductive ResponseFormat : Type := MARKDOWN | JSON.

Inductive ContentItem : Type :=
  | TextItem (text : jsstring)
  | ResourceItem (uri mimeType blob : jsstring)
  | ImageItem (data mimeType : jsstring).

(** The object a handler returns; [structuredContent] is [None] when the
    object has no such field. *)
Record ToolResult (S : Type) : Type := {
  content : list ContentItem;
  structuredContent : option S
}.
Arguments content {S} _.
Arguments structuredContent {S} _.

(** [try { body } catch (error) { handler }] in an [async] function: the
    promise fulfils with what the body or the handler returns and rejects
    with what the handler throws. *)
Definition try_catch {S : Type} (body : Outcome (ToolResult S))
    (handler : Thrown -> Outcome (ToolResult S)) : Outcome (ToolResult S) :=
  match body with
  | Fulfilled result => Fulfilled result
  | Rejected error => handler error
  end.

(** [catch (error) { return { content: [{ type: "text", text:
    handleGoogleError(error) }] }; }] *)
Definition error_result {S : Type} (error : Thrown) : Outcome (ToolResult S) :=
  do text <- GoogleAuth.handleGoogleError_call error ;;
  Fulfilled {| content := [TextItem text]; structuredContent := None |}.

(** [a || b] on an optional string. *)
Definition or_else (a : option jsstring) (b : jsstring) : jsstring :=
  match a with
  | Some s => if truthy s then s else b
  | None => b
  end.

(** [array.sort(compareFn)]. The sort is stable: an element goes before
    the first element of the sorted rest that it does not compare greater
    than, so elements that compare equal keep their order. *)
Fixpoint sort_insert {A : Type} (compareFn : A -> A -> Z) (x : A)
    (sorted : list A) : list A :=
  match sorted with
  | [] => [x]
  | y :: rest =>
      if compareFn x y <=? 0 then x :: y :: rest
      else y :: sort_insert compareFn x rest
  end.

Definition Array_sort {A : Type} (compareFn : A -> A -> Z) (array : list A)
    : list A :=
  foldr (sort_insert compareFn) [] array.

(** *** [Promise.all]

    The promises settle one at a time, in an order the program does not
    choose. The aggregate keeps the array of values, filled by index, and
    the count of promises still pending; it fulfils with the array when the
    count reaches zero and rejects with the first rejection it sees. *)
Record AllState (A : Type) : Type := {
  all_values : list (option A);
  all_remaining : nat;
  all_settled : option (Outcome (list A))
}.
Arguments all_values {A} _.
Arguments all_remaining {A} _.
Arguments all_settled {A} _.

Definition all_init {A : Type} (n : nat) : AllState A :=
  {| all_values := replicate n None;
     all_remaining := n;
     all_settled := match n with O => Some (Fulfilled []) | S _ => None end |}.

(** The promise at index [i] settles. *)
Definition all_settle {A : Type} (promises : list (Outcome A))
    (st : AllState A) (i : nat) : AllState A :=
  match all_settled st with
  | Some _ => st
  | None =>
      match all_values st !! i, promises !! i with
      | Some None, Some (Fulfilled v) =>
          let values := <[i := Some v]> (all_values st) in
          let remaining := pred (all_remaining st) in
          {| all_values := values;
             all_remaining := remaining;
             all_settled :=
               match remaining with
               | O => Some (Fulfilled (omap id values))
               | S _ => None
               end |}
      | Some None, Some (Rejected e) =>
          {| all_values := all_values st;
             all_remaining := all_remaining st;
             all_settled := Some (Rejected e) |}
      | _, _ => st
      end
  end.

(** The aggregate after the promises settled in the given [order]; [None]
    while it is still pending. *)
Definition Promise_all {A : Type} (promises : list (Outcome A))
    (order : list nat) : option (Outcome (list A)) :=
  all_settled (foldl (all_settle promises) (all_init (length promises)) order).

End Tool.

Import Tool.

(** ** tools/gmail.ts *)

Module Gmail.

Definition decodeBase64 (data : jsstring) : jsstring :=
  Buffer.toString_utf8
    (Buffer.from_base64
       (replaceAll 95 (lit "/") (replaceAll 45 (lit "+") data))).

Record MessagePartBody : Type := { data : option jsstring }.

(** [gmail_v1.Schema$MessagePart], with the fields [extractBody] reads. *)
#[warnings="-register-all"] Inductive MessagePart : Type :=
  mkMessagePart (mimeType : option jsstring) (body : option MessagePartBody)
    (parts : option (list MessagePart)).

Definition mimeType (p : MessagePart) : option jsstring :=
  match p with mkMessagePart m _ _ => m end.
Definition body (p : MessagePart) : option MessagePartBody :=
  match p with mkMessagePart _ b _ => b end.
Definition parts (p : MessagePart) : option (list MessagePart) :=
  match p with mkMessagePart _ _ ps => ps end.

(** [part.body?.data] when it is truthy. *)
Definition body_data (p : MessagePart) : option jsstring :=
  match body p with
  | Some b =>
      match data b with
      | Some d => if truthy d then Some d else None
      | None => None
      end
  | None => None
  end.

(** [part.mimeType === mime] *)
Definition mime_is (mime : jsstring) (p : MessagePart) : bool :=
  match mimeType p with
  | Some m => streq m mime
  | None => false
  end.

(** The loop [for (const part of parts) if (part.mimeType === mime &&
    part.body?.data) return ...]: the data of the first such part. *)
Fixpoint first_data (mime : jsstring) (ps : list MessagePart) : option jsstring :=
  match ps with
  | [] => None
  | part :: rest =>
      match (if mime_is mime part then body_data part else None) with
      | Some d => Some d
      | None => first_data mime rest
      end
  end.

Definition stripHtml (html : jsstring) : jsstring :=
  trim (collapseSpaces false (removeTags O html)).

Fixpoint extractBody_part (payload : MessagePart) : jsstring :=
  match body_data payload with
  | Some d => decodeBase64 d
  | None =>
      match parts payload with
      | Some ps =>
          match first_data (lit "text/plain") ps with
          | Some d => decodeBase64 d
          | None =>
              match first_data (lit "text/html") ps with
              | Some d => stripHtml (decodeBase64 d)
              | None =>
                  (fix recurse (l : list MessagePart) : jsstring :=
                     match l with
                     | [] => []
                     | part :: rest =>
                         let nested := extractBody_part part in
                         if truthy nested then nested else recurse rest
                     end) ps
              end
          end
      | None => []
      end
  end.

Definition extractBody (payload : option MessagePart) : jsstring :=
  match payload with
  | None => []
  | Some p => extractBody_part p
  end.

(** The part itself followed by the parts below it, in part order. *)
Fixpoint all_parts (p : MessagePart) : list MessagePart :=
  p :: match parts p with
       | Some ps =>
           (fix below (l : list MessagePart) : list MessagePart :=
              match l with
              | [] => []
              | part :: rest => all_parts part ++ below rest
              end) ps
       | None => []
       end.

(** The child parts, none when [parts] is absent. *)
Definition children (p : MessagePart) : list MessagePart :=
  match parts p with Some ps => ps | None => [] end.

Definition has_data (mime : jsstring) (p : MessagePart) : bool :=
  mime_is mime p && bool_decide (is_Some (body_data p)).

(** The selection policy over the direct child parts. *)
Definition direct_policy (payload : MessagePart) : jsstring :=
  match body_data payload with
  | Some d => decodeBase64 d
  | None =>
      match find (has_data (lit "text/plain")) (children payload) with
      | Some part => decodeBase64 (default [] (body_data part))
      | None =>
          match find (has_data (lit "text/html")) (children payload) with
          | Some part => stripHtml (decodeBase64 (default [] (body_data part)))
          | None =>
              default []
                (head (List.filter truthy
                         (map extractBody_part (children payload))))
          end
      end
  end.

(** A multipart message whose first child holds the plain text one level
    down and whose second child is HTML. *)
Definition nested_plain_part : MessagePart :=
  mkMessagePart (Some (lit "text/plain"))
    (Some {| data := Some (lit "cGxhaW4=") |}) None.
Definition nested_plain_message : MessagePart :=
  mkMessagePart (Some (lit "multipart/mixed")) None
    (Some [ mkMessagePart (Some (lit "multipart/alternative")) None
              (Some [nested_plain_part]);
            mkMessagePart (Some (lit "text/html"))
              (Some {| data := Some (lit "PGI-aHRtbDwvYj4=") |}) None ]).

(** The encoding that [decodeBase64] undoes, as the specification words
    it: standard base64 of the UTF-8 bytes, then ['+'] replaced by ['-']
    and ['/'] by ['_']. *)
Definition encodeBase64Url (text : jsstring) : jsstring :=
  replaceAll 47 (lit "_")
    (replaceAll 43 (lit "-") (Buffer.toString_base64 (Buffer.from_utf8 text))).

(** *** Listing threads *)

Record ThreadData : Type := {
  thread_id : jsstring;
  thread_subject : jsstring;
  thread_from : jsstring;
  thread_date : jsstring;
  thread_snippet : jsstring;
  thread_messageCount : Z
}.

(** The markdown branch of [gmail_list_threads]; [next_page_token] is
    [response.data.nextPageToken || null]. *)
Definition list_threads_markdown (threads : list ThreadData)
    (next_page_token : option jsstring) : jsstring :=
  match threads with
  | [] => lit "No threads found."
  | _ :: _ =>
      let lines :=
        [ lit "# Gmail Threads";
          [];
          lit "Found " ++ String_int (Z.of_nat (length threads)) ++ lit " thread(s)"
          ++ (if truthy (default [] next_page_token)
              then lit " (more available)" else [])
          ++ lit ".";
          [] ] in
      let lines :=
        foldl (fun lines thread =>
                 lines ++
                 [ lit "### " ++ thread_subject thread;
                   lit "- **From**: " ++ thread_from thread;
                   lit "- **Messages**: " ++ String_int (thread_messageCount thread);
                   lit "- **Last activity**: " ++ thread_date thread;
                   lit "- **ID**: `" ++ thread_id thread ++ lit "`";
                   lit "- **Preview**: " ++ thread_snippet thread;
                   [] ])
              lines threads in
      let lines :=
        if truthy (default [] next_page_token)
        then lines ++ [lit "*Use page_token=" ++ dq ++ default [] next_page_token
                       ++ dq ++ lit " to load more threads.*"]
        else lines in
      join nl lines
  end.

(** *** Listing messages and threads *)

Record Header : Type := {
  header_name : option jsstring;
  header_value : option jsstring
}.

Section Headers.

(** [String.prototype.toLowerCase], a Unicode case mapping, is taken as
    given. *)
Variable toLowerCase : jsstring -> jsstring.

Definition getHeader (headers : option (list Header)) (name : jsstring)
    : option jsstring :=
  match headers with
  | None => None
  | Some hs =>
      match find (fun h => match header_name h with
                           | Some n => streq (toLowerCase n) (toLowerCase name)
                           | None => false
                           end) hs with
      | Some h => header_value h
      | None => None
      end
  end.

(** An entry of [response.data.messages]. *)
Record MessageRef : Type := {
  ref_id : option jsstring;
  ref_threadId : option jsstring
}.

(** What [gmail.users.messages.get] answers, as far as it is read;
    [detail_headers] is [detail.data.payload?.headers]. *)
Record MessageDetail : Type := {
  detail_headers : option (list Header);
  detail_snippet : option jsstring;
  detail_labelIds : option (list jsstring)
}.

Record MessageData : Type := {
  msg_id : jsstring;
  msg_threadId : jsstring;
  msg_from : option jsstring;
  msg_to : option jsstring;
  msg_subject : option jsstring;
  msg_date : option jsstring;
  msg_snippet : jsstring;
  msg_labels : list jsstring
}.

(** The object the callback of [messageIds.map] returns. *)
Definition message_summary (msg : MessageRef) (detail : MessageDetail)
    : MessageData :=
  let headers := detail_headers detail in
  {| msg_id := or_else (ref_id msg) [];
     msg_threadId := or_else (ref_threadId msg) [];
     msg_from := getHeader headers (lit "From");
     msg_to := getHeader headers (lit "To");
     msg_subject := getHeader headers (lit "Subject");
     msg_date := getHeader headers (lit "Date");
     msg_snippet := or_else (detail_snippet detail) [];
     msg_labels := default [] (detail_labelIds detail) |}.

(** [await Promise.all(messageIds.map(async (msg) => ...))]; [details i] is
    the outcome of the detail call for the message at index [i]. *)
Definition list_messages_details (messageIds : list MessageRef)
    (details : nat -> Outcome MessageDetail) (order : list nat)
    : option (Outcome (list MessageData)) :=
  Promise_all
    (imap (fun i msg =>
             do detail <- details i ;; Fulfilled (message_summary msg detail))
          messageIds)
    order.

(** An entry of [response.data.threads]. *)
Record ThreadRef : Type := {
  tref_id : option jsstring;
  tref_snippet : option jsstring
}.

(** What [gmail.users.threads.get] answers: the messages of the thread,
    each with its [payload?.headers]. *)
Record ThreadDetail : Type := {
  detail_messages : option (list (option (list Header)))
}.

(** The object the callback of [threadIds.map] returns. *)
Definition thread_summary (thread : ThreadRef) (detail : ThreadDetail)
    : ThreadData :=
  let messages := detail_messages detail in
  let firstMessage := messages ≫= head in
  let lastMessage := messages ≫= last in
  {| thread_id := or_else (tref_id thread) [];
     thread_subject :=
       or_else (getHeader (mjoin firstMessage) (lit "Subject")) (lit "(no subject)");
     thread_from :=
       or_else (getHeader (mjoin firstMessage) (lit "From")) (lit "Unknown");
     thread_date := or_else (getHeader (mjoin lastMessage) (lit "Date")) [];
     thread_snippet := or_else (tref_snippet thread) [];
     thread_messageCount :=
       match messages with
       | Some ms => Z.of_nat (length ms)
       | None => 0
       end |}.

Definition list_threads_details (threadIds : list ThreadRef)
    (details : nat -> Outcome ThreadDetail) (order : list nat)
    : option (Outcome (list ThreadData)) :=
  Promise_all
    (imap (fun i thread =>
             do detail <- details i ;; Fulfilled (thread_summary thread detail))
          threadIds)
    order.

End Headers.

(** The identifiers and the snippets of a settled message listing. *)
Definition msg_ids_snippets (result : option (Outcome (list MessageData)))
    : option (list (jsstring * jsstring)) :=
  match result with
  | Some (Fulfilled messages) =>
      Some (map (fun m => (msg_id m, msg_snippet m)) messages)
  | _ => None
  end.

(** *** Listing labels *)

(** An entry of [response.data.labels]. *)
Record Label : Type := {
  api_id : option jsstring;
  api_name : option jsstring;
  api_type : option jsstring
}.

Record LabelData : Type := {
  label_id : jsstring;
  label_name : jsstring;
  label_type : jsstring
}.

Definition label_data (label : Label) : LabelData :=
  {| label_id := or_else (api_id label) [];
     label_name := or_else (api_name label) [];
     label_type := or_else (api_type label) (lit "user") |}.

Definition is_system (l : LabelData) : bool := streq (label_type l) (lit "system").

Section Labels.

(** [String.prototype.localeCompare], the collation of the host's locale,
    is taken as given. *)
Variable localeCompare : jsstring -> jsstring -> Z.

(** The comparison function handed to [labels.sort]. *)
Definition compare_labels (a b : LabelData) : Z :=
  if is_system a && negb (is_system b) then -1
  else if negb (is_system a) && is_system b then 1
  else localeCompare (label_name a) (label_name b).

(** [a] may stand before [b] in the sorted array. *)
Definition label_before (a b : LabelData) : Prop := compare_labels a b <= 0.

(** The names of [a] and [b] are in the order of the collation. *)
Definition by_name (a b : LabelData) : Prop :=
  localeCompare (label_name a) (label_name b) <= 0.

(** The [labels] of the output: mapped from the response, then sorted. *)
Definition sorted_labels (labels : list Label) : list LabelData :=
  Array_sort compare_labels (map label_data labels).

End Labels.

(** A comparison of strings by code units, one possible collation. *)
Fixpoint codeUnitCompare (a b : jsstring) : Z :=
  match a, b with
  | [], [] => 0
  | [], _ :: _ => -1
  | _ :: _, [] => 1
  | x :: a', y :: b' =>
      if x <? y then -1 else if y <? x then 1 else codeUnitCompare a' b'
  end.

(** A thread whose preview is 25,000 letters. *)
Definition long_thread : ThreadData :=
  {| thread_id := lit "t1";
     thread_subject := lit "s";
     thread_from := lit "f";
     thread_date := lit "d";
     thread_snippet := replicate (Z.to_nat 25000) 97;
     thread_messageCount := 1 |}.

End Gmail.

(** ** tools/docs.ts *)

Module Docs.

Record TextRun : Type := { content : option jsstring }.
Record ParagraphElement : Type := { textRun : option TextRun }.
Record Paragraph : Type := { elements : option (list ParagraphElement) }.

(** A block of the document body. A table holds rows of cells, each cell
    a list of blocks again. *)
#[warnings="-register-all"] Inductive StructuralElement : Type :=
  mkStructuralElement (paragraph : option Paragraph) (table : option Table)
with Table : Type :=
  mkTable (tableRows : list (list (list StructuralElement))).

Definition paragraph (e : StructuralElement) : option Paragraph :=
  match e with mkStructuralElement p _ => p end.
Definition table (e : StructuralElement) : option Table :=
  match e with mkStructuralElement _ t => t end.

Record Body : Type := { body_content : option (list StructuralElement) }.

(** The inner loop: the runs of one paragraph pushed onto [textParts]. *)
Fixpoint push_runs (textParts : list jsstring) (elems : list ParagraphElement)
    : list jsstring :=
  match elems with
  | [] => textParts
  | elem :: rest =>
      match textRun elem with
      | Some run =>
          match content run with
          | Some text =>
              if truthy text then push_runs (textParts ++ [text]) rest
              else push_runs textParts rest
          | None => push_runs textParts rest
          end
      | None => push_runs textParts rest
      end
  end.

(** The outer loop over the blocks. *)
Fixpoint push_elements (textParts : list jsstring)
    (blocks : list StructuralElement) : list jsstring :=
  match blocks with
  | [] => textParts
  | element :: rest =>
      let after_paragraph :=
        match paragraph element with
        | Some p =>
            match elements p with
            | Some elems => push_runs textParts elems
            | None => textParts
            end
        | None => textParts
        end in
      let after_table :=
        match table element with
        | Some _ => after_paragraph ++ [lit "[TABLE]"]
        | None => after_paragraph
        end in
      push_elements after_table rest
  end.

Definition extractTextFromBody (body : option Body) : jsstring :=
  match body with
  | Some b =>
      match body_content b with
      | Some blocks => join [] (push_elements [] blocks)
      | None => []
      end
  | None => []
  end.

(** The flattening as the specification words it: the literal text of a
    run, the runs of a paragraph in order, the marker for a table. *)
Definition run_text (elem : ParagraphElement) : jsstring :=
  match textRun elem with
  | Some run => default [] (content run)
  | None => []
  end.

Definition paragraph_text (p : Paragraph) : jsstring :=
  concat (map run_text (default [] (elements p))).

Definition block_text (e : StructuralElement) : jsstring :=
  match paragraph e with Some p => paragraph_text p | None => [] end
  ++ match table e with Some _ => lit "[TABLE]" | None => [] end.

Definition flatten_blocks (blocks : list StructuralElement) : jsstring :=
  concat (map block_text blocks).

Definition table_block (t : Table) : StructuralElement :=
  mkStructuralElement None (Some t).

(** The fields of [docs_v1.Schema$Document] that [docs_get_document] reads. *)
Record Document : Type := {
  documentId : option jsstring;
  title : option jsstring;
  body : option Body;
  revisionId : option jsstring
}.

Record GetDocumentOutput : Type := {
  out_documentId : jsstring;
  out_title : jsstring;
  out_textContent : jsstring;
  out_revisionId : option jsstring
}.

Record GetDocumentInput : Type := {
  document_id : jsstring;
  response_format : ResponseFormat
}.

(** The heading lines that precede the content in the markdown rendering. *)
Definition document_heading (output : GetDocumentOutput) : list jsstring :=
  [ lit "# " ++ out_title output;
    [];
    lit "**Document ID**: " ++ out_documentId output;
    lit "**Revision ID**: " ++ or_else (out_revisionId output) (lit "N/A");
    [];
    lit "## Content";
    [] ].

Definition content_truncated : jsstring :=
  nl ++ nl ++ lit "[Content truncated...]".

Definition document_markdown (output : GetDocumentOutput) : jsstring :=
  let textContent := out_textContent output in
  join nl
    (document_heading output ++
     [ if CHARACTER_LIMIT <? jslength textContent
       then substring0 textContent CHARACTER_LIMIT ++ content_truncated
       else textContent ]).

(** The rendering with the content left as it is. *)
Definition document_markdown_natural (output : GetDocumentOutput) : jsstring :=
  join nl (document_heading output ++ [out_textContent output]).

(** A document whose text is 25,001 letters. *)
Definition long_document : GetDocumentOutput :=
  {| out_documentId := lit "doc";
     out_title := lit "T";
     out_textContent := replicate (Z.to_nat 25001) 97;
     out_revisionId := None |}.

(** The handler of [docs_get_document]. [client] is the outcome of
    [getDocsClient()], [response] that of [docs.documents.get], and
    [stringify] stands for [JSON.stringify(output, null, 2)]. *)
Definition docs_get_document (stringify : GetDocumentOutput -> jsstring)
    (params : GetDocumentInput) (client : Outcome unit)
    (response : Outcome Document) : Outcome (ToolResult GetDocumentOutput) :=
  try_catch
    (do _ <- client ;;
     do doc <- response ;;
     let textContent := extractTextFromBody (body doc) in
     let output :=
       {| out_documentId :=
            or_else (documentId doc) (document_id params);
          out_title := or_else (title doc) (lit "Untitled");
          out_textContent := textContent;
          out_revisionId := revisionId doc |} in
     let textOutput :=
       match response_format params with
       | MARKDOWN => document_markdown output
       | JSON => stringify output
       end in
     Fulfilled {| Tool.content := [TextItem textOutput];
                  structuredContent := Some output |})
    error_result.

End Docs.

(** ** tools/sheets.ts *)

Module Sheets.

(** A cell of a value grid: [string | number | boolean | null]. *)
Inductive Cell : Type :=
  | CellString (s : jsstring)
  | CellNumber (x : Number)
  | CellBoolean (b : bool)
  | CellNull.

(** The cell as a value of the language. *)
Definition cell_value (cell : Cell) : JsValue :=
  match cell with
  | CellString s => VString s
  | CellNumber x => VNumber x
  | CellBoolean b => VBool b
  | CellNull => VNull
  end.

(** [cell === null || cell === undefined ? "" : String(cell)] *)
Definition cell_text (cell : Cell) : jsstring :=
  match cell with
  | CellNull => []
  | _ => String_value (cell_value cell)
  end.

Definition formatValuesAsMarkdown (values : option (list (list Cell)))
    (range : jsstring) : jsstring :=
  match values with
  | None | Some [] => lit "No data found in range: " ++ range
  | Some ((row0 :: _) as rows) =>
      let lines := [lit "## Data from " ++ range; []] in
      let headers :=
        imap (fun i _ => lit "Col " ++ String_int (Z.of_nat i + 1)) row0 in
      let lines := lines ++ [lit "| " ++ join (lit " | ") headers ++ lit " |"] in
      let lines :=
        lines ++ [lit "| " ++ join (lit " | ") (map (fun _ => lit "---") headers)
                  ++ lit " |"] in
      let lines :=
        foldl (fun lines row =>
                 let cells := map cell_text row in
                 lines ++ [lit "| " ++ join (lit " | ") cells ++ lit " |"])
              lines rows in
      join nl lines
  end.

(** A line of a markdown table. *)
Definition table_line (cells : list jsstring) : jsstring :=
  lit "| " ++ join (lit " | ") cells ++ lit " |".

(** A cell as the specification words it: stringified, and a null cell as
    the empty string. The string of a text is the text, that of a number
    its notation in the language, that of a boolean [true] or [false]. *)
Definition stringified (cell : Cell) : jsstring :=
  match cell with
  | CellString s => s
  | CellNumber x => Number_toString x
  | CellBoolean b => if b then lit "true" else lit "false"
  | CellNull => []
  end.

(** The table as the specification words it: the heading, the header
    cells [Col 1], [Col 2], ... as many as the first row has cells, the
    separator line, one line per row of the grid with its cells
    stringified. *)
Definition markdown_table (rows : list (list Cell)) (range : jsstring) : jsstring :=
  let columns := length (default [] (head rows)) in
  join nl
    ([ lit "## Data from " ++ range;
       [];
       table_line (map (fun k => lit "Col " ++ String_int (Z.of_nat k))
                       (seq 1 columns));
       table_line (replicate columns (lit "---")) ]
     ++ map (fun row => table_line (map stringified row)) rows).

Definition data_truncated : jsstring := nl ++ nl ++ lit "[Data truncated...]".

(** The markdown branch of [sheets_get_values]. *)
Definition get_values_markdown (values : list (list Cell)) (range : jsstring)
    : jsstring :=
  let textOutput := formatValuesAsMarkdown (Some values) range in
  if CHARACTER_LIMIT <? jslength textOutput
  then substring0 textOutput CHARACTER_LIMIT ++ data_truncated
  else textOutput.

Record ValueRange : Type := {
  vr_range : option jsstring;
  vr_majorDimension : option jsstring;
  vr_values : list (list Cell)
}.

(** The rendering of [sheets_batch_get_values] before the length check. *)
Definition batch_natural (valueRanges : list ValueRange) : jsstring :=
  let rangeOutputs :=
    map (fun vr => formatValuesAsMarkdown (Some (vr_values vr))
                     (or_else (vr_range vr) (lit "Unknown")))
        valueRanges in
  join (nl ++ nl ++ lit "---" ++ nl ++ nl) rangeOutputs.

(** The markdown branch of [sheets_batch_get_values]. *)
Definition batch_get_values_markdown (valueRanges : list ValueRange) : jsstring :=
  let textOutput := batch_natural valueRanges in
  if CHARACTER_LIMIT <? jslength textOutput
  then substring0 textOutput CHARACTER_LIMIT ++ data_truncated
  else textOutput.

(** A grid of one cell that holds 25,000 letters. *)
Definition long_grid : list (list Cell) :=
  [[CellString (replicate (Z.to_nat 25000) 97)]].

End Sheets.

(** ** tools/drive.ts *)

Module Drive.

(** The values the schema allows for [mime_type]. *)
Inductive MimeTypeFilter : Type :=
  | all | documents | spreadsheets | presentations | folders.

Definition mime_type_key (m : MimeTypeFilter) : jsstring :=
  match m with
  | all => lit "all"
  | documents => lit "documents"
  | spreadsheets => lit "spreadsheets"
  | presentations => lit "presentations"
  | folders => lit "folders"
  end.

Definition MIME_TYPE_MAP : list (jsstring * jsstring) :=
  [ (lit "documents", lit "application/vnd.google-apps.document");
    (lit "spreadsheets", lit "application/vnd.google-apps.spreadsheet");
    (lit "presentations", lit "application/vnd.google-apps.presentation");
    (lit "folders", lit "application/vnd.google-apps.folder") ].

(** [record[key]] *)
Fixpoint lookup_key (record : list (jsstring * jsstring)) (key : jsstring)
    : option jsstring :=
  match record with
  | [] => None
  | (k, v) :: rest => if streq k key then Some v else lookup_key rest key
  end.

(** [query.replace(/'/g, "\\'")]: a backslash before every quote. *)
Definition escape_quotes (query : jsstring) : jsstring :=
  replaceAll 39 (lit "\'") query.

(** The [q] that [drive_search_files] sends. *)
Definition search_query (query : jsstring) (mime_type : MimeTypeFilter) : jsstring :=
  let q := lit "trashed = false and fullText contains '"
           ++ escape_quotes query ++ lit "'" in
  if negb (streq (mime_type_key mime_type) (lit "all")) then
    match lookup_key MIME_TYPE_MAP (mime_type_key mime_type) with
    | Some mimeType =>
        if truthy mimeType
        then q ++ lit " and mimeType = '" ++ mimeType ++ lit "'"
        else q
    | None => q
    end
  else q.

(** How a quoted string of a search expression is read, from the code
    unit after its opening quote: a backslash takes the next code unit
    with it, and the first quote that is not taken that way closes the
    string. The result is the text between the quotes and what follows
    the closing quote. *)
Fixpoint read_quoted (s : jsstring) : option (jsstring * jsstring) :=
  match s with
  | [] => None
  | c :: s' =>
      if c =? 39 then Some ([], s')
      else if c =? 92 then
        match s' with
        | [] => None
        | d :: s'' =>
            match read_quoted s'' with
            | Some (text, rest) => Some (c :: d :: text, rest)
            | None => None
            end
        end
      else
        match read_quoted s' with
        | Some (text, rest) => Some (c :: text, rest)
        | None => None
        end
  end.

(** The text of the search expression after the opening quote of the
    [fullText contains] operand. *)
Definition after_opening_quote (q : jsstring) : jsstring :=
  drop (length (lit "trashed = false and fullText contains '")) q.

(** *** drive_get_file *)

Record FileMetadata : Type := {
  md_mimeType : option jsstring;
  md_name : option jsstring;
  md_size : option jsstring
}.

(** [formatFileSize] on a size below 1024: the unit is [B] and the size is
    printed with one decimal. *)
Definition formatFileSize_small (bytes : Z) : jsstring :=
  if bytes =? 0 then lit "0 B" else String_int bytes ++ lit ".0 B".

(** The handler of [drive_get_file]. [client] is the outcome of
    [getDriveClient()], [metadata] that of the first [drive.files.get],
    [exported] and [media] those of [drive.files.export] and of the
    download, whichever the handler comes to await, as the bytes
    received. [formatFileSize] works on floating-point numbers and is
    taken as given. The handler sets no [structuredContent]. *)
Definition drive_get_file (formatFileSize : Z -> jsstring)
    (client : Outcome unit) (metadata : Outcome FileMetadata)
    (exported media : Outcome (list Z)) : Outcome (ToolResult unit) :=
  try_catch
    (do _ <- client ;;
     do metadata <- metadata ;;
     let mimeType := or_else (md_mimeType metadata) (lit "application/octet-stream") in
     let fileName := or_else (md_name metadata) (lit "file") in
     let isGoogleWorkspaceFile :=
       startsWith mimeType (lit "application/vnd.google-apps.") in
     do downloaded <-
       (if isGoogleWorkspaceFile
        then (do data <- exported ;; Fulfilled (data, lit "application/pdf"))
        else (do data <- media ;; Fulfilled (data, mimeType))) ;;
     let fileContent := fst downloaded in
     let finalMimeType := snd downloaded in
     let base64Content := Buffer.toString_base64 fileContent in
     let summary :=
       lit "File: " ++ fileName ++ nl ++ lit "Type: " ++ finalMimeType ++ nl
       ++ lit "Size: " ++ formatFileSize (Z.of_nat (length fileContent)) in
     if streq finalMimeType (lit "application/pdf") then
       Fulfilled
         {| content :=
              [ TextItem summary;
                ResourceItem
                  (lit "data:" ++ finalMimeType ++ lit ";base64," ++ base64Content)
                  finalMimeType base64Content ];
            structuredContent := None |}
     else if startsWith finalMimeType (lit "image/") then
       Fulfilled
         {| content := [TextItem summary; ImageItem base64Content finalMimeType];
            structuredContent := None |}
     else
       let textContent := Buffer.toString_utf8 fileContent in
       Fulfilled
         {| content :=
              [ TextItem (summary ++ nl ++ nl ++ lit "---" ++ nl ++ nl
                          ++ textContent) ];
            structuredContent := None |})
    error_result.

(** A PDF of four bytes. *)
Definition small_pdf : FileMetadata :=
  {| md_mimeType := Some (lit "application/pdf");
     md_name := Some (lit "a.pdf");
     md_size := Some (lit "4") |}.

End Drive.

(** ** services/google-auth.ts: the client handles *)

Module AuthState.

(** [process.env], as far as it is read. *)
Record Env : Type := {
  GOOGLE_CLIENT_ID : option jsstring;
  GOOGLE_CLIENT_SECRET : option jsstring;
  GOOGLE_REFRESH_TOKEN : option jsstring
}.

Record OAuth2Client : Type := {
  clientId : jsstring;
  clientSecret : jsstring;
  refresh_token : option jsstring
}.

(** What [google.docs({ version, auth })] and its siblings build. *)
Record ApiClient : Type := {
  version : jsstring;
  auth : OAuth2Client
}.

(** The four module-level variables; [None] is [null]. *)
Record Clients : Type := {
  oauth2Client : option OAuth2Client;
  docsClient : option ApiClient;
  driveClient : option ApiClient;
  sheetsClient : option ApiClient
}.

(** The state when the module is loaded. *)
Definition unset : Clients :=
  {| oauth2Client := None; docsClient := None;
     driveClient := None; sheetsClient := None |}.

Definition missing_variables : jsstring :=
  lit "Missing required environment variables: GOOGLE_CLIENT_ID, GOOGLE_CLIENT_SECRET, GOOGLE_REFRESH_TOKEN".

Definition not_initialized : jsstring :=
  lit "Google auth not initialized. Call initializeGoogleAuth() first.".

(** [!value] for a variable of the environment. *)
Definition absent (value : option jsstring) : bool :=
  negb (truthy (default [] value)).

(** [initializeGoogleAuth()]: the outcome and the state it leaves. *)
Definition initializeGoogleAuth (env : Env) (st : Clients)
    : Outcome unit * Clients :=
  if absent (GOOGLE_CLIENT_ID env) || absent (GOOGLE_CLIENT_SECRET env)
     || absent (GOOGLE_REFRESH_TOKEN env)
  then (Rejected (VError missing_variables), st)
  else
    let created :=
      {| clientId := default [] (GOOGLE_CLIENT_ID env);
         clientSecret := default [] (GOOGLE_CLIENT_SECRET env);
         refresh_token := None |} in
    let client :=
      {| clientId := clientId created;
         clientSecret := clientSecret created;
         refresh_token := GOOGLE_REFRESH_TOKEN env |} in
    (Fulfilled tt,
     {| oauth2Client := Some client;
        docsClient := Some {| version := lit "v1"; auth := client |};
        driveClient := Some {| version := lit "v3"; auth := client |};
        sheetsClient := Some {| version := lit "v4"; auth := client |} |}).

Definition getDocsClient (st : Clients) : Outcome ApiClient :=
  match docsClient st with
  | None => Rejected (VError not_initialized)
  | Some client => Fulfilled client
  end.

Definition getDriveClient (st : Clients) : Outcome ApiClient :=
  match driveClient st with
  | None => Rejected (VError not_initialized)
  | Some client => Fulfilled client
  end.

Definition getSheetsClient (st : Clients) : Outcome ApiClient :=
  match sheetsClient st with
  | None => Rejected (VError not_initialized)
  | Some client => Fulfilled client
  end.

(** *** index.ts *)

(** How [main] ends: it has made the process exit with a status, or it
    has returned with the server connected; the process then stays alive
    and serves requests until the transport closes. [stderr] holds the
    argument lists of the calls of [console.error], in order. *)
Inductive Process : Type :=
  | Exited (status : Z) (stderr : list (list Thrown))
  | Running (st : Clients) (stderr : list (list Thrown)).

(** [main().catch(...)], from the state of the freshly loaded module;
    [connect] is the outcome of [server.connect(transport)]. What the
    [catch] clause of [main] throws itself goes to the handler of
    [main().catch]. *)
Definition main (env : Env) (connect : Outcome unit) : Process :=
  match initializeGoogleAuth env unset with
  | (Rejected (Value error), _) =>
      Exited 1
        [[ Value (VString (lit "ERROR:"));
           Value (VString (match error with
                           | VError message => message
                           | _ => String_value error
                           end)) ]]
  | (Rejected (ErrorWith message), _) =>
      Exited 1 [[Value (VString (lit "ERROR:")); Value message]]
  | (Rejected (NoString raised), _) =>
      Exited 1 [[Value (VString (lit "Server error:")); raised]]
  | (Fulfilled _, st) =>
      match connect with
      | Fulfilled _ =>
          Running st
            [[Value (VString (lit "Google Workspace MCP server running via stdio"))]]
      | Rejected error =>
          Exited 1 [[Value (VString (lit "Server error:")); error]]
      end
  end.

End AuthState.

(** ** tools/docs.ts: creating a document *)

Module DocsCreate.

Record CreateDocumentInput : Type := {
  title : jsstring;
  body_content : option jsstring
}.

(** [createResponse.data], as far as it is read. *)
Record CreateResponse : Type := {
  documentId : option jsstring;
  response_title : option jsstring;
  revisionId : option jsstring
}.

Record CreateDocumentOutput : Type := {
  out_documentId : jsstring;
  out_title : jsstring;
  out_revisionId : option jsstring
}.

Definition no_document_id : jsstring :=
  lit "Failed to create document: no document ID returned".

(** The handler of [docs_create_document]. [client] is the outcome of
    [getDocsClient()], [created] that of [docs.documents.create] and
    [inserted] that of [docs.documents.batchUpdate], which the handler
    awaits only when it has a body to insert. *)
Definition docs_create_document (params : CreateDocumentInput)
    (client : Outcome unit) (created : Outcome CreateResponse)
    (inserted : Outcome unit) : Outcome (ToolResult CreateDocumentOutput) :=
  try_catch
    (do _ <- client ;;
     do createResponse <- created ;;
     do documentId <-
       (match documentId createResponse with
        | Some id => if truthy id then Fulfilled id
                     else Rejected (VError no_document_id)
        | None => Rejected (VError no_document_id)
        end) ;;
     do _ <-
       (if truthy (default [] (body_content params)) then inserted
        else Fulfilled tt) ;;
     let output :=
       {| out_documentId := documentId;
          out_title := or_else (response_title createResponse) (title params);
          out_revisionId := revisionId createResponse |} in
     Fulfilled
       {| content :=
            [ TextItem (lit "Document created successfully." ++ nl ++ nl
                        ++ lit "**Document ID**: " ++ out_documentId output ++ nl
                        ++ lit "**Title**: " ++ out_title output) ];
          structuredContent := Some output |})
    error_result.

End DocsCreate.

(** ** tools/gmail.ts: the handler of gmail_list_messages *)

Module GmailList.

Definition formatMessageForMarkdown (msg : Gmail.MessageData) : jsstring :=
  let lines :=
    [ lit "### " ++ or_else (Gmail.msg_subject msg) (lit "(no subject)");
      lit "- **From**: " ++ or_else (Gmail.msg_from msg) (lit "Unknown");
      lit "- **To**: " ++ or_else (Gmail.msg_to msg) (lit "Unknown");
      lit "- **Date**: " ++ or_else (Gmail.msg_date msg) (lit "Unknown");
      lit "- **ID**: `" ++ Gmail.msg_id msg ++ lit "`" ] in
  let lines :=
    match Gmail.msg_labels msg with
    | [] => lines
    | _ :: _ =>
        lines ++ [lit "- **Labels**: " ++ join (lit ", ") (Gmail.msg_labels msg)]
    end in
  let lines :=
    if truthy (Gmail.msg_snippet msg)
    then lines ++ [lit "- **Preview**: " ++ Gmail.msg_snippet msg]
    else lines in
  join nl lines.

Record ListMessagesInput : Type := {
  query : option jsstring;
  max_results : Z;
  label_ids : option (list jsstring);
  page_token : option jsstring;
  response_format : ResponseFormat
}.

(** The argument of [gmail.users.messages.list]; an absent property is
    [None]. *)
Record ListParams : Type := {
  userId : jsstring;
  maxResults : Z;
  q : option jsstring;
  labelIds : option (list jsstring);
  pageToken : option jsstring
}.

(** [value] when it is a non-empty string, for a property that is set
    under [if (value)]. *)
Definition if_truthy (value : option jsstring) : option jsstring :=
  match value with
  | Some s => if truthy s then Some s else None
  | None => None
  end.

Definition list_params (params : ListMessagesInput) : ListParams :=
  {| userId := lit "me";
     maxResults := max_results params;
     q := if_truthy (query params);
     labelIds :=
       match label_ids params with
       | Some (l :: ls) => Some (l :: ls)
       | _ => None
       end;
     pageToken := if_truthy (page_token params) |}.

(** [response.data] of the list call. *)
Record ListResponse : Type := {
  messages : option (list Gmail.MessageRef);
  nextPageToken : option jsstring
}.

Record ListMessagesOutput : Type := {
  out_messages : list Gmail.MessageData;
  result_count : Z;
  next_page_token : option jsstring
}.

(** The markdown branch of the handler. *)
Definition list_messages_markdown (params : ListMessagesInput)
    (output : ListMessagesOutput) : jsstring :=
  match out_messages output with
  | [] =>
      if truthy (default [] (query params))
      then lit "No messages found matching " ++ dq ++ default [] (query params)
           ++ dq ++ lit "."
      else lit "No messages found."
  | _ :: _ =>
      let lines :=
        [ lit "# Gmail Messages";
          [];
          lit "Found " ++ String_int (Z.of_nat (length (out_messages output)))
          ++ lit " message(s)"
          ++ (if truthy (default [] (next_page_token output))
              then lit " (more available)" else [])
          ++ lit ".";
          [] ] in
      let lines :=
        foldl (fun lines msg => lines ++ [formatMessageForMarkdown msg; []])
              lines (out_messages output) in
      let lines :=
        if truthy (default [] (next_page_token output))
        then lines ++ [lit "*Use page_token=" ++ dq
                       ++ default [] (next_page_token output) ++ dq
                       ++ lit " to load more messages.*"]
        else lines in
      join nl lines
  end.

(** The handler of [gmail_list_messages]. [client] is the outcome of
    [getGmailClient()], [list_call] the remote list call as a function of its
    argument, [details i] the outcome of the detail call for the entry at
    index [i], and [order] the order in which the detail calls settle. The
    result is [None] as long as the handler is still waiting for them. *)
Definition gmail_list_messages (toLowerCase : jsstring -> jsstring)
    (stringify : ListMessagesOutput -> jsstring) (params : ListMessagesInput)
    (client : Outcome unit) (list_call : ListParams -> Outcome ListResponse)
    (details : nat -> Outcome Gmail.MessageDetail) (order : list nat)
    : option (Outcome (ToolResult ListMessagesOutput)) :=
  match (do _ <- client ;; list_call (list_params params)) with
  | Rejected error => Some (error_result error)
  | Fulfilled response =>
      let messageIds := default [] (messages response) in
      match Gmail.list_messages_details toLowerCase messageIds details order with
      | None => None
      | Some settled =>
          Some
            (try_catch
               (do messages <- settled ;;
                let output :=
                  {| out_messages := messages;
                     result_count := Z.of_nat (length messages);
                     next_page_token := if_truthy (nextPageToken response) |} in
                let textOutput :=
                  match response_format params with
                  | MARKDOWN => list_messages_markdown params output
                  | JSON => stringify output
                  end in
                Fulfilled {| content := [TextItem textOutput];
                             structuredContent := Some output |})
               error_result)
      end
  end.

End GmailList.

(** ** tools/drive.ts: listing files and comments *)

Module DriveList.

(** The [q] that [drive_list_files] sends. *)
Definition list_files_query (mime_type : Drive.MimeTypeFilter) : jsstring :=
  let q := lit "trashed = false" in
  if negb (streq (Drive.mime_type_key mime_type) (lit "all")) then
    match Drive.lookup_key Drive.MIME_TYPE_MAP (Drive.mime_type_key mime_type) with
    | Some mimeType =>
        if truthy mimeType
        then q ++ lit " and mimeType = '" ++ mimeType ++ lit "'"
        else q
    | None => q
    end
  else q.

(** types.ts *)
Record ReplyData : Type := {
  reply_id : jsstring;
  reply_content : jsstring;
  reply_author : jsstring;
  reply_createdTime : jsstring
}.

Record CommentData : Type := {
  comment_id : jsstring;
  comment_content : jsstring;
  comment_author : jsstring;
  comment_createdTime : jsstring;
  comment_modifiedTime : option jsstring;
  comment_resolved : bool;
  comment_quotedFileContent : option jsstring;
  comment_replies : list ReplyData
}.

Definition formatCommentForMarkdown (comment : CommentData) : jsstring :=
  let lines :=
    [ lit "### Comment by " ++ comment_author comment;
      lit "**ID**: " ++ comment_id comment;
      lit "**Created**: " ++ comment_createdTime comment;
      lit "**Status**: "
      ++ (if comment_resolved comment then lit "Resolved" else lit "Open") ] in
  let lines :=
    if truthy (default [] (comment_quotedFileContent comment))
    then lines ++ [lit "**Quoted Text**: " ++ dq
                   ++ default [] (comment_quotedFileContent comment) ++ dq]
    else lines in
  let lines := lines ++ [[]; comment_content comment] in
  let lines :=
    match comment_replies comment with
    | [] => lines
    | _ :: _ =>
        foldl (fun lines reply =>
                 lines ++ [lit "- **" ++ reply_author reply ++ lit "** ("
                           ++ reply_createdTime reply ++ lit "): "
                           ++ reply_content reply])
              (lines ++ [[]; lit "**Replies**:"])
              (comment_replies comment)
    end in
  join nl lines.

(** The line of a reply. *)
Definition reply_line (reply : ReplyData) : jsstring :=
  lit "- **" ++ reply_author reply ++ lit "** (" ++ reply_createdTime reply
  ++ lit "): " ++ reply_content reply.

(** The lines of a comment above its replies. *)
Definition comment_lines (comment : CommentData) : list jsstring :=
  [ lit "### Comment by " ++ comment_author comment;
    lit "**ID**: " ++ comment_id comment;
    lit "**Created**: " ++ comment_createdTime comment;
    lit "**Status**: "
    ++ (if comment_resolved comment then lit "Resolved" else lit "Open") ]
  ++ (if truthy (default [] (comment_quotedFileContent comment))
      then [lit "**Quoted Text**: " ++ dq
            ++ default [] (comment_quotedFileContent comment) ++ dq]
      else [])
  ++ [[]; comment_content comment].

End DriveList.

(** ** tools/sheets.ts: the handler of sheets_get_values *)

Module SheetsGet.

Record GetValuesInput : Type := {
  spreadsheet_id : jsstring;
  range : jsstring;
  major_dimension : jsstring;
  response_format : ResponseFormat
}.

(** [response.data] of [spreadsheets.values.get]. *)
Record ValuesResponse : Type := {
  response_range : option jsstring;
  response_majorDimension : option jsstring;
  response_values : option (list (list Sheets.Cell))
}.

Record GetValuesOutput : Type := {
  out_range : jsstring;
  out_majorDimension : jsstring;
  out_values : list (list Sheets.Cell)
}.

(** The handler of [sheets_get_values]. *)
Definition sheets_get_values (stringify : GetValuesOutput -> jsstring)
    (params : GetValuesInput) (client : Outcome unit)
    (response : Outcome ValuesResponse) : Outcome (ToolResult GetValuesOutput) :=
  try_catch
    (do _ <- client ;;
     do data <- response ;;
     let output :=
       {| out_range := or_else (response_range data) (range params);
          out_majorDimension :=
            or_else (response_majorDimension data) (major_dimension params);
          out_values := default [] (response_values data) |} in
     let textOutput :=
       match response_format params with
       | MARKDOWN => Sheets.get_values_markdown (out_values output) (out_range output)
       | JSON => stringify output
       end in
     Fulfilled {| content := [TextItem textOutput];
                  structuredContent := Some output |})
    error_result.

End SheetsGet.

(** ** tools/gmail.ts: the rendering of the labels *)

Module GmailLabels.

Definition label_bullet (label : Gmail.LabelData) : jsstring :=
  lit "- **" ++ Gmail.label_name label ++ lit "** (`" ++ Gmail.label_id label
  ++ lit "`)".

(** The [lines] of the markdown branch of [gmail_list_labels]. *)
Definition list_labels_lines (labels : list Gmail.LabelData) : list jsstring :=
  let systemLabels := List.filter Gmail.is_system labels in
  let userLabels := List.filter (fun l => negb (Gmail.is_system l)) labels in
  let lines := [lit "# Gmail Labels"; []; lit "## System Labels"; []] in
  let lines :=
    foldl (fun lines label => lines ++ [label_bullet label]) lines systemLabels in
  match userLabels with
  | [] => lines
  | _ :: _ =>
      foldl (fun lines label => lines ++ [label_bullet label])
            (lines ++ [[]; lit "## User Labels"; []]) userLabels
  end.

Record ListLabelsOutput : Type := { out_labels : list Gmail.LabelData }.

Section Handler.

Variable localeCompare : jsstring -> jsstring -> Z.
Variable stringify : ListLabelsOutput -> jsstring.

(** The handler of [gmail_list_labels]; [response] is
    [response.data.labels]. *)
Definition gmail_list_labels (format : ResponseFormat) (client : Outcome unit)
    (response : Outcome (option (list Gmail.Label)))
    : Outcome (ToolResult ListLabelsOutput) :=
  try_catch
    (do _ <- client ;;
     do data <- response ;;
     let labels := Gmail.sorted_labels localeCompare (default [] data) in
     let output := {| out_labels := labels |} in
     let textOutput :=
       match format with
       | MARKDOWN => join nl (list_labels_lines labels)
       | JSON => stringify output
       end in
     Fulfilled {| content := [TextItem textOutput];
                  structuredContent := Some output |})
    error_result.

End Handler.

End GmailLabels.

(** ** tools/docs.ts: batch update *)

Module DocsUpdate.

Section Json.

(** A request or a reply of a batch update, an object that the handler
    passes on unread. *)
Variable Json : Type.

Record BatchUpdateInput : Type := {
  document_id : jsstring;
  requests : list Json
}.

(** [response.data], as far as it is read. *)
Record BatchUpdateResponse : Type := {
  documentId : option jsstring;
  replies : option (list Json);
  writeControl : option Json
}.

Record BatchUpdateOutput : Type := {
  out_documentId : jsstring;
  out_replies : list Json;
  out_writeControl : option Json
}.

(** The handler of [docs_batch_update]. *)
Definition docs_batch_update (params : BatchUpdateInput) (client : Outcome unit)
    (response : Outcome BatchUpdateResponse)
    : Outcome (ToolResult BatchUpdateOutput) :=
  try_catch
    (do _ <- client ;;
     do data <- response ;;
     let output :=
       {| out_documentId := or_else (documentId data) (document_id params);
          out_replies := default [] (replies data);
          out_writeControl := writeControl data |} in
     Fulfilled
       {| content :=
            [ TextItem (lit "Batch update applied successfully to document "
                        ++ out_documentId output ++ lit "." ++ nl ++ nl
                        ++ String_int (Z.of_nat (length (out_replies output)))
                        ++ lit " operation(s) completed.") ];
          structuredContent := Some output |})
    error_result.

End Json.

End DocsUpdate.

(** ** tools/sheets.ts: the other handlers *)

Module SheetsTools.

(** [x || 0] on a number that may be absent. *)
Definition or_zero (x : option Number) : Number :=
  match x with
  | Some x => if Number_truthy x then x else Zero false
  | None => Zero false
  end.

(** [x || d] on a string that may be absent or [null]. *)
Definition or_default (x : Nullable jsstring) (d : jsstring) : jsstring :=
  match x with
  | defined s => if truthy s then s else d
  | _ => d
  end.

(** [o?.f] *)
Definition chain {A B : Type} (o : option A) (f : A -> Nullable B) : Nullable B :=
  match o with
  | Some a => f a
  | None => undefined
  end.

(** *** sheets_get_spreadsheet *)

Record GridProperties : Type := {
  rowCount : option Number;
  columnCount : option Number
}.

Record SheetProperties : Type := {
  sheetId : Nullable Number;
  title : Nullable jsstring;
  sheetType : option jsstring;
  gridProperties : option GridProperties
}.

Record Sheet : Type := { properties : option SheetProperties }.

(** [sheets_v4.Schema$Spreadsheet], with the fields the handlers read;
    [properties_title] is [spreadsheet.properties?.title]. *)
Record Spreadsheet : Type := {
  spreadsheetId : Nullable jsstring;
  properties_title : option jsstring;
  properties_locale : option jsstring;
  sheets : option (list Sheet);
  spreadsheetUrl : Nullable jsstring
}.

Definition formatSheetInfo (sheet : Sheet) : jsstring :=
  match properties sheet with
  | None => lit "Unknown sheet"
  | Some props =>
      join nl
        [ lit "- **" ++ String_nullable (fun s => s) (title props)
          ++ lit "** (ID: " ++ String_nullable Number_toString (sheetId props)
          ++ lit ")";
          lit "  - Type: " ++ or_else (sheetType props) (lit "GRID");
          lit "  - Rows: "
          ++ Number_toString (or_zero (gridProperties props ≫= rowCount));
          lit "  - Columns: "
          ++ Number_toString (or_zero (gridProperties props ≫= columnCount)) ]
  end.

Record GetSpreadsheetInput : Type := {
  gs_spreadsheet_id : jsstring;
  gs_include_grid_data : bool;
  gs_response_format : ResponseFormat
}.

Record SheetSummary : Type := {
  sum_sheetId : Nullable Number;
  sum_title : jsstring;
  sum_rowCount : Number;
  sum_columnCount : Number
}.

Record GetSpreadsheetOutput : Type := {
  gs_out_spreadsheetId : jsstring;
  gs_out_title : jsstring;
  gs_out_locale : jsstring;
  gs_out_sheets : list SheetSummary;
  gs_out_spreadsheetUrl : Nullable jsstring
}.

(** [sheet.properties?.gridProperties] *)
Definition grid (sheet : Sheet) : option GridProperties :=
  match properties sheet with
  | Some props => gridProperties props
  | None => None
  end.

Definition sheet_summary (sheet : Sheet) : SheetSummary :=
  {| sum_sheetId := chain (properties sheet) sheetId;
     sum_title := or_default (chain (properties sheet) title) (lit "Untitled");
     sum_rowCount := or_zero (grid sheet ≫= rowCount);
     sum_columnCount := or_zero (grid sheet ≫= columnCount) |}.

(** The handler of [sheets_get_spreadsheet]. *)
Definition sheets_get_spreadsheet (stringify : GetSpreadsheetOutput -> jsstring)
    (params : GetSpreadsheetInput) (client : Outcome unit)
    (response : Outcome Spreadsheet) : Outcome (ToolResult GetSpreadsheetOutput) :=
  try_catch
    (do _ <- client ;;
     do spreadsheet <- response ;;
     let output :=
       {| gs_out_spreadsheetId :=
            or_default (spreadsheetId spreadsheet) (gs_spreadsheet_id params);
          gs_out_title := or_else (properties_title spreadsheet) (lit "Untitled");
          gs_out_locale := or_else (properties_locale spreadsheet) (lit "en_US");
          gs_out_sheets := map sheet_summary (default [] (sheets spreadsheet));
          gs_out_spreadsheetUrl := spreadsheetUrl spreadsheet |} in
     let textOutput :=
       match gs_response_format params with
       | MARKDOWN =>
           let sheetInfo :=
             join nl (map formatSheetInfo (default [] (sheets spreadsheet))) in
           join nl
             [ lit "# " ++ gs_out_title output;
               [];
               lit "**Spreadsheet ID**: " ++ gs_out_spreadsheetId output;
               lit "**URL**: " ++ or_default (gs_out_spreadsheetUrl output) (lit "N/A");
               lit "**Locale**: " ++ gs_out_locale output;
               [];
               lit "## Sheets";
               [];
               if truthy sheetInfo then sheetInfo else lit "No sheets found" ]
       | JSON => stringify output
       end in
     Fulfilled {| content := [TextItem textOutput];
                  structuredContent := Some output |})
    error_result.

(** *** sheets_batch_get_values *)

Record BatchGetValuesInput : Type := {
  bg_spreadsheet_id : jsstring;
  bg_ranges : list jsstring;
  bg_major_dimension : jsstring;
  bg_response_format : ResponseFormat
}.

(** An entry of [response.data.valueRanges]. *)
Record ValueRangeResponse : Type := {
  vr_response_range : option jsstring;
  vr_response_majorDimension : option jsstring;
  vr_response_values : option (list (list Sheets.Cell))
}.

Record BatchGetValuesResponse : Type := {
  bg_response_spreadsheetId : option jsstring;
  bg_response_valueRanges : option (list ValueRangeResponse)
}.

Record BatchGetValuesOutput : Type := {
  bg_out_spreadsheetId : jsstring;
  bg_out_valueRanges : list Sheets.ValueRange
}.

(** The handler of [sheets_batch_get_values]. *)
Definition sheets_batch_get_values (stringify : BatchGetValuesOutput -> jsstring)
    (params : BatchGetValuesInput) (client : Outcome unit)
    (response : Outcome BatchGetValuesResponse)
    : Outcome (ToolResult BatchGetValuesOutput) :=
  try_catch
    (do _ <- client ;;
     do data <- response ;;
     let output :=
       {| bg_out_spreadsheetId :=
            or_else (bg_response_spreadsheetId data) (bg_spreadsheet_id params);
          bg_out_valueRanges :=
            map (fun vr =>
                   {| Sheets.vr_range := vr_response_range vr;
                      Sheets.vr_majorDimension := vr_response_majorDimension vr;
                      Sheets.vr_values := default [] (vr_response_values vr) |})
                (default [] (bg_response_valueRanges data)) |} in
     let textOutput :=
       match bg_response_format params with
       | MARKDOWN => Sheets.batch_get_values_markdown (bg_out_valueRanges output)
       | JSON => stringify output
       end in
     Fulfilled {| content := [TextItem textOutput];
                  structuredContent := Some output |})
    error_result.

(** *** sheets_update_values *)

Record UpdateValuesInput : Type := {
  uv_spreadsheet_id : jsstring;
  uv_range : jsstring;
  uv_value_input_option : jsstring;
  uv_values : list (list Sheets.Cell)
}.

Record UpdateValuesResponse : Type := {
  uv_response_spreadsheetId : option jsstring;
  uv_response_updatedRange : option jsstring;
  uv_response_updatedRows : option Number;
  uv_response_updatedColumns : option Number;
  uv_response_updatedCells : option Number
}.

Record UpdateValuesOutput : Type := {
  uv_out_spreadsheetId : jsstring;
  uv_out_updatedRange : jsstring;
  uv_out_updatedRows : Number;
  uv_out_updatedColumns : Number;
  uv_out_updatedCells : Number
}.

(** The two characters that the source file has between [rows] and
    [columns], U+00C3 and U+2014. *)
Definition times_sign : jsstring := [0xC3; 0x2014].

(** The handler of [sheets_update_values]. *)
Definition sheets_update_values (params : UpdateValuesInput) (client : Outcome unit)
    (response : Outcome UpdateValuesResponse)
    : Outcome (ToolResult UpdateValuesOutput) :=
  try_catch
    (do _ <- client ;;
     do data <- response ;;
     let output :=
       {| uv_out_spreadsheetId :=
            or_else (uv_response_spreadsheetId data) (uv_spreadsheet_id params);
          uv_out_updatedRange :=
            or_else (uv_response_updatedRange data) (uv_range params);
          uv_out_updatedRows := or_zero (uv_response_updatedRows data);
          uv_out_updatedColumns := or_zero (uv_response_updatedColumns data);
          uv_out_updatedCells := or_zero (uv_response_updatedCells data) |} in
     Fulfilled
       {| content :=
            [ TextItem (lit "Values updated successfully." ++ nl ++ nl
                        ++ lit "**Range**: " ++ uv_out_updatedRange output ++ nl
                        ++ lit "**Cells updated**: "
                        ++ Number_toString (uv_out_updatedCells output)
                        ++ lit " (" ++ Number_toString (uv_out_updatedRows output)
                        ++ lit " rows " ++ times_sign ++ lit " "
                        ++ Number_toString (uv_out_updatedColumns output)
                        ++ lit " columns)") ];
          structuredContent := Some output |})
    error_result.

(** *** sheets_append_values *)

Record AppendValuesInput : Type := {
  av_spreadsheet_id : jsstring;
  av_range : jsstring;
  av_value_input_option : jsstring;
  av_insert_data_option : jsstring;
  av_values : list (list Sheets.Cell)
}.

(** [response.data.updates] *)
Record Updates : Type := {
  updatedRange : option jsstring;
  updatedRows : option Number;
  updatedColumns : option Number;
  updatedCells : option Number
}.

Record AppendValuesResponse : Type := {
  av_response_spreadsheetId : option jsstring;
  av_response_tableRange : option jsstring;
  av_response_updates : option Updates
}.

Record AppendedUpdates : Type := {
  au_updatedRange : jsstring;
  au_updatedRows : Number;
  au_updatedColumns : Number;
  au_updatedCells : Number
}.

Record AppendValuesOutput : Type := {
  av_out_spreadsheetId : jsstring;
  av_out_tableRange : jsstring;
  av_out_updates : AppendedUpdates
}.

(** The handler of [sheets_append_values]. *)
Definition sheets_append_values (params : AppendValuesInput) (client : Outcome unit)
    (response : Outcome AppendValuesResponse)
    : Outcome (ToolResult AppendValuesOutput) :=
  try_catch
    (do _ <- client ;;
     do data <- response ;;
     let updates := av_response_updates data in
     let output :=
       {| av_out_spreadsheetId :=
            or_else (av_response_spreadsheetId data) (av_spreadsheet_id params);
          av_out_tableRange :=
            or_else (av_response_tableRange data) (av_range params);
          av_out_updates :=
            {| au_updatedRange := or_else (updates ≫= updatedRange) [];
               au_updatedRows := or_zero (updates ≫= updatedRows);
               au_updatedColumns := or_zero (updates ≫= updatedColumns);
               au_updatedCells := or_zero (updates ≫= updatedCells) |} |} in
     Fulfilled
       {| content :=
            [ TextItem (lit "Data appended successfully." ++ nl ++ nl
                        ++ lit "**Table range**: " ++ av_out_tableRange output ++ nl
                        ++ lit "**Appended to**: "
                        ++ au_updatedRange (av_out_updates output) ++ nl
                        ++ lit "**Rows added**: "
                        ++ Number_toString (au_updatedRows (av_out_updates output))) ];
          structuredContent := Some output |})
    error_result.

(** *** sheets_create_spreadsheet *)

Record CreateSpreadsheetInput : Type := {
  cs_title : jsstring;
  cs_sheet_titles : option (list jsstring)
}.

(** The [requestBody] of [spreadsheets.create]: the title, and the sheets
    as pairs of [sheetId] and title when the property is set. *)
Record SpreadsheetRequest : Type := {
  request_title : jsstring;
  request_sheets : option (list (Z * jsstring))
}.

Definition create_request (params : CreateSpreadsheetInput) : SpreadsheetRequest :=
  {| request_title := cs_title params;
     request_sheets :=
       match cs_sheet_titles params with
       | Some (t :: ts) =>
           Some (imap (fun index title => (Z.of_nat index, title)) (t :: ts))
       | _ => None
       end |}.

Record CreatedSheet : Type := {
  cs_sheetId : Nullable Number;
  cs_sheet_title : Nullable jsstring
}.

Record CreateSpreadsheetOutput : Type := {
  cs_out_spreadsheetId : Nullable jsstring;
  cs_out_title : jsstring;
  cs_out_spreadsheetUrl : Nullable jsstring;
  cs_out_sheets : list CreatedSheet
}.

(** An element of an array in [join]: nothing when absent or [null]. *)
Definition join_element (x : Nullable jsstring) : jsstring :=
  match x with
  | defined s => s
  | _ => []
  end.

(** The handler of [sheets_create_spreadsheet]; [create] is the remote
    call as a function of its request body. *)
Definition sheets_create_spreadsheet (params : CreateSpreadsheetInput)
    (client : Outcome unit) (create : SpreadsheetRequest -> Outcome Spreadsheet)
    : Outcome (ToolResult CreateSpreadsheetOutput) :=
  try_catch
    (do _ <- client ;;
     do spreadsheet <- create (create_request params) ;;
     let output :=
       {| cs_out_spreadsheetId := spreadsheetId spreadsheet;
          cs_out_title := or_else (properties_title spreadsheet) (cs_title params);
          cs_out_spreadsheetUrl := spreadsheetUrl spreadsheet;
          cs_out_sheets :=
            map (fun s =>
                   {| cs_sheetId := chain (properties s) sheetId;
                      cs_sheet_title := chain (properties s) title |})
                (default [] (sheets spreadsheet)) |} in
     Fulfilled
       {| content :=
            [ TextItem (lit "Spreadsheet created successfully." ++ nl ++ nl
                        ++ lit "**Title**: " ++ cs_out_title output ++ nl
                        ++ lit "**ID**: "
                        ++ String_nullable (fun s => s) (cs_out_spreadsheetId output)
                        ++ nl ++ lit "**URL**: "
                        ++ String_nullable (fun s => s) (cs_out_spreadsheetUrl output)
                        ++ nl ++ lit "**Sheets**: "
                        ++ join (lit ", ")
                             (map (fun s => join_element (cs_sheet_title s))
                                  (cs_out_sheets output))) ];
          structuredContent := Some output |})
    error_result.

(** *** sheets_batch_update and sheets_clear_values *)

Section Json.

Variable Json : Type.

Record BatchUpdateInput : Type := {
  bu_spreadsheet_id : jsstring;
  bu_requests : list Json
}.

Record BatchUpdateResponse : Type := {
  bu_response_spreadsheetId : option jsstring;
  bu_response_replies : option (list Json)
}.

Record BatchUpdateOutput : Type := {
  bu_out_spreadsheetId : jsstring;
  bu_out_replies : list Json
}.

(** The handler of [sheets_batch_update]. *)
Definition sheets_batch_update (params : BatchUpdateInput) (client : Outcome unit)
    (response : Outcome BatchUpdateResponse)
    : Outcome (ToolResult BatchUpdateOutput) :=
  try_catch
    (do _ <- client ;;
     do data <- response ;;
     let output :=
       {| bu_out_spreadsheetId :=
            or_else (bu_response_spreadsheetId data) (bu_spreadsheet_id params);
          bu_out_replies := default [] (bu_response_replies data) |} in
     Fulfilled
       {| content :=
            [ TextItem (lit "Batch update applied successfully to spreadsheet "
                        ++ bu_out_spreadsheetId output ++ lit "." ++ nl ++ nl
                        ++ String_int (Z.of_nat (length (bu_out_replies output)))
                        ++ lit " operation(s) completed.") ];
          structuredContent := Some output |})
    error_result.

End Json.

Record ClearValuesInput : Type := {
  cv_spreadsheet_id : jsstring;
  cv_range : jsstring
}.

Record ClearValuesResponse : Type := {
  cv_response_spreadsheetId : option jsstring;
  cv_response_clearedRange : option jsstring
}.

Record ClearValuesOutput : Type := {
  cv_out_spreadsheetId : jsstring;
  cv_out_clearedRange : jsstring
}.

(** The handler of [sheets_clear_values]. *)
Definition sheets_clear_values (params : ClearValuesInput) (client : Outcome unit)
    (response : Outcome ClearValuesResponse)
    : Outcome (ToolResult ClearValuesOutput) :=
  try_catch
    (do _ <- client ;;
     do data <- response ;;
     let output :=
       {| cv_out_spreadsheetId :=
            or_else (cv_response_spreadsheetId data) (cv_spreadsheet_id params);
          cv_out_clearedRange :=
            or_else (cv_response_clearedRange data) (cv_range params) |} in
     Fulfilled
       {| content :=
            [ TextItem (lit "Values cleared successfully." ++ nl ++ nl
                        ++ lit "**Cleared range**: " ++ cv_out_clearedRange output) ];
          structuredContent := Some output |})
    error_result.

End SheetsTools.

(** ** tools/gmail.ts: the other handlers *)

Module GmailTools.

Section Headers.

Variable toLowerCase : jsstring -> jsstring.

(** *** gmail_get_message *)

Record GetMessageInput : Type := {
  gm_message_id : jsstring;
  gm_response_format : ResponseFormat
}.

(** [response.data], as far as it is read; [gm_headers] is
    [response.data.payload?.headers]. *)
Record MessageResponse : Type := {
  gm_id : option jsstring;
  gm_threadId : option jsstring;
  gm_payload : option Gmail.MessagePart;
  gm_headers : option (list Gmail.Header);
  gm_labelIds : option (list jsstring)
}.

Record GetMessageOutput : Type := {
  gm_out_id : jsstring;
  gm_out_threadId : jsstring;
  gm_out_from : option jsstring;
  gm_out_to : option jsstring;
  gm_out_cc : option jsstring;
  gm_out_subject : option jsstring;
  gm_out_date : option jsstring;
  gm_out_labels : list jsstring;
  gm_out_body : jsstring
}.

(** [s || d] on strings. *)
Definition or_text (s d : jsstring) : jsstring := if truthy s then s else d.

(** The markdown branch: the lines, of which the one for [cc] is [null]
    without a [cc], then [filter(line => line !== null)] and [join]. *)
Definition get_message_markdown (output : GetMessageOutput) : jsstring :=
  join nl
    (omap (fun line => line)
       [ Some (lit "# " ++ or_else (gm_out_subject output) (lit "(no subject)"));
         Some [];
         Some (lit "**From**: " ++ or_else (gm_out_from output) (lit "Unknown"));
         Some (lit "**To**: " ++ or_else (gm_out_to output) (lit "Unknown"));
         (if truthy (default [] (gm_out_cc output))
          then Some (lit "**CC**: " ++ default [] (gm_out_cc output))
          else None);
         Some (lit "**Date**: " ++ or_else (gm_out_date output) (lit "Unknown"));
         Some (lit "**Labels**: "
               ++ or_text (join (lit ", ") (gm_out_labels output)) (lit "None"));
         Some [];
         Some (lit "---");
         Some [];
         Some (or_text (gm_out_body output) (lit "(no body content)")) ]).

(** The handler of [gmail_get_message]. *)
Definition gmail_get_message (stringify : GetMessageOutput -> jsstring)
    (params : GetMessageInput) (client : Outcome unit)
    (response : Outcome MessageResponse) : Outcome (ToolResult GetMessageOutput) :=
  try_catch
    (do _ <- client ;;
     do data <- response ;;
     let headers := gm_headers data in
     let body := Gmail.extractBody (gm_payload data) in
     let output :=
       {| gm_out_id := or_else (gm_id data) [];
          gm_out_threadId := or_else (gm_threadId data) [];
          gm_out_from := Gmail.getHeader toLowerCase headers (lit "From");
          gm_out_to := Gmail.getHeader toLowerCase headers (lit "To");
          gm_out_cc := Gmail.getHeader toLowerCase headers (lit "Cc");
          gm_out_subject := Gmail.getHeader toLowerCase headers (lit "Subject");
          gm_out_date := Gmail.getHeader toLowerCase headers (lit "Date");
          gm_out_labels := default [] (gm_labelIds data);
          gm_out_body := body |} in
     let textOutput :=
       match gm_response_format params with
       | MARKDOWN => get_message_markdown output
       | JSON => stringify output
       end in
     Fulfilled {| content := [TextItem textOutput];
                  structuredContent := Some output |})
    error_result.

(** *** gmail_list_threads *)

Record ListThreadsInput : Type := {
  lt_query : option jsstring;
  lt_max_results : Z;
  lt_label_ids : option (list jsstring);
  lt_page_token : option jsstring;
  lt_response_format : ResponseFormat
}.

Definition list_params (params : ListThreadsInput) : GmailList.ListParams :=
  {| GmailList.userId := lit "me";
     GmailList.maxResults := lt_max_results params;
     GmailList.q := GmailList.if_truthy (lt_query params);
     GmailList.labelIds :=
       match lt_label_ids params with
       | Some (l :: ls) => Some (l :: ls)
       | _ => None
       end;
     GmailList.pageToken := GmailList.if_truthy (lt_page_token params) |}.

(** [response.data] of the list call. *)
Record ListThreadsResponse : Type := {
  lt_threads : option (list Gmail.ThreadRef);
  lt_nextPageToken : option jsstring
}.

Record ListThreadsOutput : Type := {
  lt_out_threads : list Gmail.ThreadData;
  lt_result_count : Z;
  lt_next_page_token : option jsstring
}.

(** The handler of [gmail_list_threads], with the arguments of
    [gmail_list_messages]. *)
Definition gmail_list_threads (stringify : ListThreadsOutput -> jsstring)
    (params : ListThreadsInput) (client : Outcome unit)
    (list_call : GmailList.ListParams -> Outcome ListThreadsResponse)
    (details : nat -> Outcome Gmail.ThreadDetail) (order : list nat)
    : option (Outcome (ToolResult ListThreadsOutput)) :=
  match (do _ <- client ;; list_call (list_params params)) with
  | Rejected error => Some (error_result error)
  | Fulfilled response =>
      let threadIds := default [] (lt_threads response) in
      match Gmail.list_threads_details toLowerCase threadIds details order with
      | None => None
      | Some settled =>
          Some
            (try_catch
               (do threads <- settled ;;
                let output :=
                  {| lt_out_threads := threads;
                     lt_result_count := Z.of_nat (length threads);
                     lt_next_page_token :=
                       GmailList.if_truthy (lt_nextPageToken response) |} in
                let textOutput :=
                  match lt_response_format params with
                  | MARKDOWN =>
                      Gmail.list_threads_markdown (lt_out_threads output)
                        (lt_next_page_token output)
                  | JSON => stringify output
                  end in
                Fulfilled {| content := [TextItem textOutput];
                             structuredContent := Some output |})
               error_result)
      end
  end.

(** *** gmail_get_thread *)

Record GetThreadInput : Type := {
  gt_thread_id : jsstring;
  gt_response_format : ResponseFormat
}.

(** An entry of [response.data.messages]; [tm_headers] is
    [msg.payload?.headers]. *)
Record ThreadMessage : Type := {
  tm_id : option jsstring;
  tm_payload : option Gmail.MessagePart;
  tm_headers : option (list Gmail.Header)
}.

Record ThreadResponse : Type := {
  gt_id : option jsstring;
  gt_messages : option (list ThreadMessage)
}.

Record ThreadMessageData : Type := {
  tmd_id : jsstring;
  tmd_from : option jsstring;
  tmd_to : option jsstring;
  tmd_subject : option jsstring;
  tmd_date : option jsstring;
  tmd_body : jsstring
}.

Record GetThreadOutput : Type := {
  gt_out_id : jsstring;
  gt_out_messageCount : Z;
  gt_out_messages : list ThreadMessageData
}.

Definition thread_message (msg : ThreadMessage) : ThreadMessageData :=
  let headers := tm_headers msg in
  {| tmd_id := or_else (tm_id msg) [];
     tmd_from := Gmail.getHeader toLowerCase headers (lit "From");
     tmd_to := Gmail.getHeader toLowerCase headers (lit "To");
     tmd_subject := Gmail.getHeader toLowerCase headers (lit "Subject");
     tmd_date := Gmail.getHeader toLowerCase headers (lit "Date");
     tmd_body := Gmail.extractBody (tm_payload msg) |}.

(** The markdown branch of [gmail_get_thread]. *)
Definition get_thread_markdown (messages : list ThreadMessageData) : jsstring :=
  let firstSubject := or_else (head messages ≫= tmd_subject) (lit "(no subject)") in
  let lines :=
    [ lit "# Thread: " ++ firstSubject;
      [];
      String_int (Z.of_nat (length messages)) ++ lit " message(s) in this thread.";
      [] ] in
  let lines :=
    foldl (fun lines '(i, msg) =>
             lines ++
             [ lit "## Message " ++ String_int (Z.of_nat i + 1);
               [];
               lit "**From**: " ++ or_else (tmd_from msg) (lit "Unknown");
               lit "**To**: " ++ or_else (tmd_to msg) (lit "Unknown");
               lit "**Date**: " ++ or_else (tmd_date msg) (lit "Unknown");
               [];
               or_text (tmd_body msg) (lit "(no body content)");
               [];
               lit "---";
               [] ])
          lines (imap (fun i msg => (i, msg)) messages) in
  join nl lines.

(** The handler of [gmail_get_thread]. *)
Definition gmail_get_thread (stringify : GetThreadOutput -> jsstring)
    (params : GetThreadInput) (client : Outcome unit)
    (response : Outcome ThreadResponse) : Outcome (ToolResult GetThreadOutput) :=
  try_catch
    (do _ <- client ;;
     do data <- response ;;
     let messages := map thread_message (default [] (gt_messages data)) in
     let output :=
       {| gt_out_id := or_else (gt_id data) [];
          gt_out_messageCount := Z.of_nat (length messages);
          gt_out_messages := messages |} in
     let textOutput :=
       match gt_response_format params with
       | MARKDOWN => get_thread_markdown messages
       | JSON => stringify output
       end in
     Fulfilled {| content := [TextItem textOutput];
                  structuredContent := Some output |})
    error_result.

End Headers.

End GmailTools.

(** ** tools/drive.ts: the other handlers *)

Module DriveTools.

(** *** drive_list_comments *)

Record ListCommentsInput : Type := {
  lc_file_id : jsstring;
  lc_include_deleted : bool;
  lc_page_size : Z;
  lc_page_token : option jsstring;
  lc_response_format : ResponseFormat
}.

(** An entry of [replies]; [reply_displayName] is [r.author?.displayName]. *)
Record Reply : Type := {
  reply_id : option jsstring;
  reply_content : option jsstring;
  reply_displayName : option jsstring;
  reply_createdTime : option jsstring
}.

(** An entry of [response.data.comments]; [comment_displayName] is
    [c.author?.displayName] and [comment_quoted] is
    [c.quotedFileContent?.value]. *)
Record Comment : Type := {
  comment_id : option jsstring;
  comment_content : option jsstring;
  comment_displayName : option jsstring;
  comment_createdTime : option jsstring;
  comment_modifiedTime : option jsstring;
  comment_resolved : option bool;
  comment_quoted : option jsstring;
  comment_replies : option (list Reply)
}.

Record ListCommentsResponse : Type := {
  lc_comments : option (list Comment);
  lc_nextPageToken : option jsstring
}.

Record ListCommentsOutput : Type := {
  lc_out_comments : list DriveList.CommentData;
  lc_next_page_token : option jsstring
}.

Definition reply_data (r : Reply) : DriveList.ReplyData :=
  {| DriveList.reply_id := or_else (reply_id r) [];
     DriveList.reply_content := or_else (reply_content r) [];
     DriveList.reply_author := or_else (reply_displayName r) (lit "Unknown");
     DriveList.reply_createdTime := or_else (reply_createdTime r) [] |}.

Definition comment_data (c : Comment) : DriveList.CommentData :=
  {| DriveList.comment_id := or_else (comment_id c) [];
     DriveList.comment_content := or_else (comment_content c) [];
     DriveList.comment_author := or_else (comment_displayName c) (lit "Unknown");
     DriveList.comment_createdTime := or_else (comment_createdTime c) [];
     DriveList.comment_modifiedTime := comment_modifiedTime c;
     DriveList.comment_resolved := default false (comment_resolved c);
     DriveList.comment_quotedFileContent := comment_quoted c;
     DriveList.comment_replies :=
       map reply_data (default [] (comment_replies c)) |}.

(** The markdown branch of [drive_list_comments]. *)
Definition list_comments_markdown (output : ListCommentsOutput) : jsstring :=
  match lc_out_comments output with
  | [] => lit "No comments found on this document."
  | _ :: _ =>
      let lines :=
        [ lit "# Comments on Document";
          [];
          lit "Found " ++ String_int (Z.of_nat (length (lc_out_comments output)))
          ++ lit " comment(s)"
          ++ (if truthy (default [] (lc_next_page_token output))
              then lit " (more available)" else [])
          ++ lit ".";
          [] ] in
      let lines :=
        foldl (fun lines comment =>
                 lines ++ [DriveList.formatCommentForMarkdown comment; lit "---"; []])
              lines (lc_out_comments output) in
      let lines :=
        if truthy (default [] (lc_next_page_token output))
        then lines ++ [lit "*Use page_token=" ++ dq
                       ++ default [] (lc_next_page_token output) ++ dq
                       ++ lit " to load more comments.*"]
        else lines in
      join nl lines
  end.

(** The handler of [drive_list_comments]. *)
Definition drive_list_comments (stringify : ListCommentsOutput -> jsstring)
    (params : ListCommentsInput) (client : Outcome unit)
    (response : Outcome ListCommentsResponse)
    : Outcome (ToolResult ListCommentsOutput) :=
  try_catch
    (do _ <- client ;;
     do data <- response ;;
     let output :=
       {| lc_out_comments := map comment_data (default [] (lc_comments data));
          lc_next_page_token := GmailList.if_truthy (lc_nextPageToken data) |} in
     let textOutput :=
       match lc_response_format params with
       | MARKDOWN => list_comments_markdown output
       | JSON => stringify output
       end in
     Fulfilled {| content := [TextItem textOutput];
                  structuredContent := Some output |})
    error_result.

(** *** drive_create_comment and drive_reply_to_comment *)

Record CreateCommentInput : Type := {
  cc_file_id : jsstring;
  cc_content : jsstring;
  cc_quoted_text : option jsstring
}.

(** The [requestBody] of [comments.create]: the content, and the quoted
    text when there is one. *)
Record CommentRequest : Type := {
  request_content : jsstring;
  request_quotedFileContent : option jsstring
}.

Definition comment_request (params : CreateCommentInput) : CommentRequest :=
  {| request_content := cc_content params;
     request_quotedFileContent := GmailList.if_truthy (cc_quoted_text params) |}.

(** [response.data] of [comments.create] and of [replies.create];
    [created_displayName] is [response.data.author?.displayName]. *)
Record Created : Type := {
  created_id : option jsstring;
  created_content : option jsstring;
  created_displayName : option jsstring;
  created_createdTime : option jsstring
}.

Record CreatedOutput : Type := {
  created_out_id : jsstring;
  created_out_content : jsstring;
  created_out_author : jsstring;
  created_out_createdTime : jsstring
}.

(** The handler of [drive_create_comment]; [create] is the remote call as
    a function of its request body and [now] is
    [new Date().toISOString()]. *)
Definition drive_create_comment (now : jsstring) (params : CreateCommentInput)
    (client : Outcome unit) (create : CommentRequest -> Outcome Created)
    : Outcome (ToolResult CreatedOutput) :=
  try_catch
    (do _ <- client ;;
     do data <- create (comment_request params) ;;
     let output :=
       {| created_out_id := or_else (created_id data) [];
          created_out_content := or_else (created_content data) (cc_content params);
          created_out_author := or_else (created_displayName data) (lit "You");
          created_out_createdTime := or_else (created_createdTime data) now |} in
     Fulfilled
       {| content :=
            [ TextItem (lit "Comment created successfully." ++ nl ++ nl
                        ++ lit "**ID**: " ++ created_out_id output ++ nl
                        ++ lit "**Author**: " ++ created_out_author output ++ nl
                        ++ lit "**Content**: " ++ created_out_content output) ];
          structuredContent := Some output |})
    error_result.

Record ReplyToCommentInput : Type := {
  rc_file_id : jsstring;
  rc_comment_id : jsstring;
  rc_content : jsstring
}.

(** The handler of [drive_reply_to_comment]. *)
Definition drive_reply_to_comment (now : jsstring) (params : ReplyToCommentInput)
    (client : Outcome unit) (response : Outcome Created)
    : Outcome (ToolResult CreatedOutput) :=
  try_catch
    (do _ <- client ;;
     do data <- response ;;
     let output :=
       {| created_out_id := or_else (created_id data) [];
          created_out_content := or_else (created_content data) (rc_content params);
          created_out_author := or_else (created_displayName data) (lit "You");
          created_out_createdTime := or_else (created_createdTime data) now |} in
     Fulfilled
       {| content :=
            [ TextItem (lit "Reply created successfully." ++ nl ++ nl
                        ++ lit "**Reply ID**: " ++ created_out_id output ++ nl
                        ++ lit "**Comment ID**: " ++ rc_comment_id params ++ nl
                        ++ lit "**Content**: " ++ created_out_content output) ];
          structuredContent := Some output |})
    error_result.

(** *** drive_resolve_comment and drive_delete_comment *)

Record CommentRef : Type := {
  ref_file_id : jsstring;
  ref_comment_id : jsstring
}.

Record ResolveOutput : Type := {
  resolve_id : jsstring;
  resolve_resolved : bool
}.

(** The handler of [drive_resolve_comment]. *)
Definition drive_resolve_comment (params : CommentRef) (client : Outcome unit)
    (response : Outcome unit) : Outcome (ToolResult ResolveOutput) :=
  try_catch
    (do _ <- client ;;
     do _ <- response ;;
     let output :=
       {| resolve_id := ref_comment_id params; resolve_resolved := true |} in
     Fulfilled
       {| content :=
            [ TextItem (lit "Comment " ++ ref_comment_id params
                        ++ lit " has been marked as resolved.") ];
          structuredContent := Some output |})
    error_result.

Record DeleteOutput : Type := {
  delete_deleted : bool;
  delete_comment_id : jsstring
}.

(** The handler of [drive_delete_comment]. *)
Definition drive_delete_comment (params : CommentRef) (client : Outcome unit)
    (response : Outcome unit) : Outcome (ToolResult DeleteOutput) :=
  try_catch
    (do _ <- client ;;
     do _ <- response ;;
     let output :=
       {| delete_deleted := true; delete_comment_id := ref_comment_id params |} in
     Fulfilled
       {| content :=
            [ TextItem (lit "Comment " ++ ref_comment_id params
                        ++ lit " has been deleted.") ];
          structuredContent := Some output |})
    error_result.

(** *** drive_list_files and drive_search_files *)

Definition MIME_TYPE_DISPLAY : list (jsstring * jsstring) :=
  [ (lit "application/vnd.google-apps.document", lit "Google Doc");
    (lit "application/vnd.google-apps.spreadsheet", lit "Google Sheet");
    (lit "application/vnd.google-apps.presentation", lit "Google Slides");
    (lit "application/vnd.google-apps.folder", lit "Folder");
    (lit "application/vnd.google-apps.form", lit "Google Form");
    (lit "application/pdf", lit "PDF");
    (lit "image/png", lit "PNG Image");
    (lit "image/jpeg", lit "JPEG Image") ].

(** An entry of [f.owners]. *)
Record Owner : Type := {
  displayName : option jsstring;
  emailAddress : option jsstring
}.

(** An entry of [response.data.files]. *)
Record File : Type := {
  file_id : option jsstring;
  file_name : option jsstring;
  file_mimeType : option jsstring;
  file_createdTime : option jsstring;
  file_modifiedTime : option jsstring;
  file_size : option jsstring;
  file_webViewLink : option jsstring;
  file_owners : option (list Owner)
}.

Record FileData : Type := {
  fd_id : jsstring;
  fd_name : jsstring;
  fd_mimeType : jsstring;
  fd_createdTime : option jsstring;
  fd_modifiedTime : option jsstring;
  fd_size : option jsstring;
  fd_webViewLink : option jsstring;
  fd_owners : option (list jsstring)
}.

Definition file_data (f : File) : FileData :=
  {| fd_id := or_else (file_id f) [];
     fd_name := or_else (file_name f) [];
     fd_mimeType := or_else (file_mimeType f) [];
     fd_createdTime := GmailList.if_truthy (file_createdTime f);
     fd_modifiedTime := GmailList.if_truthy (file_modifiedTime f);
     fd_size := GmailList.if_truthy (file_size f);
     fd_webViewLink := GmailList.if_truthy (file_webViewLink f);
     fd_owners :=
       match file_owners f with
       | Some owners =>
           Some (map (fun o => or_else (displayName o)
                                 (or_else (emailAddress o) (lit "Unknown")))
                     owners)
       | None => None
       end |}.

Record FilesResponse : Type := {
  files : option (list File);
  files_nextPageToken : option jsstring
}.

Record FilesOutput : Type := {
  out_files : list FileData;
  files_next_page_token : option jsstring
}.

Section Runtime.

(** [formatFileSize], which works on floating-point numbers with
    [Math.log], and [Number] on a string are taken as given; so is the text
    of a property that [MIME_TYPE_DISPLAY] inherits from [Object.prototype],
    such as [constructor], for a type of that name. *)
Variable formatFileSize : Number -> jsstring.
Variable Number_of_string : jsstring -> Number.
Variable inherited : jsstring -> option jsstring.

Definition formatFileForMarkdown (file : FileData) : jsstring :=
  let typeDisplay :=
    match Drive.lookup_key MIME_TYPE_DISPLAY (fd_mimeType file) with
    | Some display => display
    | None =>
        match inherited (fd_mimeType file) with
        | Some text => text
        | None => fd_mimeType file
        end
    end in
  let lines :=
    [ lit "### " ++ fd_name file;
      lit "- **ID**: `" ++ fd_id file ++ lit "`";
      lit "- **Type**: " ++ typeDisplay ] in
  let lines :=
    if truthy (default [] (fd_modifiedTime file))
    then lines ++ [lit "- **Modified**: " ++ default [] (fd_modifiedTime file)]
    else lines in
  let lines :=
    if truthy (default [] (fd_size file))
    then lines ++ [lit "- **Size**: "
                   ++ formatFileSize (Number_of_string (default [] (fd_size file)))]
    else lines in
  let lines :=
    if truthy (default [] (fd_webViewLink file))
    then lines ++ [lit "- **Link**: " ++ default [] (fd_webViewLink file)]
    else lines in
  let lines :=
    match fd_owners file with
    | Some (o :: os) => lines ++ [lit "- **Owner**: " ++ join (lit ", ") (o :: os)]
    | _ => lines
    end in
  join nl lines.

(** The markdown branch of the two handlers, which differ in the text for
    no file, in the title and in the noun of the last line. *)
Definition files_markdown (none title noun : jsstring) (output : FilesOutput)
    : jsstring :=
  match out_files output with
  | [] => none
  | _ :: _ =>
      let lines :=
        [ title;
          [];
          lit "Found " ++ String_int (Z.of_nat (length (out_files output)))
          ++ lit " file(s)"
          ++ (if truthy (default [] (files_next_page_token output))
              then lit " (more available)" else [])
          ++ lit ".";
          [] ] in
      let lines :=
        foldl (fun lines file => lines ++ [formatFileForMarkdown file; []])
              lines (out_files output) in
      let lines :=
        if truthy (default [] (files_next_page_token output))
        then lines ++ [lit "*Use page_token=" ++ dq
                       ++ default [] (files_next_page_token output) ++ dq
                       ++ lit " to load more " ++ noun ++ lit ".*"]
        else lines in
      join nl lines
  end.

Record ListFilesInput : Type := {
  lf_mime_type : Drive.MimeTypeFilter;
  lf_page_size : Z;
  lf_page_token : option jsstring;
  lf_order_by : jsstring;
  lf_response_format : ResponseFormat
}.

(** The argument of [drive.files.list]; [orderBy] is absent in a search. *)
Record FilesRequest : Type := {
  request_q : jsstring;
  request_pageSize : Z;
  request_pageToken : option jsstring;
  request_orderBy : option jsstring
}.

(** The handler of [drive_list_files]; [list_call] is the remote call as a
    function of its argument. *)
Definition drive_list_files (stringify : FilesOutput -> jsstring)
    (params : ListFilesInput) (client : Outcome unit)
    (list_call : FilesRequest -> Outcome FilesResponse)
    : Outcome (ToolResult FilesOutput) :=
  try_catch
    (do _ <- client ;;
     let q := DriveList.list_files_query (lf_mime_type params) in
     do data <- list_call {| request_q := q;
                             request_pageSize := lf_page_size params;
                             request_pageToken := lf_page_token params;
                             request_orderBy := Some (lf_order_by params) |} ;;
     let output :=
       {| out_files := map file_data (default [] (files data));
          files_next_page_token := GmailList.if_truthy (files_nextPageToken data) |} in
     let textOutput :=
       match lf_response_format params with
       | MARKDOWN =>
           files_markdown (lit "No files found in Drive.") (lit "# Drive Files")
             (lit "files") output
       | JSON => stringify output
       end in
     Fulfilled {| content := [TextItem textOutput];
                  structuredContent := Some output |})
    error_result.

Record SearchFilesInput : Type := {
  sf_query : jsstring;
  sf_mime_type : Drive.MimeTypeFilter;
  sf_page_size : Z;
  sf_page_token : option jsstring;
  sf_response_format : ResponseFormat
}.

(** The handler of [drive_search_files]. *)
Definition drive_search_files (stringify : FilesOutput -> jsstring)
    (params : SearchFilesInput) (client : Outcome unit)
    (list_call : FilesRequest -> Outcome FilesResponse)
    : Outcome (ToolResult FilesOutput) :=
  try_catch
    (do _ <- client ;;
     let q := Drive.search_query (sf_query params) (sf_mime_type params) in
     do data <- list_call {| request_q := q;
                             request_pageSize := sf_page_size params;
                             request_pageToken := sf_page_token params;
                             request_orderBy := None |} ;;
     let output :=
       {| out_files := map file_data (default [] (files data));
          files_next_page_token := GmailList.if_truthy (files_nextPageToken data) |} in
     let textOutput :=
       match sf_response_format params with
       | MARKDOWN =>
           files_markdown
             (lit "No files found matching " ++ dq ++ sf_query params ++ dq ++ lit ".")
             (lit "# Search Results for " ++ dq ++ sf_query params ++ dq)
             (lit "results") output
       | JSON => stringify output
       end in
     Fulfilled {| content := [TextItem textOutput];
                  structuredContent := Some output |})
    error_result.

End Runtime.

End DriveTools.

(** ** The tools of the server

    One invocation of a tool, given with the outcome of every step that may
    throw: the client getter, the awaited remote calls and, for the two
    listings, the order in which the detail calls settle. *)

Module Server.

Section Runtime.

(** The objects that the handlers pass on unread, and the functions of the
    runtime that are taken as given: [JSON.stringify(output, null, 2)] for
    every output, the case mapping and the collation of the host, and the
    three that [formatFileForMarkdown] needs. *)
Variable Json : Type.
Variable stringify : forall A : Type, A -> jsstring.
Variable toLowerCase : jsstring -> jsstring.
Variable localeCompare : jsstring -> jsstring -> Z.
Variable formatFileSize : Number -> jsstring.
Variable Number_of_string : jsstring -> Number.
Variable inherited : jsstring -> option jsstring.
Variable now : jsstring.

Inductive Invocation : Type :=
  | call_docs_get_document (params : Docs.GetDocumentInput)
      (client : Outcome unit) (response : Outcome Docs.Document)
  | call_docs_create_document (params : DocsCreate.CreateDocumentInput)
      (client : Outcome unit) (created : Outcome DocsCreate.CreateResponse)
      (inserted : Outcome unit)
  | call_docs_batch_update (params : DocsUpdate.BatchUpdateInput Json)
      (client : Outcome unit)
      (response : Outcome (DocsUpdate.BatchUpdateResponse Json))
  | call_sheets_get_spreadsheet (params : SheetsTools.GetSpreadsheetInput)
      (client : Outcome unit) (response : Outcome SheetsTools.Spreadsheet)
  | call_sheets_get_values (params : SheetsGet.GetValuesInput)
      (client : Outcome unit) (response : Outcome SheetsGet.ValuesResponse)
  | call_sheets_batch_get_values (params : SheetsTools.BatchGetValuesInput)
      (client : Outcome unit)
      (response : Outcome SheetsTools.BatchGetValuesResponse)
  | call_sheets_update_values (params : SheetsTools.UpdateValuesInput)
      (client : Outcome unit) (response : Outcome SheetsTools.UpdateValuesResponse)
  | call_sheets_append_values (params : SheetsTools.AppendValuesInput)
      (client : Outcome unit) (response : Outcome SheetsTools.AppendValuesResponse)
  | call_sheets_create_spreadsheet (params : SheetsTools.CreateSpreadsheetInput)
      (client : Outcome unit)
      (create : SheetsTools.SpreadsheetRequest -> Outcome SheetsTools.Spreadsheet)
  | call_sheets_batch_update (params : SheetsTools.BatchUpdateInput Json)
      (client : Outcome unit)
      (response : Outcome (SheetsTools.BatchUpdateResponse Json))
  | call_sheets_clear_values (params : SheetsTools.ClearValuesInput)
      (client : Outcome unit) (response : Outcome SheetsTools.ClearValuesResponse)
  | call_gmail_list_messages (params : GmailList.ListMessagesInput)
      (client : Outcome unit)
      (list_call : GmailList.ListParams -> Outcome GmailList.ListResponse)
      (details : nat -> Outcome Gmail.MessageDetail) (order : list nat)
  | call_gmail_get_message (params : GmailTools.GetMessageInput)
      (client : Outcome unit) (response : Outcome GmailTools.MessageResponse)
  | call_gmail_list_threads (params : GmailTools.ListThreadsInput)
      (client : Outcome unit)
      (list_call : GmailList.ListParams -> Outcome GmailTools.ListThreadsResponse)
      (details : nat -> Outcome Gmail.ThreadDetail) (order : list nat)
  | call_gmail_get_thread (params : GmailTools.GetThreadInput)
      (client : Outcome unit) (response : Outcome GmailTools.ThreadResponse)
  | call_gmail_list_labels (format : ResponseFormat) (client : Outcome unit)
      (response : Outcome (option (list Gmail.Label)))
  | call_drive_list_comments (params : DriveTools.ListCommentsInput)
      (client : Outcome unit) (response : Outcome DriveTools.ListCommentsResponse)
  | call_drive_create_comment (params : DriveTools.CreateCommentInput)
      (client : Outcome unit)
      (create : DriveTools.CommentRequest -> Outcome DriveTools.Created)
  | call_drive_reply_to_comment (params : DriveTools.ReplyToCommentInput)
      (client : Outcome unit) (response : Outcome DriveTools.Created)
  | call_drive_resolve_comment (params : DriveTools.CommentRef)
      (client : Outcome unit) (response : Outcome unit)
  | call_drive_delete_comment (params : DriveTools.CommentRef)
      (client : Outcome unit) (response : Outcome unit)
  | call_drive_list_files (params : DriveTools.ListFilesInput)
      (client : Outcome unit)
      (list_call : DriveTools.FilesRequest -> Outcome DriveTools.FilesResponse)
  | call_drive_search_files (params : DriveTools.SearchFilesInput)
      (client : Outcome unit)
      (list_call : DriveTools.FilesRequest -> Outcome DriveTools.FilesResponse)
  | call_drive_get_file (client : Outcome unit)
      (metadata : Outcome Drive.FileMetadata) (exported media : Outcome (list Z)).

(** The structured content of the tools, each kind under its tool. *)
Inductive Output : Type :=
  | of_docs_get_document (output : Docs.GetDocumentOutput)
  | of_docs_create_document (output : DocsCreate.CreateDocumentOutput)
  | of_docs_batch_update (output : DocsUpdate.BatchUpdateOutput Json)
  | of_sheets_get_spreadsheet (output : SheetsTools.GetSpreadsheetOutput)
  | of_sheets_get_values (output : SheetsGet.GetValuesOutput)
  | of_sheets_batch_get_values (output : SheetsTools.BatchGetValuesOutput)
  | of_sheets_update_values (output : SheetsTools.UpdateValuesOutput)
  | of_sheets_append_values (output : SheetsTools.AppendValuesOutput)
  | of_sheets_create_spreadsheet (output : SheetsTools.CreateSpreadsheetOutput)
  | of_sheets_batch_update (output : SheetsTools.BatchUpdateOutput Json)
  | of_sheets_clear_values (output : SheetsTools.ClearValuesOutput)
  | of_gmail_list_messages (output : GmailList.ListMessagesOutput)
  | of_gmail_get_message (output : GmailTools.GetMessageOutput)
  | of_gmail_list_threads (output : GmailTools.ListThreadsOutput)
  | of_gmail_get_thread (output : GmailTools.GetThreadOutput)
  | of_gmail_list_labels (output : GmailLabels.ListLabelsOutput)
  | of_drive_list_comments (output : DriveTools.ListCommentsOutput)
  | of_drive_created (output : DriveTools.CreatedOutput)
  | of_drive_resolve_comment (output : DriveTools.ResolveOutput)
  | of_drive_delete_comment (output : DriveTools.DeleteOutput)
  | of_drive_files (output : DriveTools.FilesOutput)
  | of_drive_get_file (output : unit).

(** The answer of a handler with its structured content put under its
    tool; the content items and the outcome stay as they are. *)
Definition answer {S : Type} (tool : S -> Output) (result : Outcome (ToolResult S))
    : Outcome (ToolResult Output) :=
  match result with
  | Fulfilled r =>
      Fulfilled {| content := content r;
                   structuredContent := tool <$> structuredContent r |}
  | Rejected e => Rejected e
  end.

(** What the host receives for an invocation; [None] while a listing still
    waits for detail calls. *)
Definition invoke (inv : Invocation) : option (Outcome (ToolResult Output)) :=
  match inv with
  | call_docs_get_document params client response =>
      Some (answer of_docs_get_document
              (Docs.docs_get_document (stringify _) params client response))
  | call_docs_create_document params client created inserted =>
      Some (answer of_docs_create_document
              (DocsCreate.docs_create_document params client created inserted))
  | call_docs_batch_update params client response =>
      Some (answer of_docs_batch_update
              (DocsUpdate.docs_batch_update Json params client response))
  | call_sheets_get_spreadsheet params client response =>
      Some (answer of_sheets_get_spreadsheet
              (SheetsTools.sheets_get_spreadsheet (stringify _) params client
                 response))
  | call_sheets_get_values params client response =>
      Some (answer of_sheets_get_values
              (SheetsGet.sheets_get_values (stringify _) params client response))
  | call_sheets_batch_get_values params client response =>
      Some (answer of_sheets_batch_get_values
              (SheetsTools.sheets_batch_get_values (stringify _) params client
                 response))
  | call_sheets_update_values params client response =>
      Some (answer of_sheets_update_values
              (SheetsTools.sheets_update_values params client response))
  | call_sheets_append_values params client response =>
      Some (answer of_sheets_append_values
              (SheetsTools.sheets_append_values params client response))
  | call_sheets_create_spreadsheet params client create =>
      Some (answer of_sheets_create_spreadsheet
              (SheetsTools.sheets_create_spreadsheet params client create))
  | call_sheets_batch_update params client response =>
      Some (answer of_sheets_batch_update
              (SheetsTools.sheets_batch_update Json params client response))
  | call_sheets_clear_values params client response =>
      Some (answer of_sheets_clear_values
              (SheetsTools.sheets_clear_values params client response))
  | call_gmail_list_messages params client list_call details order =>
      answer of_gmail_list_messages
        <$> GmailList.gmail_list_messages toLowerCase (stringify _) params client
              list_call details order
  | call_gmail_get_message params client response =>
      Some (answer of_gmail_get_message
              (GmailTools.gmail_get_message toLowerCase (stringify _) params client
                 response))
  | call_gmail_list_threads params client list_call details order =>
      answer of_gmail_list_threads
        <$> GmailTools.gmail_list_threads toLowerCase (stringify _) params client
              list_call details order
  | call_gmail_get_thread params client response =>
      Some (answer of_gmail_get_thread
              (GmailTools.gmail_get_thread toLowerCase (stringify _) params client
                 response))
  | call_gmail_list_labels format client response =>
      Some (answer of_gmail_list_labels
              (GmailLabels.gmail_list_labels localeCompare (stringify _) format
                 client response))
  | call_drive_list_comments params client response =>
      Some (answer of_drive_list_comments
              (DriveTools.drive_list_comments (stringify _) params client response))
  | call_drive_create_comment params client create =>
      Some (answer of_drive_created
              (DriveTools.drive_create_comment now params client create))
  | call_drive_reply_to_comment params client response =>
      Some (answer of_drive_created
              (DriveTools.drive_reply_to_comment now params client response))
  | call_drive_resolve_comment params client response =>
      Some (answer of_drive_resolve_comment
              (DriveTools.drive_resolve_comment params client response))
  | call_drive_delete_comment params client response =>
      Some (answer of_drive_delete_comment
              (DriveTools.drive_delete_comment params client response))
  | call_drive_list_files params client list_call =>
      Some (answer of_drive_files
              (DriveTools.drive_list_files formatFileSize Number_of_string inherited
                 (stringify _) params client list_call))
  | call_drive_search_files params client list_call =>
      Some (answer of_drive_files
              (DriveTools.drive_search_files formatFileSize Number_of_string
                 inherited (stringify _) params client list_call))
  | call_drive_get_file client metadata exported media =>
      Some (answer of_drive_get_file
              (Drive.drive_get_file (fun n => formatFileSize (integer n)) client
                 metadata exported media))
  end.

(** *** The steps of an operation

    The specification speaks of the steps of an operation, any of which may
    throw. [steps] lists them for an invocation, in the order in which the
    operation comes to them, each with its outcome and without its value. *)
Definition step {A : Type} (o : Outcome A) : Outcome unit :=
  match o with
  | Fulfilled _ => Fulfilled tt
  | Rejected e => Rejected e
  end.

(** A step that the operation reaches only with the [value] of an earlier
    one. *)
Definition after {A : Type} (o : Outcome A) (next : A -> list (Outcome unit))
    : list (Outcome unit) :=
  match o with
  | Fulfilled value => next value
  | Rejected _ => []
  end.

Definition steps (inv : Invocation) : list (Outcome unit) :=
  match inv with
  | call_docs_get_document _ client response
  | call_docs_batch_update _ client response
  | call_sheets_get_spreadsheet _ client response
  | call_sheets_get_values _ client response
  | call_sheets_batch_get_values _ client response
  | call_sheets_update_values _ client response
  | call_sheets_append_values _ client response
  | call_sheets_batch_update _ client response
  | call_sheets_clear_values _ client response
  | call_gmail_get_message _ client response
  | call_gmail_get_thread _ client response
  | call_gmail_list_labels _ client response
  | call_drive_list_comments _ client response
  | call_drive_reply_to_comment _ client response
  | call_drive_resolve_comment _ client response
  | call_drive_delete_comment _ client response =>
      [step client; step response]
  | call_docs_create_document params client created inserted =>
      (* the getter, the creation, the check of the identifier, and the
         insertion when there is a body *)
      [step client; step created]
      ++ after created (fun response =>
           [ if truthy (default [] (DocsCreate.documentId response))
             then Fulfilled tt
             else Rejected (Value (VError DocsCreate.no_document_id));
             if truthy (default [] (DocsCreate.body_content params))
             then inserted else Fulfilled tt ])
  | call_sheets_create_spreadsheet params client create =>
      [step client; step (create (SheetsTools.create_request params))]
  | call_drive_create_comment params client create =>
      [step client; step (create (DriveTools.comment_request params))]
  | call_drive_list_files params client list_call =>
      [ step client;
        step (list_call
                {| DriveTools.request_q :=
                     DriveList.list_files_query (DriveTools.lf_mime_type params);
                   DriveTools.request_pageSize := DriveTools.lf_page_size params;
                   DriveTools.request_pageToken := DriveTools.lf_page_token params;
                   DriveTools.request_orderBy :=
                     Some (DriveTools.lf_order_by params) |}) ]
  | call_drive_search_files params client list_call =>
      [ step client;
        step (list_call
                {| DriveTools.request_q :=
                     Drive.search_query (DriveTools.sf_query params)
                       (DriveTools.sf_mime_type params);
                   DriveTools.request_pageSize := DriveTools.sf_page_size params;
                   DriveTools.request_pageToken := DriveTools.sf_page_token params;
                   DriveTools.request_orderBy := None |}) ]
  | call_gmail_list_messages params client list_call details order =>
      (* the getter, the list call, and the detail calls as they settle *)
      [step client; step (list_call (GmailList.list_params params))]
      ++ map (fun i => step (details i)) order
  | call_gmail_list_threads params client list_call details order =>
      [step client; step (list_call (GmailTools.list_params params))]
      ++ map (fun i => step (details i)) order
  | call_drive_get_file client metadata exported media =>
      (* the getter, the metadata, and the one download that the type of
         the file calls for *)
      [step client; step metadata]
      ++ after metadata (fun md =>
           [ if startsWith
                  (or_else (Drive.md_mimeType md) (lit "application/octet-stream"))
                  (lit "application/vnd.google-apps.")
             then step exported else step media ])
  end.

(** What the first step that throws has thrown. *)
Fixpoint first_thrown (l : list (Outcome unit)) : option Thrown :=
  match l with
  | [] => None
  | Fulfilled _ :: rest => first_thrown rest
  | Rejected e :: _ => Some e
  end.

(** The awaited calls settle: in a listing every detail call does, once. *)
Definition settles (inv : Invocation) : Prop :=
  match inv with
  | call_gmail_list_messages params _ list_call _ order =>
      forall response,
        list_call (GmailList.list_params params) = Fulfilled response ->
        order ≡ₚ seq 0 (length (default [] (GmailList.messages response)))
  | call_gmail_list_threads params _ list_call _ order =>
      forall response,
        list_call (GmailTools.list_params params) = Fulfilled response ->
        order ≡ₚ seq 0 (length (default [] (GmailTools.lt_threads response)))
  | _ => True
  end.

(** The tool whose answer on success is not of the common shape. *)
Definition is_drive_get_file (inv : Invocation) : bool :=
  match inv with
  | call_drive_get_file _ _ _ _ => true
  | _ => false
  end.

End Runtime.

End Server.

(** * Properties *)

(** ** Strings *)

Lemma startsWith_spec (s p : jsstring) :
  startsWith s p = true <-> exists post, s = p ++ post.
Proof.
  revert s; induction p as [|x p IH]; intros s; simpl.
  - split; [intros _; by exists s | intros _; by destruct s].
  - destruct s as [|y s]; simpl.
    + split; [done | intros [post H]; discriminate].
    + rewrite andb_true_iff, Z.eqb_eq, IH. split.
      * intros [-> [post ->]]. by exists post.
      * intros [post H]. injection H as -> ->. split; [done | by exists post].
Qed.

Lemma includes_unfold (s p : jsstring) :
  includes s p =
  startsWith s p || match s with [] => false | _ :: s' => includes s' p end.
Proof. by destruct s. Qed.

(** [includes] decides the occurrence of [p] as a contiguous substring. *)
Lemma includes_spec (s p : jsstring) :
  includes s p = true <-> exists pre post, s = pre ++ p ++ post.
Proof.
  induction s as [|y s IH]; rewrite includes_unfold, orb_true_iff, startsWith_spec.
  - split.
    + intros [[post H] | H]; [by exists [], post | discriminate].
    + intros (pre & post & H). symmetry in H.
      apply app_eq_nil in H as [-> H]. left. by exists post.
  - rewrite IH. split.
    + intros [[post H] | (pre & post & H)].
      * by exists [], post.
      * exists (y :: pre), post. by rewrite H.
    + intros (pre & post & H). destruct pre as [|z pre]; simpl in H.
      * left. by exists post.
      * right. injection H as -> ->. by exists pre, post.
Qed.

Lemma digits_value (fuel : nat) (n : Z) (acc : jsstring) :
  0 <= n < 2 ^ Z.of_nat fuel ->
  decimal_value (digits fuel n acc)
  = foldl (fun a d => a * 10 + (d - 48)) n acc
  /\ (Forall (fun d => 48 <= d <= 57) acc ->
      Forall (fun d => 48 <= d <= 57) (digits fuel n acc)).
Proof.
  unfold decimal_value. revert n acc.
  induction fuel as [|fuel IH]; intros n acc Hn.
  - assert (n = 0) as -> by (simpl in Hn; lia). done.
  - cbn [digits]. destruct (Z.ltb_spec n 10) as [Hlt|Hge].
    + split.
      * cbn [foldl]. f_equal. Z.div_mod_to_equations; lia.
      * intros Hacc. constructor; [Z.div_mod_to_equations; lia | done].
    + assert (0 <= n / 10 < 2 ^ Z.of_nat fuel) as Hdiv.
      { rewrite Nat2Z.inj_succ, Z.pow_succ_r in Hn by lia.
        Z.div_mod_to_equations; lia. }
      destruct (IH (n / 10) ((48 + n mod 10) :: acc) Hdiv) as [Hvalue Hdigits].
      split.
      * rewrite Hvalue. cbn [foldl]. f_equal. Z.div_mod_to_equations; lia.
      * intros Hacc. apply Hdigits.
        constructor; [Z.div_mod_to_equations; lia | done].
Qed.

(** [String_int] writes a non-negative integer in decimal digits. *)
Lemma String_int_decimal (n : Z) :
  0 <= n ->
  decimal_value (String_int n) = n
  /\ Forall (fun d => 48 <= d <= 57) (String_int n).
Proof.
  intros Hn. unfold String_int. rewrite (proj2 (Z.ltb_ge n 0)) by done.
  assert (0 <= n < 2 ^ Z.of_nat (S (Z.to_nat (Z.log2 n)))) as Hfuel.
  { rewrite Nat2Z.inj_succ, Z2Nat.id by apply Z.log2_nonneg.
    destruct (Z.eq_dec n 0) as [->|Hpos]; [done|].
    split; [done|]. apply Z.log2_spec. lia. }
  destruct (digits_value _ n [] Hfuel) as [Hvalue Hdigits].
  split; [exact Hvalue | by apply Hdigits].
Qed.

(** ** Error classifier *)

(** C4. The classifier follows the priority table (401 or invalid_grant,
    then 403, 404, 429, 400, else the generic message with the original
    text; a value that is not an Error gets the generic message with its
    string coercion), and the text "429 Too Many Requests" is classified
    as rate-limited, which differs from the generic fallback for it. *)
Theorem handleGoogleError_priority (failure : JsValue) :
  GoogleAuth.handleGoogleError failure = GoogleAuth.classify_by_priority failure
  /\ GoogleAuth.handleGoogleError (VError (lit "429 Too Many Requests"))
     = GoogleAuth.msg_rate_limit
  /\ GoogleAuth.msg_rate_limit <> lit "Error: " ++ lit "429 Too Many Requests".
Proof.
  split; [| split; [reflexivity | discriminate]].
  destruct failure as [message| | | | | |]; try reflexivity.
  unfold GoogleAuth.handleGoogleError, GoogleAuth.classify_by_priority,
    GoogleAuth.priority_table, GoogleAuth.first_match, existsb.
  rewrite !orb_false_r.
  destruct (includes message (lit "401")),
    (includes message (lit "invalid_grant")),
    (includes message (lit "403")),
    (includes message (lit "404")),
    (includes message (lit "429")),
    (includes message (lit "400")); reflexivity.
Qed.

Lemma includes_trans (s p q : jsstring) :
  includes s p = true -> includes p q = true -> includes s q = true.
Proof.
  rewrite !includes_spec. intros (pre & post & ->) (pre' & post' & ->).
  exists (pre ++ pre'), (post' ++ post). by rewrite <- !app_assoc.
Qed.

(** A text that holds "429 Too Many Requests" and none of the substrings
    that rank above 429 is classified as rate-limited. *)
Lemma handleGoogleError_too_many_requests (message : jsstring) :
  includes message (lit "429 Too Many Requests") = true ->
  includes message (lit "401") = false ->
  includes message (lit "invalid_grant") = false ->
  includes message (lit "403") = false ->
  includes message (lit "404") = false ->
  GoogleAuth.handleGoogleError (VError message) = GoogleAuth.msg_rate_limit.
Proof.
  intros H429 H401 Hgrant H403 H404. unfold GoogleAuth.handleGoogleError.
  rewrite H401, Hgrant, H403, H404. cbn [orb].
  by rewrite (includes_trans message (lit "429 Too Many Requests") (lit "429")).
Qed.

(** ** Base64 *)

(** Case analysis on every integer comparison of the goal. *)
Ltac zcases :=
  repeat match goal with
    | |- context [Z.ltb ?a ?b] => destruct (Z.ltb_spec a b)
    | |- context [Z.leb ?a ?b] => destruct (Z.leb_spec a b)
    | |- context [Z.eqb ?a ?b] => destruct (Z.eqb_spec a b)
    end;
  simpl.

Lemma replaceAll_single (c d : Z) (s : jsstring) :
  replaceAll c [d] s = map (fun x => if x =? c then d else x) s.
Proof.
  induction s as [|x s IH]; simpl; [done|].
  rewrite IH. by destruct (x =? c).
Qed.

Lemma b64_value_char (v : Z) :
  0 <= v < 64 -> Buffer.b64_value (Buffer.b64_char v) = Some v.
Proof.
  intros Hv. unfold Buffer.b64_value, Buffer.b64_char.
  zcases; try lia; f_equal; lia.
Qed.

Lemma b64_char_plain (v : Z) :
  0 <= v < 64 ->
  Buffer.b64_char v <> 45 /\ Buffer.b64_char v <> 95 /\ Buffer.b64_char v <> 61.
Proof. intros Hv. unfold Buffer.b64_char. zcases; lia. Qed.

(** Outside ['-'] and ['_'] the URL-safe substitution is undone by the
    substitution [decodeBase64] applies. *)
Lemma urlsafe_char_inverse (c : Z) :
  c <> 45 -> c <> 95 ->
  (fun x => if x =? 95 then 47 else x)
    ((fun x => if x =? 45 then 43 else x)
       ((fun x => if x =? 47 then 95 else x)
          ((fun x => if x =? 43 then 45 else x) c))) = c.
Proof.
  intros H45 H95. cbv beta.
  assert (c = 43 \/ c = 47 \/ (c <> 43 /\ c <> 47)) as [-> | [-> | [H43 H47]]]
    by lia; [done..|].
  rewrite (proj2 (Z.eqb_neq c 43)) by done; cbv iota.
  rewrite (proj2 (Z.eqb_neq c 47)) by done; cbv iota.
  rewrite (proj2 (Z.eqb_neq c 45)) by done; cbv iota.
  by rewrite (proj2 (Z.eqb_neq c 95)).
Qed.

Lemma b64_char_byte (v : Z) :
  0 <= v < 64 -> Buffer.b64_char v mod 256 = Buffer.b64_char v.
Proof.
  intros Hv. apply Z.mod_small. unfold Buffer.b64_char. zcases; lia.
Qed.

Lemma b64_sextets_char (h : Z -> Z) (v : Z) (s : jsstring) :
  0 <= v < 64 -> h (Buffer.b64_char v) = Buffer.b64_char v ->
  Buffer.b64_sextets (h (Buffer.b64_char v) :: s) = v :: Buffer.b64_sextets s.
Proof.
  intros Hv ->. cbn [Buffer.b64_sextets]. cbv zeta.
  destruct (b64_char_plain v Hv) as (_ & _ & H61).
  rewrite b64_char_byte, b64_value_char by done.
  by destruct (Z.eqb_spec (Buffer.b64_char v) 61).
Qed.

Lemma list_ind3 {A} (P : list A -> Prop) :
  P [] -> (forall a, P [a]) -> (forall a b, P [a; b]) ->
  (forall a b c l, P l -> P (a :: b :: c :: l)) ->
  forall l, P l.
Proof.
  intros H0 H1 H2 H3.
  assert (forall l, P l /\ (forall a, P (a :: l)) /\ (forall a b, P (a :: b :: l)))
    as H; [| intros l; apply H].
  induction l as [|x l (IH0 & IH1 & IH2)]; [done|].
  split_and!; [done.. |]. intros a b. by apply H3.
Qed.

(** Decoding the base64 text of a byte list gives the bytes back, also
    through the URL-safe substitution and its inverse. *)
Lemma from_base64_toString (h : Z -> Z) (bs : list Z) :
  (forall c, c <> 45 -> c <> 95 -> h c = c) ->
  Forall Buffer.is_byte bs ->
  Buffer.from_base64 (map h (Buffer.toString_base64 bs)) = bs.
Proof.
  intros Hh. unfold Buffer.from_base64, Buffer.is_byte.
  assert (forall v, 0 <= v < 64 -> h (Buffer.b64_char v) = Buffer.b64_char v) as Hc.
  { intros v Hv. destruct (b64_char_plain v Hv) as (? & ? & _). by apply Hh. }
  assert (h 61 = 61) as H61 by (by apply Hh).
  induction bs as [|b0|b0 b1|b0 b1 b2 bs IH] using list_ind3; intros Hb.
  - done.
  - apply Forall_cons_1 in Hb as [H0 _].
    cbn [Buffer.toString_base64 map].
    rewrite !b64_sextets_char by (try apply Hc; Z.div_mod_to_equations; lia).
    rewrite H61. simpl. f_equal. Z.div_mod_to_equations; lia.
  - apply Forall_cons_1 in Hb as [H0 Hb]. apply Forall_cons_1 in Hb as [H1 _].
    cbn [Buffer.toString_base64 map].
    rewrite !b64_sextets_char by (try apply Hc; Z.div_mod_to_equations; lia).
    rewrite H61. simpl. f_equal; [|f_equal]; Z.div_mod_to_equations; lia.
  - apply Forall_cons_1 in Hb as [H0 Hb]. apply Forall_cons_1 in Hb as [H1 Hb].
    apply Forall_cons_1 in Hb as [H2 Hb].
    cbn [Buffer.toString_base64 map].
    rewrite !b64_sextets_char by (try apply Hc; Z.div_mod_to_equations; lia).
    cbn [Buffer.b64_bytes]. rewrite IH by done.
    f_equal; [|f_equal; [|f_equal]]; Z.div_mod_to_equations; lia.
Qed.

(** ** UTF-8 *)

(** Settle every integer comparison of the goal that the context decides. *)
Ltac ztest :=
  repeat match goal with
    | |- context [Z.ltb ?a ?b] =>
        first [rewrite (proj2 (Z.ltb_lt a b)) by lia
              | rewrite (proj2 (Z.ltb_ge a b)) by lia]
    | |- context [Z.leb ?a ?b] =>
        first [rewrite (proj2 (Z.leb_le a b)) by lia
              | rewrite (proj2 (Z.leb_gt a b)) by lia]
    | |- context [Z.eqb ?a ?b] =>
        first [rewrite (proj2 (Z.eqb_eq a b)) by lia
              | rewrite (proj2 (Z.eqb_neq a b)) by lia]
    end;
  cbn [andb orb negb].

(** Settle the test of the conditional at the head of the left-hand side,
    as long as the context decides it. *)
Ltac head_test :=
  repeat (cbv beta iota;
          lazymatch goal with
          | |- (if ?c then _ else _) = _ =>
              let H := fresh in
              first
                [ assert (c = true) as H
                    by (unfold Buffer.between;
                        rewrite ?andb_true_iff, ?Z.leb_le, ?Z.ltb_lt, ?Z.eqb_eq; lia)
                | assert (c = false) as H
                    by (unfold Buffer.between;
                        rewrite ?andb_false_iff, ?Z.leb_gt, ?Z.ltb_ge, ?Z.eqb_neq; lia) ];
              rewrite H; clear H
          end);
  cbv beta iota.

Lemma toString_utf8_1 (b : Z) (r : list Z) :
  0 <= b < 0x80 ->
  Buffer.toString_utf8 (b :: r) = b :: Buffer.toString_utf8 r.
Proof. intros Hb. cbn [Buffer.toString_utf8]. by head_test. Qed.

Lemma toString_utf8_2 (b0 b1 : Z) (r : list Z) :
  0xC2 <= b0 <= 0xDF -> 0x80 <= b1 <= 0xBF ->
  Buffer.toString_utf8 (b0 :: b1 :: r)
  = ((b0 - 0xC0) * 64 + (b1 - 0x80)) :: Buffer.toString_utf8 r.
Proof. intros H0 H1. cbn [Buffer.toString_utf8]. by head_test. Qed.

Lemma toString_utf8_3 (b0 b1 b2 : Z) (r : list Z) :
  0xE0 <= b0 <= 0xEF -> 0x80 <= b1 <= 0xBF -> 0x80 <= b2 <= 0xBF ->
  (b0 = 0xE0 -> 0xA0 <= b1) -> (b0 = 0xED -> b1 <= 0x9F) ->
  Buffer.toString_utf8 (b0 :: b1 :: b2 :: r)
  = ((b0 - 0xE0) * 4096 + (b1 - 0x80) * 64 + (b2 - 0x80))
    :: Buffer.toString_utf8 r.
Proof.
  intros H0 H1 H2 Hlo Hhi. cbn [Buffer.toString_utf8].
  destruct (Z.eqb_spec b0 0xE0) as [E0|E0], (Z.eqb_spec b0 0xED) as [ED|ED];
    try lia; try specialize (Hlo E0); try specialize (Hhi ED); by head_test.
Qed.

Lemma toString_utf8_4 (b0 b1 b2 b3 : Z) (r : list Z) :
  0xF0 <= b0 <= 0xF4 -> 0x80 <= b1 <= 0xBF -> 0x80 <= b2 <= 0xBF ->
  0x80 <= b3 <= 0xBF ->
  (b0 = 0xF0 -> 0x90 <= b1) -> (b0 = 0xF4 -> b1 <= 0x8F) ->
  Buffer.toString_utf8 (b0 :: b1 :: b2 :: b3 :: r)
  = Buffer.utf16_units
      ((b0 - 0xF0) * 262144 + (b1 - 0x80) * 4096 + (b2 - 0x80) * 64 + (b3 - 0x80))
    ++ Buffer.toString_utf8 r.
Proof.
  intros H0 H1 H2 H3 Hlo Hhi. cbn [Buffer.toString_utf8].
  destruct (Z.eqb_spec b0 0xF0) as [F0|F0], (Z.eqb_spec b0 0xF4) as [F4|F4];
    try lia; try specialize (Hlo F0); try specialize (Hhi F4); by head_test.
Qed.

(** Decoding the UTF-8 bytes of a scalar value gives its code units. *)
Lemma toString_utf8_bytes (cp : Z) (r : list Z) :
  Buffer.scalar_value cp ->
  Buffer.toString_utf8 (Buffer.utf8_bytes cp ++ r)
  = Buffer.utf16_units cp ++ Buffer.toString_utf8 r.
Proof.
  intros Hcp. unfold Buffer.scalar_value in Hcp. unfold Buffer.utf8_bytes.
  destruct (Z.ltb_spec cp 0x80); [|destruct (Z.ltb_spec cp 0x800);
    [|destruct (Z.ltb_spec cp 0x10000)]]; cbn [app].
  - rewrite toString_utf8_1 by lia. unfold Buffer.utf16_units. by ztest.
  - rewrite toString_utf8_2 by (Z.div_mod_to_equations; lia).
    unfold Buffer.utf16_units. ztest. cbn [app]. f_equal.
    Z.div_mod_to_equations; lia.
  - rewrite toString_utf8_3 by (Z.div_mod_to_equations; lia).
    unfold Buffer.utf16_units. ztest. cbn [app]. f_equal.
    Z.div_mod_to_equations; lia.
  - rewrite toString_utf8_4 by (Z.div_mod_to_equations; lia).
    do 2 f_equal. Z.div_mod_to_equations; lia.
Qed.

Lemma utf8_bytes_range (cp : Z) :
  0 <= cp < 0x110000 -> Forall Buffer.is_byte (Buffer.utf8_bytes cp).
Proof.
  intros Hcp. unfold Buffer.utf8_bytes, Buffer.is_byte.
  destruct (Z.ltb_spec cp 0x80); [|destruct (Z.ltb_spec cp 0x800);
    [|destruct (Z.ltb_spec cp 0x10000)]];
    repeat apply Forall_cons_2; try apply Forall_nil_2;
    Z.div_mod_to_equations; lia.
Qed.

(** Induction on a list where the step may also use the tail of the tail. *)
Lemma list_ind_pairs {A} (P : list A -> Prop) :
  P [] ->
  (forall a l, P l -> (forall b l', l = b :: l' -> P l') -> P (a :: l)) ->
  forall l, P l.
Proof.
  intros H0 Hstep.
  assert (forall l, P l /\ (forall b l', l = b :: l' -> P l')) as H;
    [| intros l; apply H].
  induction l as [|a l [IH1 IH2]]; [done|].
  split; [by apply Hstep|]. by intros b l' [= _ <-].
Qed.

Lemma from_utf8_cases (u : Z) (s : jsstring) :
  Buffer.well_formed (u :: s) = true ->
  (exists v s', s = v :: s' /\ 0xD800 <= u <= 0xDBFF /\ 0xDC00 <= v <= 0xDFFF
     /\ Buffer.well_formed s' = true
     /\ Buffer.from_utf8 (u :: s)
        = Buffer.utf8_bytes (0x10000 + (u - 0xD800) * 0x400 + (v - 0xDC00))
          ++ Buffer.from_utf8 s')
  \/ (Buffer.scalar_value u /\ u < 0x10000 /\ Buffer.well_formed s = true
      /\ Buffer.from_utf8 (u :: s) = Buffer.utf8_bytes u ++ Buffer.from_utf8 s).
Proof.
  cbn [Buffer.well_formed Buffer.from_utf8]. unfold Buffer.between, Buffer.scalar_value.
  destruct (Z.leb_spec 0xD800 u), (Z.leb_spec u 0xDBFF); cbn [andb].
  1: { destruct s as [|v s']; [done|].
       destruct (Z.leb_spec 0xDC00 v), (Z.leb_spec v 0xDFFF); cbn [andb]; try done.
       intros Hwf. left. exists v, s'. split_and!; try done; lia. }
  all: destruct (Z.leb_spec 0 u), (Z.leb_spec u 0xFFFF), (Z.leb_spec 0xDC00 u),
      (Z.leb_spec u 0xDFFF); cbn [andb negb]; try done; try lia.
  all: intros Hwf; right; split_and!; try done; lia.
Qed.

(** The UTF-8 bytes of a well-formed string decode to the string. *)
Lemma toString_utf8_from_utf8 (s : jsstring) :
  Buffer.well_formed s = true ->
  Buffer.toString_utf8 (Buffer.from_utf8 s) = s.
Proof.
  induction s as [|u s IH1 IH2] using list_ind_pairs; [done|].
  intros Hwf.
  destruct (from_utf8_cases u s Hwf)
    as [(v & s' & -> & Hu & Hv & Hwf' & ->) | (Hu & Hlt & Hwf' & ->)].
  - rewrite toString_utf8_bytes by (unfold Buffer.scalar_value; lia).
    rewrite (IH2 v s') by done.
    unfold Buffer.utf16_units. ztest. cbn [app].
    f_equal; [|f_equal]; Z.div_mod_to_equations; lia.
  - rewrite toString_utf8_bytes, IH1 by done.
    unfold Buffer.utf16_units. by ztest.
Qed.

Lemma from_utf8_bytes (s : jsstring) :
  Buffer.well_formed s = true -> Forall Buffer.is_byte (Buffer.from_utf8 s).
Proof.
  induction s as [|u s IH1 IH2] using list_ind_pairs; [by constructor|].
  intros Hwf.
  destruct (from_utf8_cases u s Hwf)
    as [(v & s' & -> & Hu & Hv & Hwf' & ->) | (Hu & Hlt & Hwf' & ->)];
    apply Forall_app_2.
  - apply utf8_bytes_range. lia.
  - by apply (IH2 v s').
  - apply utf8_bytes_range. unfold Buffer.scalar_value in Hu. lia.
  - by apply IH1.
Qed.

(** C6. Encoding a well-formed string (printable ASCII or any text with a
    UTF-8 encoding) in URL-safe base64 and decoding it with [decodeBase64]
    gives the string back. *)
Theorem decodeBase64_roundtrip (text : jsstring) :
  Buffer.well_formed text = true ->
  Gmail.decodeBase64 (Gmail.encodeBase64Url text) = text.
Proof.
  intros Hwf. unfold Gmail.decodeBase64, Gmail.encodeBase64Url.
  change (lit "/") with [47]. change (lit "+") with [43].
  change (lit "_") with [95]. change (lit "-") with [45].
  rewrite !replaceAll_single, !map_map.
  rewrite from_base64_toString.
  - by apply toString_utf8_from_utf8.
  - intros c H45 H95. by apply urlsafe_char_inverse.
  - by apply from_utf8_bytes.
Qed.

Lemma decodeBase64_roundtrip_witness :
  let text := lit "a>b?~ " ++ [0xE9; 0x4E2D; 0xD83D; 0xDE00; 0xFFFF] in
  Gmail.encodeBase64Url text = lit "YT5iP34gw6nkuK3wn5iA77-_"
  /\ Gmail.decodeBase64 (Gmail.encodeBase64Url text) = text.
Proof.
  split; [reflexivity|].
  apply (decodeBase64_roundtrip (lit "a>b?~ " ++ [0xE9; 0x4E2D; 0xD83D; 0xDE00; 0xFFFF])).
  reflexivity.
Defined.

(** ** Mail body extraction *)

Lemma first_data_find (mime : jsstring) (ps : list Gmail.MessagePart) :
  Gmail.first_data mime ps
  = match find (Gmail.has_data mime) ps with
    | Some part => Gmail.body_data part
    | None => None
    end.
Proof.
  induction ps as [|part ps IH]; [done|].
  cbn [Gmail.first_data find]. unfold Gmail.has_data at 1.
  destruct (Gmail.mime_is mime part); cbn [andb]; [|done].
  destruct (Gmail.body_data part) as [d|] eqn:Hd.
  - rewrite bool_decide_eq_true_2 by eauto. simpl. by rewrite Hd.
  - by rewrite bool_decide_eq_false_2 by (by intros [? ?]).
Qed.

Lemma find_has_data (mime : jsstring) (ps : list Gmail.MessagePart)
    (part : Gmail.MessagePart) :
  find (Gmail.has_data mime) ps = Some part -> is_Some (Gmail.body_data part).
Proof.
  intros H. apply find_some in H as [_ H]. unfold Gmail.has_data in H.
  apply andb_true_iff in H as [_ H]. by apply bool_decide_eq_true in H.
Qed.

(** C1 (as the code has it). [extractBody] gives the empty string for a
    missing payload; the decoded inline data of the payload when it has
    any; otherwise the decoded data of the first direct child part of type
    text/plain that has data, whatever HTML parts stand beside it;
    otherwise the first direct child of type text/html that has data,
    decoded and stripped of markup; otherwise the first non-empty result
    of the child parts taken in order, and the empty string when there is
    none. *)
Theorem extractBody_direct_policy (payload : Gmail.MessagePart) :
  Gmail.extractBody None = []
  /\ Gmail.extractBody (Some payload) = Gmail.direct_policy payload.
Proof.
  split; [done|]. unfold Gmail.extractBody, Gmail.direct_policy, Gmail.children.
  destruct payload as [m b ps]. cbn [Gmail.extractBody_part].
  destruct (Gmail.body_data _) as [d|]; [done|]. cbn [Gmail.parts].
  destruct ps as [ps|]; [|done].
  rewrite !first_data_find.
  destruct (find (Gmail.has_data (lit "text/plain")) ps) as [part|] eqn:Hplain.
  { destruct (find_has_data _ _ _ Hplain) as [d Hd]. simpl. by rewrite Hd. }
  destruct (find (Gmail.has_data (lit "text/html")) ps) as [part|] eqn:Hhtml.
  { destruct (find_has_data _ _ _ Hhtml) as [d Hd]. simpl. by rewrite Hd. }
  simpl. clear. induction ps as [|part ps IH]; [done|].
  cbn [map List.filter].
  destruct (truthy (Gmail.extractBody_part part)); [done|]. apply IH.
Qed.

(** C1 (as stated) fails: the message holds a text/plain part, one level
    below its first child, yet the HTML sibling of that child is what is
    returned. *)
Lemma extractBody_nested_plain_counterexample :
  In Gmail.nested_plain_part (Gmail.all_parts Gmail.nested_plain_message)
  /\ Gmail.mimeType Gmail.nested_plain_part = Some (lit "text/plain")
  /\ (Gmail.decodeBase64 <$> Gmail.body_data Gmail.nested_plain_part)
     = Some (lit "plain")
  /\ Gmail.extractBody (Some Gmail.nested_plain_message) = lit "html"
  /\ Gmail.extractBody (Some Gmail.nested_plain_message) <> lit "plain".
Proof.
  split_and!; [simpl; tauto | reflexivity | reflexivity | reflexivity |].
  by vm_compute.
Qed.

(** ** Document text extraction *)

Lemma join_empty (parts : list jsstring) : join [] parts = concat parts.
Proof.
  induction parts as [|p parts IH]; [done|].
  destruct parts as [|q parts]; [simpl; by rewrite app_nil_r|].
  change (join [] (p :: q :: parts)) with (p ++ [] ++ join [] (q :: parts)).
  by rewrite IH.
Qed.

Lemma push_runs_app (textParts : list jsstring) (elems : list Docs.ParagraphElement) :
  concat (Docs.push_runs textParts elems)
  = concat textParts ++ concat (map Docs.run_text elems).
Proof.
  revert textParts. induction elems as [|elem elems IH]; intros textParts; simpl.
  - by rewrite app_nil_r.
  - unfold Docs.run_text at 1.
    destruct (Docs.textRun elem) as [[[text|]]|]; simpl; try apply IH.
    destruct text as [|c text]; simpl; [apply IH|].
    rewrite IH, concat_app. simpl. by rewrite app_nil_r, <- app_assoc.
Qed.

Lemma push_elements_app (textParts : list jsstring)
    (blocks : list Docs.StructuralElement) :
  concat (Docs.push_elements textParts blocks)
  = concat textParts ++ Docs.flatten_blocks blocks.
Proof.
  revert textParts. unfold Docs.flatten_blocks.
  induction blocks as [|element blocks IH]; intros textParts; simpl.
  - by rewrite app_nil_r.
  - rewrite IH. unfold Docs.block_text at 2, Docs.paragraph_text.
    destruct element as [[[[elems|]]|] [t|]]; simpl;
      rewrite ?concat_app, ?push_runs_app; simpl;
      rewrite ?app_nil_r, <- ?app_assoc; reflexivity.
Qed.

(** C2. The text of a document body is the concatenation, in document
    order, of the literal text of the runs of its paragraphs, with the
    marker [[TABLE]] for every table; what the table holds does not reach
    the output; a missing body and a body without blocks give the empty
    string. *)
Theorem extractTextFromBody_flatten (blocks before after : list Docs.StructuralElement)
    (t : Docs.Table) :
  Docs.extractTextFromBody (Some {| Docs.body_content := Some blocks |})
  = Docs.flatten_blocks blocks
  /\ Docs.extractTextFromBody
       (Some {| Docs.body_content := Some (before ++ Docs.table_block t :: after) |})
     = Docs.extractTextFromBody (Some {| Docs.body_content := Some before |})
       ++ lit "[TABLE]"
       ++ Docs.extractTextFromBody (Some {| Docs.body_content := Some after |})
  /\ Docs.extractTextFromBody None = []
  /\ Docs.extractTextFromBody (Some {| Docs.body_content := None |}) = []
  /\ Docs.extractTextFromBody (Some {| Docs.body_content := Some [] |}) = [].
Proof.
  assert (forall l, Docs.extractTextFromBody (Some {| Docs.body_content := Some l |})
                    = Docs.flatten_blocks l) as Hflat.
  { intros l. unfold Docs.extractTextFromBody. simpl.
    by rewrite join_empty, push_elements_app. }
  split_and!; try done.
  rewrite !Hflat. unfold Docs.flatten_blocks.
  by rewrite map_app, concat_app.
Qed.

(** ** Tabular rendering *)

Lemma foldl_push {A} (f : A -> jsstring) (rows : list A) (lines : list jsstring) :
  foldl (fun lines row => lines ++ [f row]) lines rows = lines ++ map f rows.
Proof.
  revert lines. induction rows as [|row rows IH]; intros lines; simpl.
  - by rewrite app_nil_r.
  - by rewrite IH, <- app_assoc.
Qed.

Lemma imap_map_seq {A B} (g : nat -> B) (l : list A) (j : nat) :
  imap (fun i _ => g (j + i)%nat) l = map g (seq j (length l)).
Proof.
  revert j. induction l as [|x l IH]; intros j; [done|].
  rewrite imap_cons. cbn [length seq map]. rewrite Nat.add_0_r. f_equal.
  rewrite <- IH. apply imap_ext. intros i y _. simpl. f_equal. lia.
Qed.

Lemma map_const_replicate {A B} (c : B) (l : list A) :
  map (fun _ => c) l = replicate (length l) c.
Proof. induction l as [|x l IH]; [done|]. simpl. by rewrite IH. Qed.

Lemma headers_seq (row0 : list Sheets.Cell) :
  imap (fun i _ => lit "Col " ++ String_int (Z.of_nat i + 1)) row0
  = map (fun k => lit "Col " ++ String_int (Z.of_nat k)) (seq 1 (length row0)).
Proof.
  rewrite <- (imap_map_seq (fun k => lit "Col " ++ String_int (Z.of_nat k))).
  apply imap_ext. intros i x _. cbv beta. do 2 f_equal. lia.
Qed.

(** The text the code gives a cell is the cell stringified, for every kind
    of cell. *)
Lemma cell_text_stringified (cell : Sheets.Cell) :
  Sheets.cell_text cell = Sheets.stringified cell.
Proof. by destruct cell as [s|x|[]|]. Qed.

(** C8. For a grid with at least one row the rendering is the markdown
    table whose header cells are [Col 1], [Col 2], ... as many as the first
    row has cells, followed by one line per row of the grid, in order, every
    cell as its string and a null cell as the empty string; the grid
    [[["a","b"],["c","d"]]] gives the header [| Col 1 | Col 2 |] and two
    data lines. *)
Theorem formatValuesAsMarkdown_table (row0 : list Sheets.Cell)
    (rest : list (list Sheets.Cell)) (range : jsstring) :
  Sheets.formatValuesAsMarkdown (Some (row0 :: rest)) range
  = Sheets.markdown_table (row0 :: rest) range
  /\ Sheets.cell_text Sheets.CellNull = []
  /\ Sheets.formatValuesAsMarkdown
       (Some [ [Sheets.CellString (lit "a"); Sheets.CellString (lit "b")];
               [Sheets.CellString (lit "c"); Sheets.CellString (lit "d")] ])
       (lit "Sheet1!A1:B2")
     = lit "## Data from Sheet1!A1:B2" ++ nl ++ nl
       ++ lit "| Col 1 | Col 2 |" ++ nl
       ++ lit "| --- | --- |" ++ nl
       ++ lit "| a | b |" ++ nl
       ++ lit "| c | d |".
Proof.
  split_and!; [|done|reflexivity].
  unfold Sheets.formatValuesAsMarkdown, Sheets.markdown_table, Sheets.table_line.
  rewrite foldl_push, headers_seq. cbn [head default].
  rewrite <- !app_assoc. cbn [app]. do 5 f_equal.
  rewrite map_const_replicate, length_map, length_seq. do 3 f_equal.
  apply map_ext. intros row. do 3 f_equal. apply map_ext, cell_text_stringified.
Qed.

(** ** Truncation of the markdown rendering *)

Lemma truncate_length (text marker : jsstring) :
  CHARACTER_LIMIT < jslength text ->
  jslength (substring0 text CHARACTER_LIMIT ++ marker)
  = CHARACTER_LIMIT + jslength marker.
Proof.
  unfold jslength, substring0, CHARACTER_LIMIT. intros Hlen.
  rewrite length_app, length_take. lia.
Qed.

Lemma truncate_prefix (text marker : jsstring) :
  CHARACTER_LIMIT < jslength text ->
  substring0 (substring0 text CHARACTER_LIMIT ++ marker) CHARACTER_LIMIT
  = substring0 text CHARACTER_LIMIT.
Proof.
  unfold jslength, substring0, CHARACTER_LIMIT. intros Hlen.
  rewrite take_app_le by (rewrite length_take; lia).
  rewrite take_take. f_equal; lia.
Qed.

Lemma join_snoc (sep : jsstring) (parts : list jsstring) (last : jsstring) :
  parts <> [] -> join sep (parts ++ [last]) = join sep parts ++ sep ++ last.
Proof.
  induction parts as [|p parts IH]; [done|]. intros _.
  destruct parts as [|q parts]; [done|].
  change (join sep ((p :: q :: parts) ++ [last]))
    with (p ++ sep ++ join sep ((q :: parts) ++ [last])).
  rewrite IH by done.
  change (join sep (p :: q :: parts)) with (p ++ sep ++ join sep (q :: parts)).
  by rewrite <- !app_assoc.
Qed.

(** C3 (as the code has it). The two value readers of the sheets module cut
    the whole rendering: when it is longer than 25,000 code units, the text
    returned is its first 25,000 code units followed by the marker, so its
    length is 25,000 plus the length of the marker and its first 25,000 code
    units are those of the rendering. The document reader applies the
    budget to the extracted text alone: when that text is longer than
    25,000 code units, the content section is its first 25,000 code units
    followed by the content marker, below the untouched heading lines. *)
Theorem markdown_truncation (values : list (list Sheets.Cell)) (range : jsstring)
    (valueRanges : list Sheets.ValueRange) (output : Docs.GetDocumentOutput) :
  (CHARACTER_LIMIT < jslength (Sheets.formatValuesAsMarkdown (Some values) range) ->
   let natural := Sheets.formatValuesAsMarkdown (Some values) range in
   let returned := Sheets.get_values_markdown values range in
   returned = substring0 natural CHARACTER_LIMIT ++ Sheets.data_truncated
   /\ jslength returned = CHARACTER_LIMIT + jslength Sheets.data_truncated
   /\ substring0 returned CHARACTER_LIMIT = substring0 natural CHARACTER_LIMIT)
  /\ (CHARACTER_LIMIT < jslength (Sheets.batch_natural valueRanges) ->
      let natural := Sheets.batch_natural valueRanges in
      let returned := Sheets.batch_get_values_markdown valueRanges in
      returned = substring0 natural CHARACTER_LIMIT ++ Sheets.data_truncated
      /\ jslength returned = CHARACTER_LIMIT + jslength Sheets.data_truncated
      /\ substring0 returned CHARACTER_LIMIT = substring0 natural CHARACTER_LIMIT)
  /\ (CHARACTER_LIMIT < jslength (Docs.out_textContent output) ->
      Docs.document_markdown output
      = join nl (Docs.document_heading output) ++ nl
        ++ substring0 (Docs.out_textContent output) CHARACTER_LIMIT
        ++ Docs.content_truncated).
Proof.
  split_and!.
  - intros Hlen natural returned. subst natural returned.
    unfold Sheets.get_values_markdown.
    rewrite (proj2 (Z.ltb_lt _ _) Hlen).
    split_and!; [done | by apply truncate_length | by apply truncate_prefix].
  - intros Hlen natural returned. subst natural returned.
    unfold Sheets.batch_get_values_markdown.
    rewrite (proj2 (Z.ltb_lt _ _) Hlen).
    split_and!; [done | by apply truncate_length | by apply truncate_prefix].
  - intros Hlen. unfold Docs.document_markdown.
    rewrite (proj2 (Z.ltb_lt _ _) Hlen). by rewrite join_snoc.
Qed.

Lemma markdown_truncation_witness :
  jslength (Sheets.get_values_markdown Sheets.long_grid (lit "A1"))
  = CHARACTER_LIMIT + jslength Sheets.data_truncated
  /\ jslength (Sheets.batch_get_values_markdown
                 [ {| Sheets.vr_range := None; Sheets.vr_majorDimension := None;
                      Sheets.vr_values := Sheets.long_grid |} ])
     = CHARACTER_LIMIT + jslength Sheets.data_truncated
  /\ Docs.document_markdown Docs.long_document
     = join nl (Docs.document_heading Docs.long_document) ++ nl
       ++ substring0 (Docs.out_textContent Docs.long_document) CHARACTER_LIMIT
       ++ Docs.content_truncated.
Proof.
  destruct (markdown_truncation Sheets.long_grid (lit "A1")
              [ {| Sheets.vr_range := None; Sheets.vr_majorDimension := None;
                   Sheets.vr_values := Sheets.long_grid |} ]
              Docs.long_document) as (Hget & Hbatch & Hdoc).
  assert (CHARACTER_LIMIT
          < jslength (Sheets.formatValuesAsMarkdown (Some Sheets.long_grid) (lit "A1")))
    as Hnatural by (vm_compute; reflexivity).
  assert (CHARACTER_LIMIT
          < jslength (Sheets.batch_natural
                        [ {| Sheets.vr_range := None; Sheets.vr_majorDimension := None;
                             Sheets.vr_values := Sheets.long_grid |} ]))
    as Hbatch_natural by (vm_compute; reflexivity).
  assert (CHARACTER_LIMIT < jslength (Docs.out_textContent Docs.long_document))
    as Htext by (vm_compute; reflexivity).
  destruct (Hget Hnatural) as (_ & Hlen & _).
  destruct (Hbatch Hbatch_natural) as (_ & Hlen' & _).
  exact (conj Hlen (conj Hlen' (Hdoc Htext))).
Defined.

(** C3 (as stated) fails. The rendering of a document with 25,001 letters
    of text is longer than the budget, and the text returned is longer than
    25,000 plus the marker, since the heading lines come on top. The
    rendering of a thread list is returned whole however long it is. *)
Lemma markdown_truncation_counterexample :
  CHARACTER_LIMIT < jslength (Docs.document_markdown_natural Docs.long_document)
  /\ jslength (Docs.document_markdown Docs.long_document)
     <> CHARACTER_LIMIT + jslength Docs.content_truncated
  /\ CHARACTER_LIMIT < jslength (Gmail.list_threads_markdown [Gmail.long_thread] None)
  /\ jslength (Gmail.list_threads_markdown [Gmail.long_thread] None)
     <> CHARACTER_LIMIT + jslength Sheets.data_truncated
  /\ jslength (Gmail.list_threads_markdown [Gmail.long_thread] None)
     <> CHARACTER_LIMIT + jslength Docs.content_truncated.
Proof.
  split_and!; try (vm_compute; reflexivity);
    intros H; vm_compute in H; discriminate H.
Qed.

(** ** Drive search expression *)

Lemma escape_quotes_flat_map (query : jsstring) :
  Drive.escape_quotes query
  = flat_map (fun c => if c =? 39 then [92; 39] else [c]) query.
Proof. unfold Drive.escape_quotes. induction query as [|c q IH]; simpl; by f_equal. Qed.

Lemma search_query_all (query : jsstring) :
  Drive.search_query query Drive.all
  = lit "trashed = false and fullText contains '"
    ++ Drive.escape_quotes query ++ lit "'".
Proof. reflexivity. Qed.

(** Without a backslash in the query the quoted operand is read back whole:
    it ends at the quote the handler appends. *)
Lemma read_quoted_escape (query rest : jsstring) :
  ~ In 92 query ->
  Drive.read_quoted (Drive.escape_quotes query ++ lit "'" ++ rest)
  = Some (Drive.escape_quotes query, rest).
Proof.
  unfold Drive.escape_quotes.
  change (lit "\'") with [92; 39]. change (lit "'" ++ rest) with (39 :: rest).
  induction query as [|c q IH]; intros Hq; [done|].
  assert (c <> 92) as Hc by (intros ->; apply Hq; by left).
  assert (~ In 92 q) as Hq' by (intros Hin; apply Hq; by right).
  cbn [replaceAll]. destruct (Z.eqb_spec c 39) as [->|Hc'].
  - cbn [app Drive.read_quoted].
    change (92 =? 39) with false. change (92 =? 92) with true. cbv iota.
    by rewrite IH.
  - cbn [app Drive.read_quoted].
    rewrite (proj2 (Z.eqb_neq c 39)), (proj2 (Z.eqb_neq c 92)) by done.
    by rewrite IH.
Qed.

(** C10 at the query made of a backslash and a quote. The handler puts a
    backslash before the quote and leaves the backslash of the query as it
    is, so the operand reads as an escaped backslash closed by the quote of
    the query, and the quote that the handler appends is left over. *)
Theorem search_query_backslash_quote :
  Drive.search_query (lit "\'") Drive.all
  = lit "trashed = false and fullText contains '\\''"
  /\ Drive.read_quoted
       (Drive.after_opening_quote (Drive.search_query (lit "\'") Drive.all))
     = Some (lit "\\", lit "'")
  /\ Drive.escape_quotes (lit "\'") <> lit "\\".
Proof. split_and!; [reflexivity | reflexivity | discriminate]. Qed.

(** ** Label order *)

Section LabelOrder.

Variable localeCompare : jsstring -> jsstring -> Z.

(** The collation is a total preorder. *)
Hypothesis localeCompare_total :
  forall a b, localeCompare a b <= 0 \/ localeCompare b a <= 0.
Hypothesis localeCompare_trans :
  forall a b c,
    localeCompare a b <= 0 -> localeCompare b c <= 0 -> localeCompare a c <= 0.

Local Abbreviation before := (Gmail.label_before localeCompare).
Local Abbreviation by_name := (Gmail.by_name localeCompare).

Lemma before_total (a b : Gmail.LabelData) : before a b \/ before b a.
Proof.
  unfold Gmail.label_before, Gmail.compare_labels.
  destruct (Gmail.is_system a), (Gmail.is_system b); simpl;
    first [apply localeCompare_total | lia].
Qed.

Lemma before_trans (a b c : Gmail.LabelData) :
  before a b -> before b c -> before a c.
Proof.
  unfold Gmail.label_before, Gmail.compare_labels.
  destruct (Gmail.is_system a), (Gmail.is_system b), (Gmail.is_system c); simpl;
    first [apply localeCompare_trans | lia].
Qed.

Lemma sort_insert_Permutation (x : Gmail.LabelData) (l : list Gmail.LabelData) :
  sort_insert (Gmail.compare_labels localeCompare) x l ≡ₚ x :: l.
Proof.
  induction l as [|y l IH]; [done|]. cbn [sort_insert].
  destruct (_ <=? 0); [done|]. rewrite IH. apply Permutation_swap.
Qed.

Lemma sort_insert_sorted (x : Gmail.LabelData) (l : list Gmail.LabelData) :
  StronglySorted before l ->
  StronglySorted before (sort_insert (Gmail.compare_labels localeCompare) x l).
Proof.
  induction 1 as [|y l Hl IH Hy]; [repeat constructor|]. cbn [sort_insert].
  destruct (Z.leb_spec (Gmail.compare_labels localeCompare x y) 0) as [Hxy|Hxy].
  - constructor; [by constructor|]. constructor; [done|].
    eapply Forall_impl; [exact Hy|]. intros z Hyz. by apply (before_trans x y z).
  - constructor; [done|]. rewrite sort_insert_Permutation.
    constructor; [|done].
    destruct (before_total x y) as [H|H]; [|done].
    unfold Gmail.label_before in H. lia.
Qed.

Lemma Array_sort_Permutation (l : list Gmail.LabelData) :
  Array_sort (Gmail.compare_labels localeCompare) l ≡ₚ l.
Proof.
  induction l as [|x l IH]; [done|]. unfold Array_sort in *. cbn [foldr].
  by rewrite sort_insert_Permutation, IH.
Qed.

Lemma Array_sort_sorted (l : list Gmail.LabelData) :
  StronglySorted before (Array_sort (Gmail.compare_labels localeCompare) l).
Proof.
  induction l as [|x l IH]; [constructor|]. unfold Array_sort in *.
  cbn [foldr]. by apply sort_insert_sorted.
Qed.

Lemma before_system (a b : Gmail.LabelData) :
  before a b -> Gmail.is_system b = true -> Gmail.is_system a = true.
Proof.
  unfold Gmail.label_before, Gmail.compare_labels. intros Hab Hb. rewrite Hb in Hab.
  destruct (Gmail.is_system a); [done | simpl in Hab; lia].
Qed.

Lemma before_by_name (a b : Gmail.LabelData) :
  Gmail.is_system a = Gmail.is_system b -> before a b -> by_name a b.
Proof.
  unfold Gmail.label_before, Gmail.by_name, Gmail.compare_labels. intros ->.
  by destruct (Gmail.is_system b).
Qed.

Lemma sorted_system_first (l : list Gmail.LabelData) :
  StronglySorted before l ->
  l = List.filter Gmail.is_system l
      ++ List.filter (fun x => negb (Gmail.is_system x)) l.
Proof.
  induction 1 as [|x l Hl IH Hx]; [done|]. cbn [List.filter].
  destruct (Gmail.is_system x) eqn:Hsys; cbn [negb app]; [by rewrite <- IH|].
  assert (List.filter Gmail.is_system l = []) as Hnone.
  { clear IH Hl. induction l as [|y l IHl]; [done|].
    apply Forall_cons_1 in Hx as [Hxy Hx]. cbn [List.filter].
    destruct (Gmail.is_system y) eqn:Hy; [|by apply IHl].
    apply before_system in Hxy; [congruence | done]. }
  rewrite Hnone in *. cbn [app] in *. by rewrite <- IH.
Qed.

Lemma sorted_filter_by_name (keep : bool) (l : list Gmail.LabelData) :
  StronglySorted before l ->
  StronglySorted by_name
    (List.filter (fun x => bool_decide (Gmail.is_system x = keep)) l).
Proof.
  induction 1 as [|x l Hl IH Hx]; [constructor|]. cbn [List.filter].
  case_bool_decide as Hkeep; [|done]. constructor; [done|].
  clear IH Hl. induction l as [|y l IHl]; [constructor|].
  apply Forall_cons_1 in Hx as [Hxy Hx]. cbn [List.filter].
  case_bool_decide as Hy; [|by apply IHl].
  constructor; [|by apply IHl]. apply before_by_name; congruence.
Qed.

(** C7. The sorted labels are a permutation of the labels of the response;
    every system label comes before every other label; the system labels
    are in the order of their names, and so are the other labels. *)
Theorem sorted_labels_order (labels : list Gmail.Label) :
  let sorted := Gmail.sorted_labels localeCompare labels in
  sorted ≡ₚ map Gmail.label_data labels
  /\ sorted = List.filter Gmail.is_system sorted
              ++ List.filter (fun x => negb (Gmail.is_system x)) sorted
  /\ StronglySorted by_name (List.filter Gmail.is_system sorted)
  /\ StronglySorted by_name
       (List.filter (fun x => negb (Gmail.is_system x)) sorted).
Proof.
  intros sorted.
  assert (StronglySorted before sorted) as Hsorted
    by apply Array_sort_sorted.
  split_and!.
  - apply Array_sort_Permutation.
  - by apply sorted_system_first.
  - rewrite (filter_ext _ (fun x => bool_decide (Gmail.is_system x = true))).
    + by apply sorted_filter_by_name.
    + intros x. by destruct (Gmail.is_system x).
  - rewrite (filter_ext _ (fun x => bool_decide (Gmail.is_system x = false))).
    + by apply sorted_filter_by_name.
    + intros x. by destruct (Gmail.is_system x).
Qed.

End LabelOrder.

Lemma codeUnitCompare_total (a b : jsstring) :
  Gmail.codeUnitCompare a b <= 0 \/ Gmail.codeUnitCompare b a <= 0.
Proof.
  revert b. induction a as [|x a IH]; intros [|y b]; cbn; try lia.
  destruct (Z.ltb_spec x y), (Z.ltb_spec y x); try lia. apply IH.
Qed.

Lemma codeUnitCompare_trans (a b c : jsstring) :
  Gmail.codeUnitCompare a b <= 0 -> Gmail.codeUnitCompare b c <= 0 ->
  Gmail.codeUnitCompare a c <= 0.
Proof.
  revert b c. induction a as [|x a IH]; intros [|y b] [|z c]; cbn; try lia.
  destruct (Z.ltb_spec x y), (Z.ltb_spec y x), (Z.ltb_spec y z),
    (Z.ltb_spec z y), (Z.ltb_spec x z), (Z.ltb_spec z x); try lia.
  apply IH.
Qed.

Lemma sorted_labels_order_witness :
  let label name type :=
    {| Gmail.api_id := Some name; Gmail.api_name := Some name;
       Gmail.api_type := type |} in
  let labels :=
    [ label (lit "Work") (Some (lit "user")); label (lit "SENT") (Some (lit "system"));
      label (lit "Bills") None; label (lit "INBOX") (Some (lit "system")) ] in
  map Gmail.label_name (Gmail.sorted_labels Gmail.codeUnitCompare labels)
  = [lit "INBOX"; lit "SENT"; lit "Bills"; lit "Work"]
  /\ Gmail.sorted_labels Gmail.codeUnitCompare labels ≡ₚ map Gmail.label_data labels.
Proof.
  intros label labels. split; [reflexivity|].
  apply (sorted_labels_order Gmail.codeUnitCompare
           codeUnitCompare_total codeUnitCompare_trans labels).
Defined.

(** ** Concurrent detail fetches *)

Lemma omap_id_Some {A} (l : list A) : omap id (map Some l) = l.
Proof. induction l as [|v l IH]; [done|]. simpl. f_equal. apply IH. Qed.

Section PromiseAll.

Context {A : Type}.
Variable vs : list A.

Local Abbreviation promises := (map Fulfilled vs).

(** The array of values once the promises of [settled] have fulfilled. *)
Local Abbreviation filled settled :=
  (imap (fun i v => if bool_decide (i ∈ settled) then Some v else None) vs).

Lemma filled_lookup (settled : list nat) (i : nat) :
  filled settled !! i
  = (fun v => if bool_decide (i ∈ settled) then Some v else None) <$> vs !! i.
Proof. by rewrite list_lookup_imap. Qed.

Lemma filled_nil : filled [] = replicate (length vs) None.
Proof.
  apply list_eq. intros i. rewrite filled_lookup.
  destruct (vs !! i) as [v|] eqn:Hv; simpl.
  - symmetry. apply lookup_replicate_2. by apply lookup_lt_Some in Hv.
  - symmetry. apply lookup_ge_None. rewrite length_replicate.
    by apply lookup_ge_None in Hv.
Qed.

Lemma filled_insert (settled : list nat) (i : nat) (v : A) :
  vs !! i = Some v ->
  <[i := Some v]> (filled settled) = filled (settled ++ [i]).
Proof.
  intros Hv. apply list_eq. intros j. rewrite filled_lookup.
  destruct (decide (i = j)) as [<-|Hij].
  - rewrite list_lookup_insert_eq
      by (rewrite length_imap; by apply lookup_lt_Some in Hv).
    rewrite Hv. simpl. rewrite bool_decide_eq_true_2; [done|].
    apply elem_of_app. right. by apply list_elem_of_singleton.
  - rewrite list_lookup_insert_ne, filled_lookup by done.
    destruct (vs !! j); simpl; [|done].
    apply option_eq. intros w. repeat case_bool_decide; try done.
    + exfalso. apply H0. apply elem_of_app. by left.
    + exfalso. apply elem_of_app in H0 as [?|Hj]; [done|].
      apply list_elem_of_singleton in Hj. congruence.
Qed.

Lemma filled_all (settled : list nat) :
  (forall i, (i < length vs)%nat -> i ∈ settled) ->
  omap id (filled settled) = vs.
Proof.
  intros Hall.
  assert (filled settled = map Some vs) as ->.
  { apply list_eq. intros i. rewrite filled_lookup, list_lookup_fmap.
    destruct (vs !! i) eqn:Hv; simpl; [|done].
    rewrite bool_decide_eq_true_2; [done|].
    apply Hall. by apply lookup_lt_Some in Hv. }
  apply omap_id_Some.
Qed.

(** The state of the aggregate after the promises of [settled] have
    fulfilled, [pending] being the ones still to settle. *)
Lemma all_settle_fulfilled (settled pending : list nat) :
  settled ++ pending ≡ₚ seq 0 (length vs) ->
  foldl (all_settle promises) (all_init (length promises)) settled
  = {| all_values := filled settled;
       all_remaining := length pending;
       all_settled :=
         match pending with
         | [] => Some (Fulfilled vs)
         | _ :: _ => None
         end |}.
Proof.
  revert pending. induction settled as [|i settled IH] using rev_ind;
    intros pending Hperm.
  - cbn [foldl app] in *. unfold all_init. rewrite length_map, filled_nil.
    apply Permutation_length in Hperm as Hlen. rewrite length_seq in Hlen.
    destruct pending as [|j pending]; cbn [length] in Hlen.
    + symmetry in Hlen. apply nil_length_inv in Hlen. by rewrite Hlen.
    + by rewrite <- Hlen.
  - rewrite <- app_assoc in Hperm. cbn [app] in Hperm.
    rewrite foldl_snoc, (IH (i :: pending)) by done.
    assert (NoDup (settled ++ i :: pending)) as Hnodup
      by (rewrite Hperm; apply NoDup_seq).
    assert (i ∉ settled) as Hfresh.
    { apply NoDup_app in Hnodup as (_ & Hdisj & _). intros Hin.
      apply (Hdisj i Hin). by left. }
    assert (i < length vs)%nat as Hi.
    { assert (i ∈ seq 0 (length vs)) as Hin
        by (rewrite <- Hperm; apply elem_of_app; right; by left).
      apply elem_of_seq in Hin. lia. }
    destruct (lookup_lt_is_Some_2 vs i Hi) as [v Hv].
    unfold all_settle. cbn [all_settled all_values all_remaining].
    rewrite filled_lookup, Hv. simpl. rewrite bool_decide_eq_false_2 by done.
    rewrite list_lookup_fmap, Hv. simpl.
    rewrite filled_insert by done. f_equal.
    destruct pending as [|j pending]; [|done]. f_equal. f_equal.
    apply filled_all. intros k Hk.
    rewrite Hperm. apply elem_of_seq. lia.
Qed.

(** When every promise fulfils, the aggregate fulfils with the values in
    the order of the promises, whatever the order of settlement. *)
Lemma Promise_all_fulfilled (order : list nat) :
  order ≡ₚ seq 0 (length vs) ->
  Promise_all promises order = Some (Fulfilled vs).
Proof.
  intros Hperm. unfold Promise_all.
  rewrite (all_settle_fulfilled order []); [done|]. by rewrite app_nil_r.
Qed.

End PromiseAll.

Lemma imap_bind_fulfilled {A B C} (f : A -> B -> C) (details : nat -> B)
    (items : list A) :
  imap (fun i item => do detail <- Fulfilled (details i) ;; Fulfilled (f item detail))
       items
  = map Fulfilled (imap (fun i item => f item (details i)) items).
Proof.
  change (map Fulfilled (imap (fun i item => f item (details i)) items))
    with (Fulfilled <$> imap (fun i item => f item (details i)) items).
  by rewrite fmap_imap.
Qed.

Section PromiseAllRejected.

Context {A : Type}.
Variable promises : list (Outcome A).

Local Abbreviation values_of :=
  (map (fun p => match p with Fulfilled v => Some v | Rejected _ => None end)
       promises).

(** The array of values once the promises of [settled] have fulfilled. *)
Local Abbreviation partial settled :=
  (imap (fun j o => if bool_decide (j ∈ settled) then o else None) values_of).

Lemma partial_lookup (settled : list nat) (j : nat) :
  partial settled !! j
  = (fun o => if bool_decide (j ∈ settled) then o else None) <$> values_of !! j.
Proof. by rewrite list_lookup_imap. Qed.

Lemma partial_pending (settled : list nat) (j : nat) :
  j ∉ settled -> (j < length promises)%nat -> partial settled !! j = Some None.
Proof.
  intros Hj Hlt. rewrite partial_lookup.
  destruct (lookup_lt_is_Some_2 values_of j) as [o Ho];
    [by rewrite length_map|].
  rewrite Ho. simpl. by rewrite bool_decide_eq_false_2.
Qed.

Lemma partial_nil : partial [] = replicate (length promises) None.
Proof.
  apply list_eq. intros j. rewrite partial_lookup.
  destruct (values_of !! j) as [o|] eqn:Ho; simpl.
  - symmetry. apply lookup_replicate_2.
    apply lookup_lt_Some in Ho. by rewrite length_map in Ho.
  - symmetry. apply lookup_ge_None. rewrite length_replicate.
    apply lookup_ge_None in Ho. by rewrite length_map in Ho.
Qed.

Lemma partial_insert (settled : list nat) (j : nat) (v : A) :
  promises !! j = Some (Fulfilled v) ->
  <[j := Some v]> (partial settled) = partial (settled ++ [j]).
Proof.
  intros Hv. apply list_eq. intros k. rewrite partial_lookup.
  assert (values_of !! j = Some (Some v)) as Hj
    by (by rewrite list_lookup_fmap, Hv).
  destruct (decide (j = k)) as [<-|Hjk].
  - rewrite list_lookup_insert_eq
      by (rewrite length_imap; by apply lookup_lt_Some in Hj).
    rewrite Hj. simpl. rewrite bool_decide_eq_true_2; [done|].
    apply elem_of_app. right. by apply list_elem_of_singleton.
  - rewrite list_lookup_insert_ne, partial_lookup by done.
    destruct (values_of !! k); simpl; [|done].
    f_equal. repeat case_bool_decide; try done.
    + exfalso. apply H0. apply elem_of_app. by left.
    + exfalso. apply elem_of_app in H0 as [?|Hk]; [done|].
      apply list_elem_of_singleton in Hk. congruence.
Qed.

(** The state of the aggregate after the promises of [settled] have
    fulfilled while others, [pending], are still to settle. *)
Lemma all_settle_prefix (settled pending : list nat) :
  settled ++ pending ≡ₚ seq 0 (length promises) ->
  pending <> [] ->
  (forall j, j ∈ settled -> exists v, promises !! j = Some (Fulfilled v)) ->
  foldl (all_settle promises) (all_init (length promises)) settled
  = {| all_values := partial settled;
       all_remaining := length pending;
       all_settled := None |}.
Proof.
  revert pending. induction settled as [|j settled IH] using rev_ind;
    intros pending Hperm Hpending Hfulfilled.
  - cbn [foldl app] in *. unfold all_init. rewrite partial_nil.
    apply Permutation_length in Hperm as Hlen. rewrite length_seq in Hlen.
    rewrite <- Hlen. by destruct pending.
  - rewrite <- app_assoc in Hperm. cbn [app] in Hperm.
    rewrite foldl_snoc, (IH (j :: pending)); [|done|done|].
    2: { intros k Hk. apply Hfulfilled. apply elem_of_app. by left. }
    assert (NoDup (settled ++ j :: pending)) as Hnodup
      by (rewrite Hperm; apply NoDup_seq).
    assert (j ∉ settled) as Hfresh.
    { apply NoDup_app in Hnodup as (_ & Hdisj & _). intros Hin.
      apply (Hdisj j Hin). by left. }
    assert (j < length promises)%nat as Hj.
    { assert (j ∈ seq 0 (length promises)) as Hin
        by (rewrite <- Hperm; apply elem_of_app; right; by left).
      apply elem_of_seq in Hin. lia. }
    destruct (Hfulfilled j) as [v Hv];
      [apply elem_of_app; right; by apply list_elem_of_singleton|].
    unfold all_settle. cbn [all_settled all_values all_remaining].
    rewrite partial_pending, Hv by done.
    rewrite partial_insert by done. f_equal. by destruct pending.
Qed.

Lemma all_settle_settled (st : AllState A) (order : list nat) :
  is_Some (all_settled st) -> foldl (all_settle promises) st order = st.
Proof.
  intros [r Hr]. induction order as [|j order IH]; [done|].
  cbn [foldl]. unfold all_settle at 2. by rewrite Hr.
Qed.

(** The aggregate rejects with the first rejection in the order of
    settlement. *)
Lemma Promise_all_rejected (before after : list nat) (i : nat) (e : Thrown) :
  before ++ i :: after ≡ₚ seq 0 (length promises) ->
  (forall j, j ∈ before -> exists v, promises !! j = Some (Fulfilled v)) ->
  promises !! i = Some (Rejected e) ->
  Promise_all promises (before ++ i :: after) = Some (Rejected e).
Proof.
  intros Hperm Hfulfilled Hi. unfold Promise_all.
  rewrite foldl_app, (all_settle_prefix before (i :: after)) by done.
  assert (NoDup (before ++ i :: after)) as Hnodup
    by (rewrite Hperm; apply NoDup_seq).
  assert (i ∉ before) as Hfresh.
  { apply NoDup_app in Hnodup as (_ & Hdisj & _). intros Hin.
    apply (Hdisj i Hin). by left. }
  cbn [foldl]. unfold all_settle at 2.
  cbn [all_settled all_values all_remaining].
  rewrite partial_pending, Hi; [|done|by apply lookup_lt_Some in Hi].
  by rewrite all_settle_settled.
Qed.

End PromiseAllRejected.

(** C9. When the detail fetches of a message listing or of a thread
    listing all succeed, the list awaited is the list of summaries in the
    order of the list call, whatever the order in which the fetches
    complete: its element at an index is built from the entry of the list
    call at that index and the detail fetched for it. *)
Theorem list_details_order (toLowerCase : jsstring -> jsstring)
    (messageIds : list Gmail.MessageRef) (message_details : nat -> Gmail.MessageDetail)
    (threadIds : list Gmail.ThreadRef) (thread_details : nat -> Gmail.ThreadDetail)
    (order order' : list nat) :
  order ≡ₚ seq 0 (length messageIds) ->
  order' ≡ₚ seq 0 (length threadIds) ->
  (exists messages,
     Gmail.list_messages_details toLowerCase messageIds
       (fun i => Fulfilled (message_details i)) order
     = Some (Fulfilled messages)
     /\ length messages = length messageIds
     /\ forall i msg, messageIds !! i = Some msg ->
          messages !! i
          = Some (Gmail.message_summary toLowerCase msg (message_details i)))
  /\ (exists threads,
        Gmail.list_threads_details toLowerCase threadIds
          (fun i => Fulfilled (thread_details i)) order'
        = Some (Fulfilled threads)
        /\ length threads = length threadIds
        /\ forall i thread, threadIds !! i = Some thread ->
             threads !! i
             = Some (Gmail.thread_summary toLowerCase thread (thread_details i))).
Proof.
  intros Horder Horder'. split.
  - eexists. split_and!.
    + unfold Gmail.list_messages_details. rewrite imap_bind_fulfilled.
      apply Promise_all_fulfilled. by rewrite length_imap.
    + by rewrite length_imap.
    + intros i msg Hi. by rewrite list_lookup_imap, Hi.
  - eexists. split_and!.
    + unfold Gmail.list_threads_details. rewrite imap_bind_fulfilled.
      apply Promise_all_fulfilled. by rewrite length_imap.
    + by rewrite length_imap.
    + intros i thread Hi. by rewrite list_lookup_imap, Hi.
Qed.

Lemma list_details_order_witness :
  let ref name := {| Gmail.ref_id := Some name; Gmail.ref_threadId := None |} in
  let detail (i : nat) :=
    {| Gmail.detail_headers := None;
       Gmail.detail_snippet := Some (String_int (Z.of_nat i));
       Gmail.detail_labelIds := None |} in
  Gmail.msg_ids_snippets
    (Gmail.list_messages_details (fun s => s) [ref (lit "a"); ref (lit "b"); ref (lit "c")]
       (fun i => Fulfilled (detail i)) [2; 0; 1]%nat)
  = Some [(lit "a", lit "0"); (lit "b", lit "1"); (lit "c", lit "2")]
  /\ exists messages,
       Gmail.list_messages_details (fun s => s)
         [ref (lit "a"); ref (lit "b"); ref (lit "c")]
         (fun i => Fulfilled (detail i)) [2; 0; 1]%nat
       = Some (Fulfilled messages)
       /\ length messages = 3%nat.
Proof.
  intros ref detail. split; [reflexivity|].
  destruct (list_details_order (fun s => s)
              [ref (lit "a"); ref (lit "b"); ref (lit "c")] detail
              [] (fun _ => {| Gmail.detail_messages := None |})
              [2; 0; 1]%nat [])
    as [(messages & Hall & Hlen & _) _].
  - apply (bool_decide_unpack _). reflexivity.
  - reflexivity.
  - exists messages. by split.
Defined.

(** ** Response envelope *)

(** No step has thrown: every one of them has fulfilled. *)
Lemma first_thrown_None {B : Type} (details : nat -> Outcome B) (order : list nat) :
  Server.first_thrown (map (fun i => Server.step (details i)) order) = None ->
  forall j, j ∈ order -> exists d, details j = Fulfilled d.
Proof.
  induction order as [|i order IH]; cbn [map Server.first_thrown].
  - intros _ j Hj. by apply elem_of_nil in Hj.
  - destruct (details i) as [d|e] eqn:Hi; cbn [Server.step]; [|done].
    intros Hrest j Hj. apply elem_of_cons in Hj as [->|Hj]; [by exists d|].
    by apply IH.
Qed.

(** A step has thrown: the detail calls before the first one to fail have
    fulfilled. *)
Lemma first_thrown_Some {B : Type} (details : nat -> Outcome B) (order : list nat)
    (e : Thrown) :
  Server.first_thrown (map (fun i => Server.step (details i)) order) = Some e ->
  exists before i after,
    order = before ++ i :: after
    /\ (forall j, j ∈ before -> exists d, details j = Fulfilled d)
    /\ details i = Rejected e.
Proof.
  induction order as [|i order IH]; cbn [map Server.first_thrown]; [done|].
  destruct (details i) as [d|e'] eqn:Hi; cbn [Server.step].
  - intros Hrest. destruct (IH Hrest) as (before & k & after & -> & Hbefore & Hk).
    exists (i :: before), k, after. split_and!; [done | | done].
    intros j Hj. apply elem_of_cons in Hj as [->|Hj]; [by exists d | by apply Hbefore].
  - intros [= <-]. exists [], i, order. split_and!; [done | | done].
    intros j Hj. by apply elem_of_nil in Hj.
Qed.

(** Promises that have all fulfilled are the promises of their values. *)
Lemma all_fulfilled_values {C : Type} (promises : list (Outcome C)) :
  (forall j, (j < length promises)%nat ->
     exists v, promises !! j = Some (Fulfilled v)) ->
  exists vs, promises = map Fulfilled vs.
Proof.
  induction promises as [|p promises IH]; intros Hall; [by exists []|].
  destruct (Hall O) as [v Hv]; [cbn; lia|]. injection Hv as ->.
  destruct IH as [vs ->].
  { intros j Hj. apply (Hall (S j)). cbn. lia. }
  by exists (v :: vs).
Qed.

(** The aggregate of the detail calls of a listing: it rejects with what
    the first detail call to fail has thrown, and fulfils when none has. *)
Lemma listing_settled {A B C : Type} (summary : A -> B -> C) (items : list A)
    (details : nat -> Outcome B) (order : list nat) :
  order ≡ₚ seq 0 (length items) ->
  let promises :=
    imap (fun i item => do detail <- details i ;; Fulfilled (summary item detail))
         items in
  match Server.first_thrown (map (fun i => Server.step (details i)) order) with
  | Some e => Promise_all promises order = Some (Rejected e)
  | None => exists vs, Promise_all promises order = Some (Fulfilled vs)
  end.
Proof.
  intros Hperm promises.
  assert (forall j, promises !! j
                    = (fun item => do detail <- details j ;;
                                   Fulfilled (summary item detail)) <$> items !! j)
    as Hlookup by (intros j; apply list_lookup_imap).
  assert (length promises = length items) as Hlength by apply length_imap.
  destruct (Server.first_thrown _) as [e|] eqn:Hfirst.
  - apply first_thrown_Some in Hfirst
      as (before & i & after & -> & Hbefore & Hi).
    assert (forall j, j ∈ before ++ i :: after -> (j < length items)%nat) as Hrange.
    { intros j Hj. rewrite Hperm in Hj. apply elem_of_seq in Hj. lia. }
    apply Promise_all_rejected; [by rewrite Hlength | |].
    + intros j Hj. destruct (Hbefore j Hj) as [d Hd].
      assert (j < length items)%nat as Hlt by (apply Hrange, elem_of_app; by left).
      destruct (lookup_lt_is_Some_2 items j Hlt) as [item Hitem].
      eexists. by rewrite Hlookup, Hitem, Hd.
    + assert (i < length items)%nat as Hlt
        by (apply Hrange, elem_of_app; right; by left).
      destruct (lookup_lt_is_Some_2 items i Hlt) as [item Hitem].
      by rewrite Hlookup, Hitem, Hi.
  - pose proof (first_thrown_None details order Hfirst) as Hall.
    destruct (all_fulfilled_values promises) as [vs Hvs].
    { intros j Hj. rewrite Hlength in Hj.
      destruct (Hall j) as [d Hd].
      { rewrite Hperm. apply elem_of_seq. lia. }
      destruct (lookup_lt_is_Some_2 items j Hj) as [item Hitem].
      eexists. by rewrite Hlookup, Hitem, Hd. }
    exists vs. fold promises. rewrite Hvs. apply Promise_all_fulfilled.
    by rewrite <- (length_map Fulfilled vs), <- Hvs, Hlength.
Qed.

Section Envelope.

Variable Json : Type.
Variable stringify : forall A : Type, A -> jsstring.
Variable toLowerCase : jsstring -> jsstring.
Variable localeCompare : jsstring -> jsstring -> Z.
Variable formatFileSize : Number -> jsstring.
Variable Number_of_string : jsstring -> Number.
Variable inherited : jsstring -> option jsstring.
Variable now : jsstring.

Local Abbreviation invoke :=
  (Server.invoke Json stringify toLowerCase localeCompare formatFileSize
     Number_of_string inherited now).

(** What the [catch] clause makes of a thrown value, under any tool. *)
Lemma answer_error_result {S : Type} (tool : S -> Server.Output Json)
    (error : Thrown) :
  Server.answer Json tool (error_result error)
  = match GoogleAuth.handleGoogleError_call error with
    | Fulfilled text =>
        Fulfilled {| content := [TextItem text]; structuredContent := None |}
    | Rejected raised => Rejected raised
    end.
Proof. unfold error_result. by destruct (GoogleAuth.handleGoogleError_call error). Qed.

(** Close the case of a handler that has returned its text and its
    structured content. *)
Ltac returned :=
  cbn [Server.answer content structuredContent fmap option_fmap option_map];
  eexists _, [], _; split; [reflexivity | split; [reflexivity | by eexists]].

(** The case of a handler of two steps, the getter and one remote call. *)
Ltac two_steps handler client response :=
  intros _; unfold handler;
  destruct client as [[]|e];
    [|cbn [Server.step Server.first_thrown bind try_catch];
      apply f_equal, answer_error_result];
  destruct response as [data|e];
    [|cbn [Server.step Server.first_thrown bind try_catch];
      apply f_equal, answer_error_result];
  cbn [Server.step Server.first_thrown bind try_catch];
  returned.


End Envelope.



(** ** Worked inputs *)

Example stripHtml_example :
  Gmail.stripHtml
    (lit "<p>Hello <b>big</b>" ++ nl ++ lit "  world</p> a < b and c > d <unclosed")
  = lit "Hello big world a d <unclosed".
Proof. reflexivity. Qed.

Example extractBody_plain_beside_html :
  Gmail.extractBody
    (Some (Gmail.mkMessagePart (Some (lit "multipart/alternative")) None
             (Some [ Gmail.mkMessagePart (Some (lit "text/html"))
                       (Some {| Gmail.data := Some (lit "PGI-aHRtbDwvYj4=") |}) None;
                     Gmail.nested_plain_part ])))
  = lit "plain".
Proof. reflexivity. Qed.

Example extractTextFromBody_example :
  Docs.extractTextFromBody
    (Some {| Docs.body_content :=
               Some [ Docs.mkStructuralElement
                        (Some {| Docs.elements :=
                                   Some [ {| Docs.textRun :=
                                               Some {| Docs.content := Some (lit "Hello ") |} |};
                                          {| Docs.textRun := None |};
                                          {| Docs.textRun :=
                                               Some {| Docs.content := Some (lit "world") |} |} ] |})
                        None;
                      Docs.table_block
                        (Docs.mkTable
                           [[[ Docs.mkStructuralElement
                                 (Some {| Docs.elements :=
                                            Some [ {| Docs.textRun :=
                                                        Some {| Docs.content :=
                                                                  Some (lit "cell") |} |} ] |})
                                 None ]]]);
                      Docs.mkStructuralElement None None ] |})
  = lit "Hello world[TABLE]".
Proof. reflexivity. Qed.

Example handleGoogleError_first_match :
  GoogleAuth.handleGoogleError
    (VError (lit "Request failed with status 401 after 429 Too Many Requests"))
  = GoogleAuth.msg_auth
  /\ GoogleAuth.handleGoogleError (VString (lit "429"))
     = lit "Error: Unexpected error occurred: 429".
Proof. split; reflexivity. Qed.

Example search_query_folders :
  Drive.search_query (lit "Valentine's Day") Drive.folders
  = lit "trashed = false and fullText contains 'Valentine\'s Day' and mimeType = 'application/vnd.google-apps.folder'".
Proof. reflexivity. Qed.

Example Promise_all_first_rejection :
  Promise_all [Fulfilled 1; Rejected VNull; Rejected VUndefined; Fulfilled 4]
    [3; 2; 1; 0]%nat
  = Some (Rejected VUndefined)
  /\ Promise_all [Fulfilled 1; Fulfilled 2] [1]%nat = None
  /\ Promise_all (A := Z) [] [] = Some (Fulfilled []).
Proof. split_and!; reflexivity. Qed.

Example list_threads_markdown_example :
  Gmail.list_threads_markdown
    [ {| Gmail.thread_id := lit "t1"; Gmail.thread_subject := lit "Hi";
         Gmail.thread_from := lit "me"; Gmail.thread_date := lit "today";
         Gmail.thread_snippet := lit "snip"; Gmail.thread_messageCount := 12 |} ]
    (Some (lit "tok"))
  = join nl
      [ lit "# Gmail Threads"; [];
        lit "Found 1 thread(s) (more available)."; [];
        lit "### Hi"; lit "- **From**: me"; lit "- **Messages**: 12";
        lit "- **Last activity**: today"; lit "- **ID**: `t1`";
        lit "- **Preview**: snip"; [];
        lit "*Use page_token=" ++ dq ++ lit "tok" ++ dq ++ lit " to load more threads.*" ].
Proof. reflexivity. Qed.

Example Array_sort_stable :
  Array_sort (fun a b : Z * Z => fst a - fst b)
    [(2, 1); (1, 1); (2, 2); (1, 2); (0, 1); (2, 3)]
  = [(0, 1); (1, 1); (1, 2); (2, 1); (2, 2); (2, 3)]
  /\ Array_sort (fun _ _ : Z => 0) [3; 1; 2] = [3; 1; 2].
Proof. split; reflexivity. Qed.

Example cell_text_kinds :
  map Sheets.cell_text
    [ Sheets.CellNumber (integer (10 ^ 21)); Sheets.CellNumber (integer 42);
      Sheets.CellNumber (Finite false 3 (-1)); Sheets.CellNumber (Finite true 1 (-2));
      Sheets.CellNumber NaN; Sheets.CellNumber (Infinity true);
      Sheets.CellNumber (Zero true); Sheets.CellBoolean true; Sheets.CellNull;
      Sheets.CellString (lit "a") ]
  = [ lit "1e+21"; lit "42"; lit "1.5"; lit "-0.25"; lit "NaN"; lit "-Infinity";
      lit "0"; lit "true"; []; lit "a" ].
Proof. reflexivity. Qed.

Example from_base64_low_byte :
  Buffer.from_base64 [345; 337] = [97]
  /\ Gmail.decodeBase64 [345; 337] = lit "a".
Proof. split; reflexivity. Qed.

(** * Further properties of the modelled code *)

(** ** Error classifier *)

(** X1. Whatever is thrown, the classified message starts with
    [Error: ], so a caller can tell a failure from a result by the first
    seven characters of the text. *)
Theorem handleGoogleError_prefix (failure : JsValue) :
  startsWith (GoogleAuth.handleGoogleError failure) (lit "Error: ") = true.
Proof.
  assert (forall text, startsWith (lit "Error: " ++ text) (lit "Error: ") = true)
    as Hprefix by (by intros [|c text]).
  destruct failure as [message| | | | | |]; try reflexivity.
  unfold GoogleAuth.handleGoogleError.
  repeat destruct (includes message _); cbn [orb]; try reflexivity;
    apply Hprefix.
Qed.

(** ** Base64 alphabets *)

(** Settle the tests of [c] against the four substituted characters. *)
Ltac other_char c :=
  repeat (rewrite ?(proj2 (Z.eqb_neq c 43)), ?(proj2 (Z.eqb_neq c 45)),
            ?(proj2 (Z.eqb_neq c 47)), ?(proj2 (Z.eqb_neq c 95)) by lia;
          cbv iota).

(** X2. [decodeBase64] reads the standard and the URL-safe alphabet alike:
    turning the ['+'] and ['/'] of any input into ['-'] and ['_'], or the
    other way round, does not change what is decoded. *)
Theorem decodeBase64_either_alphabet (data : jsstring) :
  Gmail.decodeBase64 (replaceAll 47 (lit "_") (replaceAll 43 (lit "-") data))
  = Gmail.decodeBase64 data
  /\ Gmail.decodeBase64 (replaceAll 95 (lit "/") (replaceAll 45 (lit "+") data))
     = Gmail.decodeBase64 data.
Proof.
  unfold Gmail.decodeBase64.
  change (lit "/") with [47]. change (lit "+") with [43].
  change (lit "_") with [95]. change (lit "-") with [45].
  rewrite !replaceAll_single, !map_map.
  split; do 2 f_equal; apply map_ext; intros c; cbv beta;
    (assert (c = 43 \/ c = 45 \/ c = 47 \/ c = 95
             \/ (c <> 43 /\ c <> 45 /\ c <> 47 /\ c <> 95))
       as [-> | [-> | [-> | [-> | (H43 & H45 & H47 & H95)]]]] by lia;
     [reflexivity.. |]);
    by other_char c.
Qed.

(** ** Sheets: length of the markdown text *)

Lemma jslength_nonneg (s : jsstring) : 0 <= jslength s.
Proof. unfold jslength. lia. Qed.

Lemma truncated_bound (text marker : jsstring) :
  jslength (if CHARACTER_LIMIT <? jslength text
            then substring0 text CHARACTER_LIMIT ++ marker else text)
  <= CHARACTER_LIMIT + jslength marker.
Proof.
  destruct (Z.ltb_spec CHARACTER_LIMIT (jslength text)) as [Hlong|Hshort].
  - by rewrite truncate_length.
  - pose proof (jslength_nonneg marker). lia.
Qed.

(** X3. The markdown text of [sheets_get_values] and of
    [sheets_batch_get_values] is never longer than 25,000 code units plus
    the marker, whatever the grid; a rendering within the budget is
    returned as it is, without the marker. *)
Theorem sheets_markdown_bound (values : list (list Sheets.Cell)) (range : jsstring)
    (valueRanges : list Sheets.ValueRange) :
  jslength (Sheets.get_values_markdown values range)
  <= CHARACTER_LIMIT + jslength Sheets.data_truncated
  /\ jslength (Sheets.batch_get_values_markdown valueRanges)
     <= CHARACTER_LIMIT + jslength Sheets.data_truncated
  /\ (jslength (Sheets.formatValuesAsMarkdown (Some values) range) <= CHARACTER_LIMIT ->
      Sheets.get_values_markdown values range
      = Sheets.formatValuesAsMarkdown (Some values) range)
  /\ (jslength (Sheets.batch_natural valueRanges) <= CHARACTER_LIMIT ->
      Sheets.batch_get_values_markdown valueRanges = Sheets.batch_natural valueRanges).
Proof.
  split_and!.
  - apply truncated_bound.
  - apply truncated_bound.
  - intros Hshort. unfold Sheets.get_values_markdown.
    by rewrite (proj2 (Z.ltb_ge _ _) Hshort).
  - intros Hshort. unfold Sheets.batch_get_values_markdown.
    by rewrite (proj2 (Z.ltb_ge _ _) Hshort).
Qed.

Lemma sheets_markdown_bound_witness :
  Sheets.get_values_markdown [[Sheets.CellNumber (integer 7)]] (lit "A1")
  = Sheets.formatValuesAsMarkdown (Some [[Sheets.CellNumber (integer 7)]]) (lit "A1")
  /\ Sheets.batch_get_values_markdown [] = Sheets.batch_natural [].
Proof.
  destruct (sheets_markdown_bound [[Sheets.CellNumber (integer 7)]] (lit "A1") [])
    as (_ & _ & Hget & Hbatch).
  split; [apply Hget | apply Hbatch]; vm_compute; discriminate.
Defined.

(** ** Drive: escaping of the search text *)

(** X4. In the escaped search text every quote stands right after a
    backslash, the text grows by one code unit per quote of the query, and
    a query without a quote is left as it is. *)
Theorem escape_quotes_quoted (query : jsstring) :
  (forall before after,
     Drive.escape_quotes query = before ++ 39 :: after ->
     exists before', before = before' ++ [92])
  /\ jslength (Drive.escape_quotes query)
     = jslength query + jslength (List.filter (Z.eqb 39) query)
  /\ (~ In 39 query -> Drive.escape_quotes query = query).
Proof.
  unfold Drive.escape_quotes, jslength. change (lit "\'") with [92; 39].
  split_and!.
  - induction query as [|c q IH]; intros before after Heq.
    + by destruct before.
    + cbn [replaceAll] in Heq. destruct (Z.eqb_spec c 39) as [->|Hc].
      * destruct before as [|b0 [|b1 before]]; cbn [app] in Heq.
        -- discriminate.
        -- injection Heq as <- _. by exists [].
        -- injection Heq as <- <- Heq. destruct (IH _ _ Heq) as [before' ->].
           by exists (92 :: 39 :: before').
      * destruct before as [|b0 before]; cbn [app] in Heq.
        -- injection Heq as Hc' _. done.
        -- injection Heq as <- Heq. destruct (IH _ _ Heq) as [before' ->].
           by exists (c :: before').
  - induction query as [|c q IH]; [done|]. cbn [replaceAll List.filter].
    rewrite (Z.eqb_sym 39 c). destruct (c =? 39);
      rewrite length_app; cbn [length] in *; lia.
  - induction query as [|c q IH]; [done|]. intros Hq. cbn [replaceAll].
    rewrite (proj2 (Z.eqb_neq c 39)) by (intros ->; apply Hq; by left).
    cbn [app]. f_equal. apply IH. intros Hin. apply Hq. by right.
Qed.

Lemma escape_quotes_quoted_witness :
  Drive.escape_quotes (lit "budget 2024") = lit "budget 2024"
  /\ exists before', lit "Valentine\" = before' ++ [92].
Proof.
  destruct (escape_quotes_quoted (lit "budget 2024")) as (_ & _ & Hplain).
  destruct (escape_quotes_quoted (lit "Valentine's Day")) as (Hquote & _).
  split.
  - apply Hplain. vm_compute. intuition discriminate.
  - apply (Hquote (lit "Valentine\") (lit "s Day")). reflexivity.
Defined.

(** ** Mail body: where the text comes from *)

Lemma MessagePart_nested_ind (P : Gmail.MessagePart -> Prop) :
  (forall m b, P (Gmail.mkMessagePart m b None)) ->
  (forall m b ps, Forall P ps -> P (Gmail.mkMessagePart m b (Some ps))) ->
  forall p, P p.
Proof.
  intros Hleaf Hnode. fix IH 1. intros [m b [ps|]]; [|apply Hleaf].
  apply Hnode. induction ps as [|part ps IHps]; constructor; [apply IH | exact IHps].
Qed.

Lemma all_parts_child (m : option jsstring) (b : option Gmail.MessagePartBody)
    (ps : list Gmail.MessagePart) (part x : Gmail.MessagePart) :
  In part ps -> In x (Gmail.all_parts part) ->
  In x (Gmail.all_parts (Gmail.mkMessagePart m b (Some ps))).
Proof.
  intros Hpart Hx. cbn [Gmail.all_parts Gmail.parts]. right.
  induction ps as [|q ps IH]; [done|].
  apply in_or_app. destruct Hpart as [->|Hpart]; [by left | right; by apply IH].
Qed.

Lemma all_parts_self (p : Gmail.MessagePart) : In p (Gmail.all_parts p).
Proof. destruct p. by left. Qed.

Lemma first_data_In (mime : jsstring) (ps : list Gmail.MessagePart) (d : jsstring) :
  Gmail.first_data mime ps = Some d ->
  exists part, In part ps /\ Gmail.body_data part = Some d.
Proof.
  rewrite first_data_find.
  destruct (find _ ps) as [part|] eqn:Hfind; [|done].
  intros Hd. exists part. split; [|done]. by apply find_some in Hfind as [? _].
Qed.

(** X5. The body that [extractBody] returns is never pieced together: it
    is empty, or it is the decoded data of one part of the message, as it
    is or stripped of markup. A message in which no part carries data has
    an empty body. *)
Theorem extractBody_single_part (payload : Gmail.MessagePart) :
  Gmail.extractBody (Some payload) = []
  \/ exists part d,
       In part (Gmail.all_parts payload)
       /\ Gmail.body_data part = Some d
       /\ (Gmail.extractBody (Some payload) = Gmail.decodeBase64 d
           \/ Gmail.extractBody (Some payload)
              = Gmail.stripHtml (Gmail.decodeBase64 d)).
Proof.
  unfold Gmail.extractBody.
  induction payload as [m b|m b ps IH] using MessagePart_nested_ind;
    cbn [Gmail.extractBody_part Gmail.parts];
    destruct (Gmail.body_data _) as [d|] eqn:Hd;
    try (right; eexists _, d; split_and!; [apply all_parts_self | done | by left]).
  - by left.
  - destruct (Gmail.first_data (lit "text/plain") ps) as [d|] eqn:Hplain.
    { destruct (first_data_In _ _ _ Hplain) as (part & Hin & Hdata).
      right. exists part, d. split_and!; [|done|by left].
      eapply all_parts_child; [done | apply all_parts_self]. }
    destruct (Gmail.first_data (lit "text/html") ps) as [d|] eqn:Hhtml.
    { destruct (first_data_In _ _ _ Hhtml) as (part & Hin & Hdata).
      right. exists part, d. split_and!; [|done|by right].
      eapply all_parts_child; [done | apply all_parts_self]. }
    assert (forall l, Forall (fun p =>
                Gmail.extractBody_part p = []
                \/ exists part d, In part (Gmail.all_parts p)
                     /\ Gmail.body_data part = Some d
                     /\ (Gmail.extractBody_part p = Gmail.decodeBase64 d
                         \/ Gmail.extractBody_part p
                            = Gmail.stripHtml (Gmail.decodeBase64 d))) l ->
              (forall x, In x l -> In x ps) ->
              let result :=
                (fix recurse (l : list Gmail.MessagePart) : jsstring :=
                   match l with
                   | [] => []
                   | part :: rest =>
                       let nested := Gmail.extractBody_part part in
                       if truthy nested then nested else recurse rest
                   end) l in
              result = []
              \/ exists part d, In part (Gmail.all_parts (Gmail.mkMessagePart m b (Some ps)))
                   /\ Gmail.body_data part = Some d
                   /\ (result = Gmail.decodeBase64 d
                       \/ result = Gmail.stripHtml (Gmail.decodeBase64 d))) as Hloop.
    { clear. induction l as [|p l IHl]; intros Hall Hsub; [by left|].
      apply Forall_cons_1 in Hall as [Hp Hall]. cbn zeta.
      destruct (truthy (Gmail.extractBody_part p)) eqn:Htruthy.
      - destruct Hp as [Hnil | (part & d & Hin & Hdata & Hres)].
        + by rewrite Hnil in Htruthy.
        + right. exists part, d. split_and!; [|done|done].
          eapply all_parts_child; [apply Hsub; by left | done].
      - apply IHl; [done|]. intros x Hx. apply Hsub. by right. }
    apply (Hloop ps IH). auto.
Qed.

(** ** Markup removal *)

Lemma indexOf_None (c : Z) (s : jsstring) : indexOf c s = None <-> ~ In c s.
Proof.
  induction s as [|x s IH]; cbn [indexOf].
  - split; [intros _ [] | reflexivity].
  - destruct (Z.eqb_spec x c) as [->|Hx].
    + split; [discriminate | intros H; exfalso; apply H; by left].
    + destruct (indexOf c s) as [n|]; cbn.
      * split; [discriminate|]. intros H. exfalso.
        assert (~ In c s) as Hs by (intros Hin; apply H; by right).
        apply IH in Hs. discriminate.
      * split; [|reflexivity]. intros _ [Heq|Hin]; [done|].
        by apply (proj1 IH).
Qed.

Lemma removeTags_In (skip : nat) (s : jsstring) (c : Z) :
  In c (removeTags skip s) -> In c s.
Proof.
  revert skip. induction s as [|x s IH]; intros skip; [done|].
  cbn [removeTags]. destruct skip as [|k]; [|intros H; right; by apply (IH k)].
  destruct (x =? 60); [destruct (indexOf 62 s)|];
    intros H; try (right; by eapply IH);
    (destruct H as [->|H]; [by left | right; by eapply IH]).
Qed.

(** X6. Markup removal leaves no tag behind: removing the tags of its
    result once more changes nothing, and a text without ['<'] is returned
    as it is. *)
Theorem removeTags_idempotent (s : jsstring) :
  removeTags O (removeTags O s) = removeTags O s
  /\ (~ In 60 s -> removeTags O s = s).
Proof.
  split.
  - generalize O at 2 3 as skip. induction s as [|x s IH]; intros skip; [done|].
    cbn [removeTags]. destruct skip as [|k]; [|apply IH].
    destruct (Z.eqb_spec x 60) as [->|Hx].
    + destruct (indexOf 62 s) eqn:Hgt; [apply IH|].
      cbn [removeTags]. change (60 =? 60) with true. cbv iota.
      assert (indexOf 62 (removeTags 0 s) = None) as ->.
      { apply indexOf_None. intros Hin. apply removeTags_In in Hin.
        by apply indexOf_None in Hgt. }
      by rewrite IH.
    + cbn [removeTags]. rewrite (proj2 (Z.eqb_neq x 60)) by done.
      by rewrite IH.
  - induction s as [|x s IH]; [done|]. intros Hs. cbn [removeTags].
    rewrite (proj2 (Z.eqb_neq x 60)) by (intros ->; apply Hs; by left).
    f_equal. apply IH. intros Hin. apply Hs. by right.
Qed.

Lemma removeTags_idempotent_witness :
  removeTags O (lit "a > b & c") = lit "a > b & c".
Proof.
  apply (removeTags_idempotent (lit "a > b & c")).
  vm_compute. intuition discriminate.
Defined.

(** ** White space after stripping *)

Lemma has_double_space_app (a b : jsstring) :
  has_double_space (a ++ b) = false ->
  has_double_space a = false /\ has_double_space b = false.
Proof.
  induction a as [|x a IH]; [done|]. cbn [app has_double_space].
  intros H. apply orb_false_iff in H as [Hx Hrest].
  destruct (IH Hrest) as [Ha Hb]. split; [|done].
  rewrite Ha, orb_false_r. destruct a as [|y a]; [apply andb_false_r | exact Hx].
Qed.

Lemma collapseSpaces_single (in_run : bool) (s : jsstring) :
  Forall (fun c => is_space c = true -> c = 32) (collapseSpaces in_run s)
  /\ has_double_space (collapseSpaces in_run s) = false
  /\ (in_run = true -> forall c, head (collapseSpaces in_run s) = Some c -> c <> 32).
Proof.
  revert in_run. induction s as [|x s IH]; intros in_run; [done|].
  cbn [collapseSpaces]. destruct (is_space x) eqn:Hx.
  - destruct (IH true) as (Hall & Hdouble & Hhead). destruct in_run; cbn [app].
    + split_and!; [done | done | intros _; by apply Hhead].
    + split_and!; [by constructor | | done].
      cbn [has_double_space]. rewrite Hdouble, orb_false_r.
      destruct (collapseSpaces true s) as [|y l] eqn:Hc; [done|].
      cbn. apply Z.eqb_neq. by apply Hhead.
  - destruct (IH false) as (Hall & Hdouble & _).
    split_and!.
    + constructor; [congruence | done].
    + cbn [has_double_space]. rewrite Hdouble, orb_false_r.
      apply andb_false_iff. left. apply Z.eqb_neq. by intros ->.
    + intros _ c [= <-]. by intros ->.
Qed.

Lemma trimStart_suffix (s : jsstring) :
  exists dropped,
    s = dropped ++ trimStart s
    /\ forall c, head (trimStart s) = Some c -> is_space c = false.
Proof.
  induction s as [|x s (dropped & Heq & Hhead)]; [by exists []|].
  cbn [trimStart]. destruct (is_space x) eqn:Hx.
  - exists (x :: dropped). split; [cbn; by f_equal | done].
  - exists []. split; [done|]. by intros c [= <-].
Qed.

Lemma last_rev_head (l : jsstring) : last (rev l) = head l.
Proof. destruct l as [|c l]; [done|]. cbn [rev]. apply last_snoc. Qed.

Lemma head_app_ne (a b : jsstring) : a <> [] -> head (a ++ b) = head a.
Proof. by destruct a. Qed.

(** X7. Stripped text is normalised: the only white space left in it is
    the plain space, never two in a row and none at either end. *)
Theorem stripHtml_normalized (html : jsstring) :
  Forall (fun c => is_space c = true -> c = 32) (Gmail.stripHtml html)
  /\ has_double_space (Gmail.stripHtml html) = false
  /\ (forall c, head (Gmail.stripHtml html) = Some c -> is_space c = false)
  /\ (forall c, last (Gmail.stripHtml html) = Some c -> is_space c = false).
Proof.
  unfold Gmail.stripHtml, trim.
  set (collapsed := collapseSpaces false (removeTags 0 html)).
  destruct (collapseSpaces_single false (removeTags 0 html)) as (Hall & Hdouble & _).
  fold collapsed in Hall, Hdouble.
  destruct (trimStart_suffix collapsed) as (front & Hfront & Hhead).
  destruct (trimStart_suffix (rev (trimStart collapsed))) as (back & Hback & Hlast).
  set (kept := trimStart (rev (trimStart collapsed))) in *.
  assert (trimStart collapsed = rev kept ++ rev back) as Hmiddle.
  { rewrite <- (rev_involutive (trimStart collapsed)), Hback. apply rev_app_distr. }
  rewrite Hmiddle in Hfront.
  split_and!.
  - rewrite Hfront in Hall. apply Forall_app in Hall as [_ Hall].
    by apply Forall_app in Hall as [Hall _].
  - rewrite Hfront in Hdouble. apply has_double_space_app in Hdouble as [_ Hdouble].
    by apply has_double_space_app in Hdouble as [Hdouble _].
  - intros c Hc. apply Hhead. rewrite Hmiddle, head_app_ne; [done|].
    intros Hnil. by rewrite Hnil in Hc.
  - intros c Hc. apply Hlast. by rewrite <- last_rev_head.
Qed.

Lemma stripHtml_normalized_witness :
  Gmail.stripHtml (lit "<p> Dear  all,</p>  <b>hello</b> ") = lit "Dear all, hello"
  /\ is_space 68 = false /\ is_space 111 = false.
Proof.
  destruct (stripHtml_normalized (lit "<p> Dear  all,</p>  <b>hello</b> "))
    as (_ & _ & Hhead & Hlast).
  split; [reflexivity|]. split; [apply Hhead | apply Hlast]; reflexivity.
Defined.

(** ** Client handles *)

(** X8. Initialising is all or nothing. With one of the three variables
    missing or empty it throws the fixed message and leaves the handles as
    they were, so that from the freshly loaded module every getter still
    throws; with the three of them set, every getter returns a handle, and
    the three handles share one client that carries the credentials of the
    environment. *)
Theorem initializeGoogleAuth_all_or_nothing (env : AuthState.Env) :
  let missing :=
    AuthState.absent (AuthState.GOOGLE_CLIENT_ID env)
    || AuthState.absent (AuthState.GOOGLE_CLIENT_SECRET env)
    || AuthState.absent (AuthState.GOOGLE_REFRESH_TOKEN env) in
  let result := AuthState.initializeGoogleAuth env AuthState.unset in
  (missing = true ->
   (forall st, AuthState.initializeGoogleAuth env st
               = (Rejected (VError AuthState.missing_variables), st))
   /\ AuthState.getDocsClient (snd result) = Rejected (VError AuthState.not_initialized)
   /\ AuthState.getDriveClient (snd result) = Rejected (VError AuthState.not_initialized)
   /\ AuthState.getSheetsClient (snd result)
      = Rejected (VError AuthState.not_initialized))
  /\ (missing = false ->
      exists client,
        fst result = Fulfilled tt
        /\ AuthState.getDocsClient (snd result)
           = Fulfilled {| AuthState.version := lit "v1"; AuthState.auth := client |}
        /\ AuthState.getDriveClient (snd result)
           = Fulfilled {| AuthState.version := lit "v3"; AuthState.auth := client |}
        /\ AuthState.getSheetsClient (snd result)
           = Fulfilled {| AuthState.version := lit "v4"; AuthState.auth := client |}
        /\ Some (AuthState.clientId client) = AuthState.GOOGLE_CLIENT_ID env
        /\ Some (AuthState.clientSecret client) = AuthState.GOOGLE_CLIENT_SECRET env
        /\ AuthState.refresh_token client = AuthState.GOOGLE_REFRESH_TOKEN env).
Proof.
  intros missing result. subst missing result.
  unfold AuthState.initializeGoogleAuth. split.
  - intros Hmissing. rewrite Hmissing. split_and!; reflexivity.
  - intros Hset. rewrite Hset. eexists. split_and!; try reflexivity.
    + apply orb_false_iff in Hset as [Hset _].
      apply orb_false_iff in Hset as [Hid _].
      unfold AuthState.absent in Hid. by destruct (AuthState.GOOGLE_CLIENT_ID env).
    + apply orb_false_iff in Hset as [Hset _].
      apply orb_false_iff in Hset as [_ Hsecret].
      unfold AuthState.absent in Hsecret.
      by destruct (AuthState.GOOGLE_CLIENT_SECRET env).
Qed.

Lemma initializeGoogleAuth_all_or_nothing_witness :
  AuthState.getDriveClient
    (snd (AuthState.initializeGoogleAuth
            {| AuthState.GOOGLE_CLIENT_ID := Some (lit "id");
               AuthState.GOOGLE_CLIENT_SECRET := Some [];
               AuthState.GOOGLE_REFRESH_TOKEN := Some (lit "token") |}
            AuthState.unset))
  = Rejected (VError AuthState.not_initialized)
  /\ exists client,
       AuthState.getDriveClient
         (snd (AuthState.initializeGoogleAuth
                 {| AuthState.GOOGLE_CLIENT_ID := Some (lit "id");
                    AuthState.GOOGLE_CLIENT_SECRET := Some (lit "secret");
                    AuthState.GOOGLE_REFRESH_TOKEN := Some (lit "token") |}
                 AuthState.unset))
       = Fulfilled {| AuthState.version := lit "v3"; AuthState.auth := client |}.
Proof.
  destruct (initializeGoogleAuth_all_or_nothing
              {| AuthState.GOOGLE_CLIENT_ID := Some (lit "id");
                 AuthState.GOOGLE_CLIENT_SECRET := Some [];
                 AuthState.GOOGLE_REFRESH_TOKEN := Some (lit "token") |})
    as [Hmissing _].
  destruct (initializeGoogleAuth_all_or_nothing
              {| AuthState.GOOGLE_CLIENT_ID := Some (lit "id");
                 AuthState.GOOGLE_CLIENT_SECRET := Some (lit "secret");
                 AuthState.GOOGLE_REFRESH_TOKEN := Some (lit "token") |})
    as [_ Hset].
  split.
  - by destruct (Hmissing eq_refl) as (_ & _ & Hdrive & _).
  - destruct (Hset eq_refl) as (client & _ & _ & Hdrive & _). by exists client.
Defined.

(** X9. With one of the three variables missing or empty [main] makes
    the process exit with status 1 after one diagnostic, whatever the
    transport would have done. With the three of them set, a connection
    that fails is reported with the value it failed with and ends the
    process with status 1 as well, and [main] returns with the server
    running only when the three variables are set, the clients are
    initialised and the transport has connected. *)
Theorem main_exit_status (env : AuthState.Env) (connect : Outcome unit) :
  let missing :=
    AuthState.absent (AuthState.GOOGLE_CLIENT_ID env)
    || AuthState.absent (AuthState.GOOGLE_CLIENT_SECRET env)
    || AuthState.absent (AuthState.GOOGLE_REFRESH_TOKEN env) in
  (missing = true ->
   AuthState.main env connect
   = AuthState.Exited 1
       [[Value (VString (lit "ERROR:"));
         Value (VString AuthState.missing_variables)]])
  /\ (forall e, missing = false -> connect = Rejected e ->
        AuthState.main env connect
        = AuthState.Exited 1 [[Value (VString (lit "Server error:")); e]])
  /\ (forall st stderr,
        AuthState.main env connect = AuthState.Running st stderr ->
        missing = false /\ connect = Fulfilled tt
        /\ exists client, AuthState.getDocsClient st = Fulfilled client).
Proof.
  intros missing. subst missing.
  unfold AuthState.main, AuthState.initializeGoogleAuth.
  destruct (_ || _ || _); split_and!.
  - done.
  - done.
  - done.
  - done.
  - by intros e _ ->.
  - destruct connect as [[]|]; [|done]. intros st stderr [= <- _].
    split_and!; [done | done | by eexists].
Qed.

Lemma main_exit_status_witness :
  AuthState.main
    {| AuthState.GOOGLE_CLIENT_ID := Some (lit "id");
       AuthState.GOOGLE_CLIENT_SECRET := Some (lit "secret");
       AuthState.GOOGLE_REFRESH_TOKEN := None |}
    (Fulfilled tt)
  = AuthState.Exited 1
      [[Value (VString (lit "ERROR:"));
        Value (VString AuthState.missing_variables)]]
  /\ AuthState.main
       {| AuthState.GOOGLE_CLIENT_ID := Some (lit "id");
          AuthState.GOOGLE_CLIENT_SECRET := Some (lit "secret");
          AuthState.GOOGLE_REFRESH_TOKEN := Some (lit "token") |}
       (Rejected (VError (lit "closed")))
     = AuthState.Exited 1
         [[Value (VString (lit "Server error:")); Value (VError (lit "closed"))]]
  /\ (exists client,
        AuthState.getDocsClient
          (snd (AuthState.initializeGoogleAuth
                  {| AuthState.GOOGLE_CLIENT_ID := Some (lit "id");
                     AuthState.GOOGLE_CLIENT_SECRET := Some (lit "secret");
                     AuthState.GOOGLE_REFRESH_TOKEN := Some (lit "token") |}
                  AuthState.unset))
        = Fulfilled client).
Proof.
  destruct (main_exit_status
              {| AuthState.GOOGLE_CLIENT_ID := Some (lit "id");
                 AuthState.GOOGLE_CLIENT_SECRET := Some (lit "secret");
                 AuthState.GOOGLE_REFRESH_TOKEN := None |} (Fulfilled tt))
    as (Hmissing & _).
  destruct (main_exit_status
              {| AuthState.GOOGLE_CLIENT_ID := Some (lit "id");
                 AuthState.GOOGLE_CLIENT_SECRET := Some (lit "secret");
                 AuthState.GOOGLE_REFRESH_TOKEN := Some (lit "token") |}
              (Rejected (VError (lit "closed"))))
    as (_ & Hconnect & _).
  destruct (main_exit_status
              {| AuthState.GOOGLE_CLIENT_ID := Some (lit "id");
                 AuthState.GOOGLE_CLIENT_SECRET := Some (lit "secret");
                 AuthState.GOOGLE_REFRESH_TOKEN := Some (lit "token") |}
              (Fulfilled tt))
    as (_ & _ & Hrunning).
  split_and!.
  - apply Hmissing. reflexivity.
  - apply Hconnect; reflexivity.
  - destruct (Hrunning _ _ eq_refl) as (_ & _ & Hclient). exact Hclient.
Defined.

(** ** Creating a document *)

(** X10. [docs_create_document] asks for the insertion only when there is
    a body to insert: without one, the outcome of the insertion plays no
    part in the answer. A creation that returns no identifier is answered
    with the fixed message, and a failed insertion fails the call although
    the document exists by then. *)
Theorem docs_create_document_steps (params : DocsCreate.CreateDocumentInput)
    (response : DocsCreate.CreateResponse) (inserted inserted' : Outcome unit)
    (e : Thrown) :
  (truthy (default [] (DocsCreate.body_content params)) = false ->
   DocsCreate.docs_create_document params (Fulfilled tt) (Fulfilled response) inserted
   = DocsCreate.docs_create_document params (Fulfilled tt) (Fulfilled response) inserted')
  /\ (truthy (default [] (DocsCreate.documentId response)) = false ->
      DocsCreate.docs_create_document params (Fulfilled tt) (Fulfilled response)
        inserted
      = Fulfilled
          {| content :=
               [TextItem
                  (lit "Error: Failed to create document: no document ID returned")];
             structuredContent := None |})
  /\ (truthy (default [] (DocsCreate.body_content params)) = true ->
      truthy (default [] (DocsCreate.documentId response)) = true ->
      DocsCreate.docs_create_document params (Fulfilled tt) (Fulfilled response)
        (Rejected e)
      = error_result e).
Proof.
  unfold DocsCreate.docs_create_document. cbn [bind].
  split_and!.
  - intros ->. reflexivity.
  - intros Hid. destruct (DocsCreate.documentId response) as [id|]; [|done].
    change (truthy id = false) in Hid. by rewrite Hid.
  - intros -> Hid. destruct (DocsCreate.documentId response) as [id|]; [|done].
    change (truthy id = true) in Hid. by rewrite Hid.
Qed.

Lemma docs_create_document_steps_witness :
  DocsCreate.docs_create_document
    {| DocsCreate.title := lit "Draft"; DocsCreate.body_content := None |}
    (Fulfilled tt)
    (Fulfilled {| DocsCreate.documentId := Some (lit "doc1");
                  DocsCreate.response_title := None;
                  DocsCreate.revisionId := None |})
    (Rejected VNull)
  = DocsCreate.docs_create_document
      {| DocsCreate.title := lit "Draft"; DocsCreate.body_content := None |}
      (Fulfilled tt)
      (Fulfilled {| DocsCreate.documentId := Some (lit "doc1");
                    DocsCreate.response_title := None;
                    DocsCreate.revisionId := None |})
      (Fulfilled tt)
  /\ DocsCreate.docs_create_document
       {| DocsCreate.title := lit "Draft";
          DocsCreate.body_content := Some (lit "Hello World") |}
       (Fulfilled tt)
       (Fulfilled {| DocsCreate.documentId := Some (lit "doc1");
                     DocsCreate.response_title := None;
                     DocsCreate.revisionId := None |})
       (Rejected (VError (lit "403 Forbidden")))
     = error_result (VError (lit "403 Forbidden"))
  /\ DocsCreate.docs_create_document
       {| DocsCreate.title := lit "Draft"; DocsCreate.body_content := None |}
       (Fulfilled tt)
       (Fulfilled {| DocsCreate.documentId := None;
                     DocsCreate.response_title := None;
                     DocsCreate.revisionId := None |})
       (Fulfilled tt)
     = Fulfilled
         {| content :=
              [TextItem
                 (lit "Error: Failed to create document: no document ID returned")];
            structuredContent := None |}.
Proof.
  split_and!.
  - apply (docs_create_document_steps
             {| DocsCreate.title := lit "Draft"; DocsCreate.body_content := None |}
             _ (Rejected VNull) (Fulfilled tt) VNull).
    reflexivity.
  - destruct (docs_create_document_steps
                {| DocsCreate.title := lit "Draft";
                   DocsCreate.body_content := Some (lit "Hello World") |}
                {| DocsCreate.documentId := Some (lit "doc1");
                   DocsCreate.response_title := None;
                   DocsCreate.revisionId := None |}
                (Fulfilled tt) (Fulfilled tt) (VError (lit "403 Forbidden")))
      as (_ & _ & Hfail).
    by apply Hfail.
  - destruct (docs_create_document_steps
                {| DocsCreate.title := lit "Draft"; DocsCreate.body_content := None |}
                {| DocsCreate.documentId := None;
                   DocsCreate.response_title := None;
                   DocsCreate.revisionId := None |}
                (Fulfilled tt) (Fulfilled tt) VNull)
      as (_ & Hnoid & _).
    by destruct (Hnoid eq_refl).
Defined.

(** ** A failed detail fetch *)


(** X11. In [gmail_list_messages] one failed detail fetch fails the whole
    listing: when the detail fetches settle in an order in which the first
    one to fail fails with [e], the answer is the error envelope for [e],
    without any of the summaries already fetched. A failed list call is
    answered with its error before any detail is fetched. *)
Theorem gmail_list_messages_detail_failure (toLowerCase : jsstring -> jsstring)
    (stringify : GmailList.ListMessagesOutput -> jsstring)
    (params : GmailList.ListMessagesInput)
    (list_call : GmailList.ListParams -> Outcome GmailList.ListResponse)
    (details : nat -> Outcome Gmail.MessageDetail)
    (response : GmailList.ListResponse) (before after : list nat) (i : nat)
    (e : Thrown) :
  (list_call (GmailList.list_params params) = Fulfilled response ->
   before ++ i :: after
     ≡ₚ seq 0 (length (default [] (GmailList.messages response))) ->
   (forall j, j ∈ before -> exists d, details j = Fulfilled d) ->
   details i = Rejected e ->
   GmailList.gmail_list_messages toLowerCase stringify params (Fulfilled tt)
     list_call details (before ++ i :: after)
   = Some (error_result e))
  /\ (list_call (GmailList.list_params params) = Rejected e ->
      forall order,
        GmailList.gmail_list_messages toLowerCase stringify params (Fulfilled tt)
          list_call details order
        = Some (error_result e)).
Proof.
  unfold GmailList.gmail_list_messages. cbn [bind]. split.
  - intros -> Hperm Hfulfilled Hi. cbn zeta.
    set (ids := default [] (GmailList.messages response)) in *.
    unfold Gmail.list_messages_details.
    assert (forall j, (j < length ids)%nat ->
              imap (fun k msg =>
                      do detail <- details k ;;
                      Fulfilled (Gmail.message_summary toLowerCase msg detail)) ids
              !! j
              = (fun msg => do detail <- details j ;;
                            Fulfilled (Gmail.message_summary toLowerCase msg detail))
                <$> ids !! j) as Hlookup
      by (intros j _; apply list_lookup_imap).
    assert (forall j, j ∈ before ++ i :: after -> (j < length ids)%nat) as Hrange.
    { intros j Hj. rewrite Hperm in Hj. apply elem_of_seq in Hj. lia. }
    rewrite Promise_all_rejected with (e := e); [done | by rewrite length_imap | |].
    + intros j Hj. destruct (Hfulfilled j Hj) as [d Hd].
      assert (j < length ids)%nat as Hlt
        by (apply Hrange, elem_of_app; by left).
      destruct (lookup_lt_is_Some_2 ids j Hlt) as [msg Hmsg].
      eexists. by rewrite Hlookup, Hmsg, Hd.
    + assert (i < length ids)%nat as Hlt
        by (apply Hrange, elem_of_app; right; by left).
      destruct (lookup_lt_is_Some_2 ids i Hlt) as [msg Hmsg].
      by rewrite Hlookup, Hmsg, Hi.
  - by intros -> order.
Qed.

Lemma gmail_list_messages_detail_failure_witness :
  let ref name := {| Gmail.ref_id := Some name; Gmail.ref_threadId := None |} in
  let response :=
    {| GmailList.messages := Some [ref (lit "a"); ref (lit "b"); ref (lit "c")];
       GmailList.nextPageToken := None |} in
  let details (i : nat) :=
    match i with
    | O => Fulfilled {| Gmail.detail_headers := None; Gmail.detail_snippet := None;
                        Gmail.detail_labelIds := None |}
    | 1%nat => Rejected (VError (lit "404 Not Found"))
    | _ => Rejected (VError (lit "429 Too Many Requests"))
    end in
  GmailList.gmail_list_messages (fun s => s) (fun _ => [])
    {| GmailList.query := None; GmailList.max_results := 10;
       GmailList.label_ids := None; GmailList.page_token := None;
       GmailList.response_format := MARKDOWN |}
    (Fulfilled tt) (fun _ => Fulfilled response) details [0; 2; 1]%nat
  = Some (error_result (VError (lit "429 Too Many Requests"))).
Proof.
  intros ref response details.
  destruct (gmail_list_messages_detail_failure (fun s => s) (fun _ => [])
              {| GmailList.query := None; GmailList.max_results := 10;
                 GmailList.label_ids := None; GmailList.page_token := None;
                 GmailList.response_format := MARKDOWN |}
              (fun _ => Fulfilled response) details response [0%nat] [1%nat] 2%nat
              (VError (lit "429 Too Many Requests"))) as [Hfailure _].
  apply Hfailure.
  - reflexivity.
  - apply (bool_decide_unpack _). reflexivity.
  - intros j Hj. apply list_elem_of_singleton in Hj as ->. by eexists.
  - reflexivity.
Defined.

(** X12. When the list call and every detail fetch succeed,
    [gmail_list_messages] answers, whatever the order of settlement and for
    either response format, with one summary per entry of the list call, in
    the order of the list call, and with a [result_count] equal to their
    number; the page token is passed on only when it is not empty. *)
Theorem gmail_list_messages_success (toLowerCase : jsstring -> jsstring)
    (stringify : GmailList.ListMessagesOutput -> jsstring)
    (params : GmailList.ListMessagesInput)
    (list_call : GmailList.ListParams -> Outcome GmailList.ListResponse)
    (details : nat -> Gmail.MessageDetail)
    (response : GmailList.ListResponse) (order : list nat) :
  list_call (GmailList.list_params params) = Fulfilled response ->
  order ≡ₚ seq 0 (length (default [] (GmailList.messages response))) ->
  exists text output,
    GmailList.gmail_list_messages toLowerCase stringify params (Fulfilled tt)
      list_call (fun i => Fulfilled (details i)) order
    = Some (Fulfilled {| content := [TextItem text];
                         structuredContent := Some output |})
    /\ GmailList.out_messages output
       = imap (fun i msg => Gmail.message_summary toLowerCase msg (details i))
              (default [] (GmailList.messages response))
    /\ GmailList.result_count output
       = Z.of_nat (length (default [] (GmailList.messages response)))
    /\ GmailList.next_page_token output
       = GmailList.if_truthy (GmailList.nextPageToken response).
Proof.
  intros Hlist Horder. unfold GmailList.gmail_list_messages. cbn [bind].
  rewrite Hlist. cbn zeta.
  unfold Gmail.list_messages_details. rewrite imap_bind_fulfilled.
  rewrite Promise_all_fulfilled by (by rewrite length_imap).
  cbn [bind try_catch]. eexists _, _. split_and!; [reflexivity | done | | done].
  cbn [GmailList.result_count]. by rewrite length_imap.
Qed.

Lemma gmail_list_messages_success_witness :
  let ref name := {| Gmail.ref_id := Some name; Gmail.ref_threadId := None |} in
  let response :=
    {| GmailList.messages := Some [ref (lit "a"); ref (lit "b"); ref (lit "c")];
       GmailList.nextPageToken := Some (lit "next") |} in
  let detail (i : nat) :=
    {| Gmail.detail_headers := None;
       Gmail.detail_snippet :=
         Some (nth i [lit "first"; lit "second"; lit "third"] []);
       Gmail.detail_labelIds := None |} in
  exists text output,
    GmailList.gmail_list_messages (fun s => s) (fun _ => [])
      {| GmailList.query := Some (lit "is:unread"); GmailList.max_results := 10;
         GmailList.label_ids := None; GmailList.page_token := None;
         GmailList.response_format := MARKDOWN |}
      (Fulfilled tt) (fun _ => Fulfilled response)
      (fun i => Fulfilled (detail i)) [2; 0; 1]%nat
    = Some (Fulfilled {| content := [TextItem text];
                         structuredContent := Some output |})
    /\ map (fun m => (Gmail.msg_id m, Gmail.msg_snippet m))
           (GmailList.out_messages output)
       = [ (lit "a", lit "first"); (lit "b", lit "second"); (lit "c", lit "third") ]
    /\ GmailList.result_count output = 3
    /\ GmailList.next_page_token output = Some (lit "next").
Proof.
  intros ref response detail.
  destruct (gmail_list_messages_success (fun s => s) (fun _ => [])
              {| GmailList.query := Some (lit "is:unread");
                 GmailList.max_results := 10;
                 GmailList.label_ids := None; GmailList.page_token := None;
                 GmailList.response_format := MARKDOWN |}
              (fun _ => Fulfilled response) detail response [2; 0; 1]%nat)
    as (text & output & Hanswer & Hmessages & Hcount & Htoken).
  - reflexivity.
  - apply (bool_decide_unpack _). reflexivity.
  - exists text, output. rewrite Hmessages, Hcount, Htoken.
    split_and!; [exact Hanswer | reflexivity | reflexivity | reflexivity].
Defined.

(** ** Drive: the type filter *)

(** X13. [drive_search_files] and [drive_list_files] filter by type in the
    same way: for [all] nothing is added to the expression, and for each of
    the four other values of the schema the table has an entry, so the
    clause [ and mimeType = '...'] with that entry is always added. *)
Theorem mime_type_clause (query : jsstring) (mime_type : Drive.MimeTypeFilter) :
  let clause :=
    match mime_type with
    | Drive.all => []
    | Drive.documents => lit " and mimeType = 'application/vnd.google-apps.document'"
    | Drive.spreadsheets =>
        lit " and mimeType = 'application/vnd.google-apps.spreadsheet'"
    | Drive.presentations =>
        lit " and mimeType = 'application/vnd.google-apps.presentation'"
    | Drive.folders => lit " and mimeType = 'application/vnd.google-apps.folder'"
    end in
  Drive.search_query query mime_type = Drive.search_query query Drive.all ++ clause
  /\ DriveList.list_files_query mime_type = lit "trashed = false" ++ clause.
Proof.
  destruct mime_type; cbn zeta; split; try reflexivity;
    try (symmetry; apply app_nil_r);
    unfold Drive.search_query; cbn; by rewrite <- !app_assoc.
Qed.

(** ** Drive: downloading a file *)

Lemma from_base64_toString_base64 (bytes : list Z) :
  Forall Buffer.is_byte bytes ->
  Buffer.from_base64 (Buffer.toString_base64 bytes) = bytes.
Proof.
  intros Hbytes. rewrite <- (map_id (Buffer.toString_base64 bytes)).
  by apply from_base64_toString.
Qed.

(** X14. [drive_get_file] awaits one of the two downloads and never the
    other: for a file of a Google Workspace type only the export, whose
    result is always handed out as a PDF resource; for any other file only
    the direct download. *)
Theorem drive_get_file_one_download (formatFileSize : Z -> jsstring)
    (metadata : Drive.FileMetadata) (exported exported' media media' : Outcome (list Z)) :
  let mimeType :=
    or_else (Drive.md_mimeType metadata) (lit "application/octet-stream") in
  (startsWith mimeType (lit "application/vnd.google-apps.") = true ->
   Drive.drive_get_file formatFileSize (Fulfilled tt) (Fulfilled metadata) exported media
   = Drive.drive_get_file formatFileSize (Fulfilled tt) (Fulfilled metadata) exported media'
   /\ forall data, exported = Fulfilled data ->
        exists text,
          Drive.drive_get_file formatFileSize (Fulfilled tt) (Fulfilled metadata)
            exported media
          = Fulfilled
              {| content :=
                   [ TextItem text;
                     ResourceItem
                       (lit "data:application/pdf;base64,"
                        ++ Buffer.toString_base64 data)
                       (lit "application/pdf") (Buffer.toString_base64 data) ];
                 structuredContent := None |})
  /\ (startsWith mimeType (lit "application/vnd.google-apps.") = false ->
      Drive.drive_get_file formatFileSize (Fulfilled tt) (Fulfilled metadata)
        exported media
      = Drive.drive_get_file formatFileSize (Fulfilled tt) (Fulfilled metadata)
          exported' media).
Proof.
  intros mimeType. unfold Drive.drive_get_file. cbn [bind]. fold mimeType.
  split.
  - intros ->. split; [reflexivity|]. intros data ->. by eexists.
  - intros ->. reflexivity.
Qed.

Lemma drive_get_file_one_download_witness :
  Drive.drive_get_file Drive.formatFileSize_small (Fulfilled tt)
    (Fulfilled {| Drive.md_mimeType := Some (lit "application/vnd.google-apps.document");
                  Drive.md_name := None; Drive.md_size := None |})
    (Fulfilled [37; 80; 68; 70]) (Rejected VNull)
  = Drive.drive_get_file Drive.formatFileSize_small (Fulfilled tt)
      (Fulfilled {| Drive.md_mimeType := Some (lit "application/vnd.google-apps.document");
                    Drive.md_name := None; Drive.md_size := None |})
      (Fulfilled [37; 80; 68; 70]) (Fulfilled [])
  /\ Drive.drive_get_file Drive.formatFileSize_small (Fulfilled tt)
       (Fulfilled Drive.small_pdf) (Rejected VNull) (Fulfilled [37; 80; 68; 70])
     = Drive.drive_get_file Drive.formatFileSize_small (Fulfilled tt)
         (Fulfilled Drive.small_pdf) (Fulfilled []) (Fulfilled [37; 80; 68; 70]).
Proof.
  destruct (drive_get_file_one_download Drive.formatFileSize_small
              {| Drive.md_mimeType := Some (lit "application/vnd.google-apps.document");
                 Drive.md_name := None; Drive.md_size := None |}
              (Fulfilled [37; 80; 68; 70]) (Fulfilled [37; 80; 68; 70])
              (Rejected VNull) (Fulfilled [])) as [Hexport _].
  destruct (drive_get_file_one_download Drive.formatFileSize_small Drive.small_pdf
              (Rejected VNull) (Fulfilled [])
              (Fulfilled [37; 80; 68; 70]) (Fulfilled [37; 80; 68; 70]))
    as [_ Hmedia].
  split; [by destruct (Hexport eq_refl) | by apply Hmedia].
Defined.

(** X15. What [drive_get_file] hands out as a resource or as an image is
    the file itself: decoding the base64 text of the item gives back the
    bytes that were downloaded, and the URI of a resource is the data URI
    of that text. *)
Theorem drive_get_file_blob (formatFileSize : Z -> jsstring)
    (metadata : Drive.FileMetadata) (exported media : list Z) :
  Forall Buffer.is_byte exported -> Forall Buffer.is_byte media ->
  let downloaded :=
    if startsWith (or_else (Drive.md_mimeType metadata) (lit "application/octet-stream"))
         (lit "application/vnd.google-apps.")
    then exported else media in
  exists result,
    Drive.drive_get_file formatFileSize (Fulfilled tt) (Fulfilled metadata)
      (Fulfilled exported) (Fulfilled media)
    = Fulfilled result
    /\ forall item, In item (content result) ->
         match item with
         | TextItem _ => True
         | ResourceItem uri mimeType blob =>
             Buffer.from_base64 blob = downloaded
             /\ uri = lit "data:" ++ mimeType ++ lit ";base64," ++ blob
         | ImageItem data _ => Buffer.from_base64 data = downloaded
         end.
Proof.
  intros Hexported Hmedia. unfold Drive.drive_get_file. cbn [bind try_catch].
  destruct (startsWith _ _); cbn [bind fst snd].
  - change (streq (lit "application/pdf") (lit "application/pdf")) with true.
    cbv iota. eexists. split; [reflexivity|]. cbn [content].
    intros item [<-|[<-|[]]]; [done|].
    split; [by apply from_base64_toString_base64 | done].
  - destruct (streq _ _); [|destruct (startsWith _ _)];
      (eexists; split; [reflexivity|]; cbn [content]).
    + intros item [<-|[<-|[]]]; [done|].
      split; [by apply from_base64_toString_base64 | done].
    + intros item [<-|[<-|[]]]; [done|]. by apply from_base64_toString_base64.
    + by intros item [<-|[]].
Qed.

Lemma drive_get_file_blob_witness :
  Buffer.from_base64 (lit "JVBERg==") = [37; 80; 68; 70]
  /\ lit "data:application/pdf;base64,JVBERg=="
     = lit "data:" ++ lit "application/pdf" ++ lit ";base64," ++ lit "JVBERg==".
Proof.
  destruct (drive_get_file_blob Drive.formatFileSize_small Drive.small_pdf []
              [37; 80; 68; 70]) as (result & Hresult & Hitems).
  - constructor.
  - unfold Buffer.is_byte. repeat constructor; lia.
  - injection Hresult as <-.
    apply (Hitems (ResourceItem (lit "data:application/pdf;base64,JVBERg==")
                     (lit "application/pdf") (lit "JVBERg=="))).
    right. left. reflexivity.
Defined.

(** ** Drive: the rendering of a comment *)

(** X16. A comment is rendered as its heading lines, an empty line and its
    content; a comment with replies is followed by an empty line, the line
    [**Replies**:] and one line per reply, in the order of the replies,
    and a comment without replies by nothing more. *)
Theorem formatCommentForMarkdown_replies (comment : DriveList.CommentData) :
  DriveList.formatCommentForMarkdown comment
  = join nl
      (DriveList.comment_lines comment
       ++ match DriveList.comment_replies comment with
          | [] => []
          | replies => [[]; lit "**Replies**:"] ++ map DriveList.reply_line replies
          end).
Proof.
  unfold DriveList.formatCommentForMarkdown, DriveList.comment_lines.
  destruct (DriveList.comment_replies comment) as [|reply replies].
  - rewrite app_nil_r. by destruct (truthy _).
  - rewrite (foldl_push DriveList.reply_line).
    destruct (truthy _); by rewrite <- !app_assoc.
Qed.

(** ** Sheets: a range without data *)

(** X17. When the response of [sheets_get_values] has no [values] key, or
    an empty grid, and markdown is asked for, the text says that no data was
    found in the range, naming the range of the response if it has one and
    the requested range otherwise; the structured values are the empty
    array. The range is short enough for the text to fit the budget. *)
Theorem sheets_get_values_no_data
    (stringify : SheetsGet.GetValuesOutput -> jsstring)
    (params : SheetsGet.GetValuesInput) (data : SheetsGet.ValuesResponse) :
  let range :=
    or_else (SheetsGet.response_range data) (SheetsGet.range params) in
  SheetsGet.response_format params = MARKDOWN ->
  default [] (SheetsGet.response_values data) = [] ->
  jslength range <= CHARACTER_LIMIT - 24 ->
  SheetsGet.sheets_get_values stringify params (Fulfilled tt) (Fulfilled data)
  = Fulfilled
      {| content := [TextItem (lit "No data found in range: " ++ range)];
         structuredContent :=
           Some {| SheetsGet.out_range := range;
                   SheetsGet.out_majorDimension :=
                     or_else (SheetsGet.response_majorDimension data)
                             (SheetsGet.major_dimension params);
                   SheetsGet.out_values := [] |} |}.
Proof.
  intros range Hformat Hvalues Hrange.
  unfold SheetsGet.sheets_get_values. cbn [bind try_catch].
  rewrite Hformat, Hvalues. cbn [SheetsGet.out_values SheetsGet.out_range].
  unfold Sheets.get_values_markdown. cbn [Sheets.formatValuesAsMarkdown].
  fold range.
  assert (jslength (lit "No data found in range: " ++ range) <= CHARACTER_LIMIT)
    as Hshort.
  { unfold jslength in *. rewrite length_app.
    change (length (lit "No data found in range: ")) with 24%nat. lia. }
  by rewrite (proj2 (Z.ltb_ge _ _) Hshort).
Qed.

Lemma sheets_get_values_no_data_witness :
  SheetsGet.sheets_get_values (fun _ => [])
    {| SheetsGet.spreadsheet_id := lit "s"; SheetsGet.range := lit "A1:B2";
       SheetsGet.major_dimension := lit "ROWS";
       SheetsGet.response_format := MARKDOWN |}
    (Fulfilled tt)
    (Fulfilled {| SheetsGet.response_range := Some (lit "Sheet1!A1:B2");
                  SheetsGet.response_majorDimension := None;
                  SheetsGet.response_values := None |})
  = Fulfilled
      {| content := [TextItem (lit "No data found in range: Sheet1!A1:B2")];
         structuredContent :=
           Some {| SheetsGet.out_range := lit "Sheet1!A1:B2";
                   SheetsGet.out_majorDimension := lit "ROWS";
                   SheetsGet.out_values := [] |} |}.
Proof.
  apply (sheets_get_values_no_data (fun _ => [])
           {| SheetsGet.spreadsheet_id := lit "s"; SheetsGet.range := lit "A1:B2";
              SheetsGet.major_dimension := lit "ROWS";
              SheetsGet.response_format := MARKDOWN |}
           {| SheetsGet.response_range := Some (lit "Sheet1!A1:B2");
              SheetsGet.response_majorDimension := None;
              SheetsGet.response_values := None |});
    [reflexivity | reflexivity | vm_compute; discriminate].
Defined.

(** ** Decoded text is well formed *)

Lemma between_true (lo hi b : Z) : Buffer.between lo hi b = true -> lo <= b <= hi.
Proof. unfold Buffer.between. rewrite andb_true_iff, !Z.leb_le. lia. Qed.

Lemma well_formed_unit (u : Z) (rest : jsstring) :
  0 <= u <= 0xFFFF -> u < 0xD800 \/ 0xDFFF < u ->
  Buffer.well_formed (u :: rest) = Buffer.well_formed rest.
Proof.
  intros Hu Hs. cbn [Buffer.well_formed]. unfold Buffer.between.
  destruct (Z.leb_spec 0xD800 u), (Z.leb_spec u 0xDBFF), (Z.leb_spec 0 u),
    (Z.leb_spec u 0xFFFF), (Z.leb_spec 0xDC00 u), (Z.leb_spec u 0xDFFF);
    cbn [andb negb]; try lia; reflexivity.
Qed.

Lemma well_formed_replacement (rest : jsstring) :
  Buffer.well_formed (Buffer.replacement :: rest) = Buffer.well_formed rest.
Proof. apply well_formed_unit; unfold Buffer.replacement; lia. Qed.

Lemma well_formed_units (cp : Z) (rest : jsstring) :
  0x10000 <= cp <= 0x10FFFF ->
  Buffer.well_formed (Buffer.utf16_units cp ++ rest) = Buffer.well_formed rest.
Proof.
  intros Hcp. unfold Buffer.utf16_units.
  rewrite (proj2 (Z.ltb_ge cp 0x10000)) by lia.
  cbn [app Buffer.well_formed]. unfold Buffer.between.
  destruct (Z.leb_spec 0xD800 (0xD800 + (cp - 0x10000) / 0x400)),
    (Z.leb_spec (0xD800 + (cp - 0x10000) / 0x400) 0xDBFF),
    (Z.leb_spec 0xDC00 (0xDC00 + (cp - 0x10000) mod 0x400)),
    (Z.leb_spec (0xDC00 + (cp - 0x10000) mod 0x400) 0xDFFF);
    cbn [andb]; try reflexivity; exfalso; Z.div_mod_to_equations; lia.
Qed.

Lemma toString_utf8_well_formed (bytes : list Z) :
  Forall (fun b => 0 <= b) bytes ->
  Buffer.well_formed (Buffer.toString_utf8 bytes) = true.
Proof.
  remember (length bytes) as n eqn:Hn.
  assert (length bytes <= n)%nat as Hlen by lia. clear Hn.
  revert bytes Hlen. induction n as [|n IH]; intros bytes Hlen Hpos.
  { destruct bytes; [done | cbn in Hlen; lia]. }
  destruct bytes as [|b0 r0]; [done|].
  apply Forall_cons_1 in Hpos as [H0 Hpos0]. cbn [length] in Hlen.
  assert (Buffer.well_formed (Buffer.toString_utf8 r0) = true) as IH0
    by (apply IH; [cbn [length] in *; lia | done]).
  cbn [Buffer.toString_utf8].
  destruct (Z.ltb_spec b0 0x80); [by rewrite well_formed_unit by lia|].
  destruct (Buffer.between 0xC2 0xDF b0) eqn:Hlead2.
  { apply between_true in Hlead2. destruct r0 as [|b1 r1]; [done|].
    destruct (Buffer.between 0x80 0xBF b1) eqn:H1;
      [|by rewrite well_formed_replacement].
    apply between_true in H1. rewrite well_formed_unit by lia.
    apply Forall_cons_1 in Hpos0 as [_ Hpos1]. cbn [length] in Hlen.
    apply IH; [cbn [length] in *; lia | done]. }
  destruct (Buffer.between 0xE0 0xEF b0) eqn:Hlead3.
  { apply between_true in Hlead3. destruct r0 as [|b1 r1]; [done|].
    destruct (Buffer.between _ _ b1) eqn:H1;
      [|by rewrite well_formed_replacement].
    apply between_true in H1. destruct r1 as [|b2 r2]; [done|].
    apply Forall_cons_1 in Hpos0 as [_ Hpos1]. cbn [length] in Hlen.
    destruct (Buffer.between 0x80 0xBF b2) eqn:H2.
    - apply between_true in H2. rewrite well_formed_unit.
      + apply Forall_cons_1 in Hpos1 as [_ Hpos2]. apply IH; [cbn [length] in *; lia | done].
      + destruct (Z.eqb_spec b0 0xE0), (Z.eqb_spec b0 0xED); lia.
      + destruct (Z.eqb_spec b0 0xE0), (Z.eqb_spec b0 0xED); lia.
    - rewrite well_formed_replacement. apply IH; [cbn [length] in *; lia | done]. }
  destruct (Buffer.between 0xF0 0xF4 b0) eqn:Hlead4;
    [|by rewrite well_formed_replacement].
  apply between_true in Hlead4. destruct r0 as [|b1 r1]; [done|].
  destruct (Buffer.between _ _ b1) eqn:H1;
    [|by rewrite well_formed_replacement].
  apply between_true in H1. destruct r1 as [|b2 r2]; [done|].
  apply Forall_cons_1 in Hpos0 as [_ Hpos1]. cbn [length] in Hlen.
  destruct (Buffer.between 0x80 0xBF b2) eqn:H2.
  2: { rewrite well_formed_replacement. apply IH; [cbn [length] in *; lia | done]. }
  apply between_true in H2. destruct r2 as [|b3 r3]; [done|].
  apply Forall_cons_1 in Hpos1 as [_ Hpos2]. cbn [length] in Hlen.
  destruct (Buffer.between 0x80 0xBF b3) eqn:H3.
  2: { rewrite well_formed_replacement. apply IH; [cbn [length] in *; lia | done]. }
  apply between_true in H3. rewrite well_formed_units.
  - apply Forall_cons_1 in Hpos2 as [_ Hpos3]. apply IH; [cbn [length] in *; lia | done].
  - destruct (Z.eqb_spec b0 0xF0), (Z.eqb_spec b0 0xF4); lia.
Qed.

Lemma b64_value_range (c v : Z) : Buffer.b64_value c = Some v -> 0 <= v < 64.
Proof.
  unfold Buffer.b64_value, Buffer.between.
  destruct (Z.leb_spec 65 c), (Z.leb_spec c 90); cbn [andb];
    try (intros [= <-]; lia);
    destruct (Z.leb_spec 97 c), (Z.leb_spec c 122); cbn [andb];
    try (intros [= <-]; lia);
    destruct (Z.leb_spec 48 c), (Z.leb_spec c 57); cbn [andb];
    try (intros [= <-]; lia);
    destruct ((c =? 43) || (c =? 45)); try (intros [= <-]; lia);
    destruct ((c =? 47) || (c =? 95)); try (intros [= <-]; lia); done.
Qed.

Lemma b64_sextets_range (s : jsstring) :
  Forall (fun v => 0 <= v < 64) (Buffer.b64_sextets s).
Proof.
  induction s as [|c s IH]; [constructor|]. cbn [Buffer.b64_sextets]. cbv zeta.
  destruct (c mod 256 =? 61); [constructor|].
  destruct (Buffer.b64_value (c mod 256)) as [v|] eqn:Hv; [|done].
  constructor; [by eapply b64_value_range | done].
Qed.

Lemma b64_bytes_range (vs : list Z) :
  Forall (fun v => 0 <= v < 64) vs -> Forall Buffer.is_byte (Buffer.b64_bytes vs).
Proof.
  unfold Buffer.is_byte. remember (length vs) as n eqn:Hn.
  assert (length vs <= n)%nat as Hlen by lia. clear Hn.
  revert vs Hlen. induction n as [|n IH]; intros vs Hlen Hvs.
  { destruct vs; [constructor | cbn in Hlen; lia]. }
  destruct vs as [|v0 [|v1 [|v2 [|v3 vs]]]]; cbn [Buffer.b64_bytes];
    repeat match goal with
      | H : Forall _ (_ :: _) |- _ => apply Forall_cons_1 in H as [? H]
      end.
  - constructor.
  - constructor.
  - apply Forall_cons_2; [Z.div_mod_to_equations; lia | constructor].
  - do 2 (apply Forall_cons_2; [Z.div_mod_to_equations; lia|]). constructor.
  - do 3 (apply Forall_cons_2; [Z.div_mod_to_equations; lia|]).
    apply IH; [cbn [length] in Hlen; lia | done].
Qed.

(** X18. Whatever the data, well formed or not, [decodeBase64] yields a
    well-formed string: no code unit out of range and no surrogate without
    its pair, so that the body can be serialised and encoded again. *)
Theorem decodeBase64_well_formed (data : jsstring) :
  Buffer.well_formed (Gmail.decodeBase64 data) = true.
Proof.
  unfold Gmail.decodeBase64, Buffer.from_base64.
  apply toString_utf8_well_formed.
  eapply Forall_impl; [apply b64_bytes_range, b64_sextets_range|].
  unfold Buffer.is_byte. intros b Hb. cbv beta in Hb. lia.
Qed.

(** ** Labels: the markdown text and the structured list *)

Lemma list_labels_lines_eq (labels : list Gmail.LabelData) :
  GmailLabels.list_labels_lines labels
  = [lit "# Gmail Labels"; []; lit "## System Labels"; []]
    ++ map GmailLabels.label_bullet (List.filter Gmail.is_system labels)
    ++ match List.filter (fun l => negb (Gmail.is_system l)) labels with
       | [] => []
       | (_ :: _) as userLabels =>
           [[]; lit "## User Labels"; []]
           ++ map GmailLabels.label_bullet userLabels
       end.
Proof.
  unfold GmailLabels.list_labels_lines.
  destruct (List.filter (fun l => negb (Gmail.is_system l)) labels) as [|u us].
  - by rewrite foldl_push, app_nil_r.
  - by rewrite !foldl_push, <- !app_assoc.
Qed.

Lemma filter_bullets (labels : list Gmail.LabelData) :
  List.filter (fun line => startsWith line (lit "- **"))
    (map GmailLabels.label_bullet labels)
  = map GmailLabels.label_bullet labels.
Proof.
  induction labels as [|l labels IH]; [done|]. cbn [map List.filter].
  rewrite IH.
  assert (startsWith (GmailLabels.label_bullet l) (lit "- **") = true) as ->; [|done].
  apply startsWith_spec. by eexists.
Qed.

Lemma bullet_not_heading (labels : list Gmail.LabelData) :
  ~ In (lit "## User Labels") (map GmailLabels.label_bullet labels).
Proof.
  intros Hin. apply in_map_iff in Hin as (l & Hl & _). discriminate.
Qed.

Section LabelsMarkdown.

Variable localeCompare : jsstring -> jsstring -> Z.
Variable stringify : GmailLabels.ListLabelsOutput -> jsstring.

Hypothesis localeCompare_total :
  forall a b, localeCompare a b <= 0 \/ localeCompare b a <= 0.
Hypothesis localeCompare_trans :
  forall a b c,
    localeCompare a b <= 0 -> localeCompare b c <= 0 -> localeCompare a c <= 0.

(** X19. The markdown text of [gmail_list_labels] agrees with its structured
    content: the bullet lines of the text, read from the top, are the
    labels of the structured list in the same order, one line per label;
    the text starts with the title and the heading of the system labels
    even when there is none; and the heading of the user labels is there
    exactly when some label is not a system label. A missing [labels] key
    counts as no label. *)
Theorem gmail_list_labels_markdown_order (labels : option (list Gmail.Label)) :
  let sorted := Gmail.sorted_labels localeCompare (default [] labels) in
  exists lines,
    GmailLabels.gmail_list_labels localeCompare stringify MARKDOWN
      (Fulfilled tt) (Fulfilled labels)
    = Fulfilled
        {| content := [TextItem (join nl lines)];
           structuredContent := Some {| GmailLabels.out_labels := sorted |} |}
    /\ List.filter (fun line => startsWith line (lit "- **")) lines
       = map GmailLabels.label_bullet sorted
    /\ take 4 lines = [lit "# Gmail Labels"; []; lit "## System Labels"; []]
    /\ (In (lit "## User Labels") lines
        <-> Exists (fun l => Gmail.is_system l = false) sorted).
Proof.
  intros sorted. exists (GmailLabels.list_labels_lines sorted).
  assert (StronglySorted (Gmail.label_before localeCompare) sorted) as Hsorted
    by (apply Array_sort_sorted; assumption).
  apply sorted_system_first in Hsorted.
  split; [reflexivity|].
  rewrite list_labels_lines_eq.
  set (sys := List.filter Gmail.is_system sorted) in *.
  set (usr := List.filter (fun l => negb (Gmail.is_system l)) sorted) in *.
  split_and!.
  - rewrite Hsorted. rewrite map_app.
    rewrite !List.filter_app, filter_bullets. cbn [List.filter startsWith lit].
    destruct usr as [|u us]; [done|].
    rewrite List.filter_app, filter_bullets. done.
  - done.
  - split.
    + intros Hin. apply in_app_or in Hin as [Hin|Hin].
      { cbn in Hin. intuition discriminate. }
      apply in_app_or in Hin as [Hin|Hin]; [by apply bullet_not_heading in Hin|].
      assert (usr <> []) as Husr by (intros Hnil; by rewrite Hnil in Hin).
      destruct usr as [|u us] eqn:Heq; [done|].
      assert (In u (List.filter (fun l => negb (Gmail.is_system l)) sorted))
        as Hu by (fold usr; rewrite Heq; by left).
      apply filter_In in Hu as [Hu Hnot]. apply Exists_exists. exists u.
      split; [by apply list_elem_of_In | by destruct (Gmail.is_system u)].
    + intros Hex. apply Exists_exists in Hex as (u & Hu & Hnot).
      assert (In u usr) as Hin.
      { apply filter_In. split; [by apply list_elem_of_In | by rewrite Hnot]. }
      destruct usr as [|u' us]; [done|].
      apply in_or_app. right. apply in_or_app. right. right. by left.
Qed.

End LabelsMarkdown.

Lemma gmail_list_labels_markdown_order_witness :
  let label name type :=
    {| Gmail.api_id := Some name; Gmail.api_name := Some name;
       Gmail.api_type := type |} in
  let labels :=
    Some [ label (lit "Work") None; label (lit "INBOX") (Some (lit "system")) ] in
  exists lines,
    GmailLabels.gmail_list_labels Gmail.codeUnitCompare (fun _ => []) MARKDOWN
      (Fulfilled tt) (Fulfilled labels)
    = Fulfilled
        {| content := [TextItem (join nl lines)];
           structuredContent :=
             Some {| GmailLabels.out_labels :=
                       Gmail.sorted_labels Gmail.codeUnitCompare
                         (default [] labels) |} |}
    /\ List.filter (fun line => startsWith line (lit "- **")) lines
       = [lit "- **INBOX** (`INBOX`)"; lit "- **Work** (`Work`)"].
Proof.
  intros label labels.
  destruct (gmail_list_labels_markdown_order Gmail.codeUnitCompare (fun _ => [])
              codeUnitCompare_total codeUnitCompare_trans labels)
    as (lines & Htext & Hbullets & _).
  exists lines. split; [exact Htext | exact Hbullets].
Defined.
